(** * CO2 tracker (app.py): fetchers, derivations and the refresh coordinator

    A shallow embedding of [src/app.py].

    - [Py] models the part of the Python runtime the program calls:
      [str] methods, [int()], [float()], [datetime(...)], [max], [sum],
      [list.sort], IEEE-754 binary64 arithmetic.
    - [Csv] models [io.StringIO] line iteration, [csv.reader] (excel
      dialect) and [csv.DictReader].
    - [Net] models the outcome of [requests.get].
    - [Co2] holds the program itself: the two fetchers, the derivations,
      and the [App] class as a transition system over explicit state.

    Theorems follow all definitions. *)

From Stdlib Require Import ZArith NArith Lia Bool String Ascii.
From Stdlib Require Import Permutation Sorted.
From Stdlib Require Import SpecFloat.
From stdpp Require Import base option list gmap.

Local Open Scope Z_scope.

(* ===================================================================== *)
(** * The Python runtime                                                  *)
(* ===================================================================== *)

Module Py.

(** ** Exceptions and results *)

(** Exceptions of [requests.exceptions]; all are subclasses of
    [RequestException].  [HTTPError] is what [raise_for_status] raises. *)
Inductive request_exception :=
| ConnectionError
| Timeout
| TooManyRedirects
| OtherRequestException
| HTTPError (status_code : Z).

(** The exception classes this program can raise.  All derive from
    [Exception]. *)
Inductive exn :=
| ValueError
| OverflowError
| RuntimeError (msg : list N)
| KeyError (key : list N)
| IndexError
| csv_Error
| RequestException (e : request_exception).

Inductive result (A : Type) :=
| Return (a : A)
| Raise (e : exn).
Arguments Return {A} a.
Arguments Raise {A} e.

#[global] Instance result_ret : MRet result := @Return.
#[global] Instance result_bind : MBind result := λ A B k r,
  match r with
  | Return a => k a
  | Raise e => Raise e
  end.
#[global] Instance result_fmap : FMap result := λ A B f r,
  match r with
  | Return a => Return (f a)
  | Raise e => Raise e
  end.

(** ** Strings: [str] is a sequence of Unicode code points *)

Abbreviation str := (list N).

Definition in_range (lo hi c : N) : bool := ((lo <=? c) && (c <=? hi))%N.

(** Decoder for UTF-8 literals, so that program text can be written as
    Rocq string literals. *)
Fixpoint utf8_go (pending : nat) (acc : N) (bs : list N) : list N :=
  match bs with
  | [] => []
  | b :: bs' =>
    match pending with
    | O =>
      if (b <? 0x80)%N then b :: utf8_go 0 0%N bs'
      else if (b <? 0xE0)%N then utf8_go 1 (N.land b 0x1F) bs'
      else if (b <? 0xF0)%N then utf8_go 2 (N.land b 0x0F) bs'
      else utf8_go 3 (N.land b 0x07) bs'
    | S O => (acc * 64 + N.land b 0x3F)%N :: utf8_go 0 0%N bs'
    | S k => utf8_go k (acc * 64 + N.land b 0x3F)%N bs'
    end
  end.

Definition u (s : string) : list N :=
  utf8_go 0 0%N (map N_of_ascii (list_ascii_of_string s)).
Arguments u s%_string : simpl never.

(** [str.isspace] on one character (Unicode White_Space as CPython has
    it); the set [str.strip()] removes. *)
Definition isspace (c : N) : bool :=
  in_range 0x09 0x0D c || in_range 0x1C 0x20 c
  || (c =? 0x85)%N || (c =? 0xA0)%N || (c =? 0x1680)%N
  || in_range 0x2000 0x200A c
  || (c =? 0x2028)%N || (c =? 0x2029)%N || (c =? 0x202F)%N
  || (c =? 0x205F)%N || (c =? 0x3000)%N.

(** Line boundaries of [str.splitlines]. *)
Definition is_linebreak (c : N) : bool :=
  in_range 0x0A 0x0D c || in_range 0x1C 0x1E c
  || (c =? 0x85)%N || (c =? 0x2028)%N || (c =? 0x2029)%N.

Fixpoint lstrip (s : list N) : list N :=
  match s with
  | c :: s' => if isspace c then lstrip s' else s
  | [] => []
  end.

Definition rstrip (s : list N) : list N := rev (lstrip (rev s)).

(** [s.strip()] *)
Definition strip (s : list N) : list N := rstrip (lstrip s).

(** [s.split(sep)] for a one-character separator: never empty. *)
Fixpoint split_go (sep : N) (cur : list N) (s : list N) : list (list N) :=
  match s with
  | [] => [rev cur]
  | c :: s' =>
    if (c =? sep)%N then rev cur :: split_go sep [] s'
    else split_go sep (c :: cur) s'
  end.

Definition split (sep : N) (s : list N) : list (list N) := split_go sep [] s.

(** [s.splitlines()]: a CR LF pair is one boundary; a final boundary
    opens no empty last line. *)
Fixpoint splitlines_go (cur : list N) (s : list N) : list (list N) :=
  match s with
  | [] => match cur with [] => [] | _ => [rev cur] end
  | c :: s' =>
    if is_linebreak c then
      rev cur ::
        match s' with
        | d :: s'' =>
          if ((c =? 0x0D) && (d =? 0x0A))%N then splitlines_go [] s''
          else splitlines_go [] s'
        | [] => []
        end
    else splitlines_go (c :: cur) s'
  end.

Definition splitlines (s : list N) : list (list N) := splitlines_go [] s.

(** [s.startswith(p)] *)
Fixpoint startswith (s p : list N) : bool :=
  match p, s with
  | [], _ => true
  | c :: p', d :: s' => (c =? d)%N && startswith s' p'
  | _ :: _, [] => false
  end.

Definition str_eqb (a b : list N) : bool := bool_decide (a = b).

(** ** Decimal digits

    Code points of the zero digit of every Unicode [Nd] block (Unicode
    14.0, the table of CPython 3.11); each block is ten consecutive
    digits. *)
Definition nd_zeros : list N :=
  [0x30; 0x660; 0x6f0; 0x7c0; 0x966; 0x9e6; 0xa66; 0xae6; 0xb66; 0xbe6;
   0xc66; 0xce6; 0xd66; 0xde6; 0xe50; 0xed0; 0xf20; 0x1040; 0x1090;
   0x17e0; 0x1810; 0x1946; 0x19d0; 0x1a80; 0x1a90; 0x1b50; 0x1bb0;
   0x1c40; 0x1c50; 0xa620; 0xa8d0; 0xa900; 0xa9d0; 0xa9f0; 0xaa50;
   0xabf0; 0xff10; 0x104a0; 0x10d30; 0x11066; 0x110f0; 0x11136; 0x111d0;
   0x112f0; 0x11450; 0x114d0; 0x11650; 0x116c0; 0x11730; 0x118e0;
   0x11950; 0x11c50; 0x11d50; 0x11da0; 0x16a60; 0x16ac0; 0x16b50;
   0x1d7ce; 0x1d7d8; 0x1d7e2; 0x1d7ec; 0x1d7f6; 0x1e140; 0x1e2f0;
   0x1e950; 0x1fbf0]%N.

Fixpoint decimal_in (zeros : list N) (c : N) : option N :=
  match zeros with
  | [] => None
  | z :: zs => if in_range z (z + 9) c then Some (c - z)%N else decimal_in zs c
  end.

(** [unicodedata.decimal(c)] *)
Definition decimal (c : N) : option N := decimal_in nd_zeros c.

(** What [int()] and [float()] do to their argument first: ASCII is
    kept, other white space becomes a space, other decimal digits
    become ASCII digits, and anything else is an error. *)
Definition to_ascii_char (c : N) : option N :=
  if (c <? 128)%N then Some c
  else if isspace c then Some 0x20%N
  else (λ d, 0x30 + d)%N <$> decimal c.

Definition to_ascii (s : list N) : option (list N) := mapM to_ascii_char s.

(** C's [isspace] in the C locale. *)
Definition c_isspace (c : N) : bool := in_range 0x09 0x0D c || (c =? 0x20)%N.

Definition is_digit (c : N) : bool := in_range 0x30 0x39 c.

Fixpoint skip_spaces (s : list N) : list N :=
  match s with
  | c :: s' => if c_isspace c then skip_spaces s' else s
  | [] => []
  end.

(** Reads digits with single underscores between them; gives the value,
    the number of digits and the rest.  An underscore that is doubled or
    not followed by a digit is an error. *)
Fixpoint scan_digits (prev_us : bool) (acc cnt : N) (s : list N)
  : option (N * N * list N) :=
  match s with
  | [] => if prev_us then None else Some (acc, cnt, [])
  | c :: s' =>
    if is_digit c then scan_digits false (10 * acc + (c - 0x30))%N (cnt + 1)%N s'
    else if (c =? 0x5F)%N then
      if prev_us then None else scan_digits true acc cnt s'
    else if prev_us then None else Some (acc, cnt, s)
  end.

(** [digitpart]: a nonempty run of digits, starting with a digit. *)
Definition digitpart (s : list N) : option (N * N * list N) :=
  match s with
  | c :: _ => if is_digit c then scan_digits false 0%N 0%N s else None
  | [] => None
  end.

(** [sys.get_int_max_str_digits()], CPython's default. *)
Definition int_max_str_digits : N := 4300.

Definition take_sign (s : list N) : bool * list N :=
  match s with
  | 0x2D%N :: s' => (true, s')
  | 0x2B%N :: s' => (false, s')
  | _ => (false, s)
  end.

(** [int(s)] for a [str]: [None] stands for [ValueError]. *)
Definition int (s : list N) : option Z :=
  a ← to_ascii s;
  let '(neg, a1) := take_sign (skip_spaces a) in
  '(n, cnt, rest) ← digitpart a1;
  if negb (bool_decide (skip_spaces rest = [])) then None
  else if (int_max_str_digits <? cnt)%N then None
  else Some (if neg then - Z.of_N n else Z.of_N n).

(** ** Floats: IEEE-754 binary64, round to nearest even *)

Abbreviation float := spec_float.

Definition prec : Z := 53.
Definition emax : Z := 1024.

Definition fadd : float -> float -> float := SFadd prec emax.
Definition fsub : float -> float -> float := SFsub prec emax.
Definition fmul : float -> float -> float := SFmul prec emax.
Definition fdiv : float -> float -> float := SFdiv prec emax.
(** [x < y] and [x <= y]: false as soon as an operand is NaN. *)
Definition fltb : float -> float -> bool := SFltb.
Definition fleb : float -> float -> bool := SFleb.

(** The float nearest to [digits * 10 ^ exp10], with the sign [neg]:
    the value of a decimal literal. *)
Definition float_of_decimal (neg : bool) (digits : N) (exp10 : Z) : float :=
  match digits with
  | N0 => S754_zero neg
  | Npos p =>
    if 0 <=? exp10 then
      binary_normalize prec emax (cond_Zopp neg (Zpos p * 10 ^ exp10)) 0 false
    else
      SFdiv prec emax (S754_finite neg p 0)
            (S754_finite false (Z.to_pos (10 ^ (- exp10))) 0)
  end.

(** The [int] 0 as a float, as in [avg <= 0]. *)
Definition float_of_int_0 : float := S754_zero false.

(** [float()] accepts underscores only between two digits, and drops
    them. *)
Fixpoint strip_underscores (prev : N) (s : str) : option str :=
  match s with
  | [] => if (prev =? 0x5F)%N then None else Some []
  | c :: s' =>
    if (c =? 0x5F)%N then
      if is_digit prev then strip_underscores c s' else None
    else if (prev =? 0x5F)%N && negb (is_digit c) then None
    else (c ::.) <$> strip_underscores c s'
  end.

(** A possibly empty run of digits, accumulated onto [acc]. *)
Fixpoint digits_go (acc cnt : N) (s : str) : N * N * str :=
  match s with
  | c :: s' =>
    if is_digit c then digits_go (10 * acc + (c - 0x30))%N (cnt + 1)%N s'
    else (acc, cnt, s)
  | [] => (acc, cnt, [])
  end.

Definition lower (c : N) : N := if in_range 0x41 0x5A c then (c + 32)%N else c.

(** [number [exponent]] of the float grammar, all of [s]. *)
Definition parse_decimal (neg : bool) (s : str) : option float :=
  let '(i, ni, r1) := digits_go 0%N 0%N s in
  let '(m, nf, r2) :=
    match r1 with
    | 0x2E%N :: r => digits_go i 0%N r
    | _ => (i, 0%N, r1)
    end in
  if (ni + nf =? 0)%N then None
  else
    match r2 with
    | [] => Some (float_of_decimal neg m (- Z.of_N nf))
    | c :: r3 =>
      if (lower c =? 0x65)%N then
        let '(eneg, r4) := take_sign r3 in
        let '(e, ne, r5) := digits_go 0%N 0%N r4 in
        if (ne =? 0)%N || negb (bool_decide (r5 = [])) then None
        else Some (float_of_decimal neg m
                     ((if eneg then - Z.of_N e else Z.of_N e) - Z.of_N nf))
      else None
    end.

(** [float(s)] for a [str]: [None] stands for [ValueError]. *)
Definition float_of_str (s : str) : option float :=
  a ← to_ascii s;
  b ← strip_underscores 0%N a;
  let '(neg, d) := take_sign (rev (skip_spaces (rev (skip_spaces b)))) in
  let l := map lower d in
  if bool_decide (l = u "inf") || bool_decide (l = u "infinity")
  then Some (S754_infinity neg)
  else if bool_decide (l = u "nan") then Some S754_nan
  else parse_decimal neg d.

(** ** [datetime]

    Every [datetime] this program constructs is [datetime(y, m, d)]:
    hour, minute, second and microsecond are 0 and are left out. *)
Record datetime := { year : Z; month : Z; day : Z }.

Definition is_leap (y : Z) : bool :=
  (y mod 4 =? 0) && (negb (y mod 100 =? 0) || (y mod 400 =? 0)).

Definition days_in_month (y m : Z) : Z :=
  if m =? 2 then (if is_leap y then 29 else 28)
  else if (m =? 4) || (m =? 6) || (m =? 9) || (m =? 11) then 30
  else 31.

(** The arguments are read as C [int]s. *)
Definition fits_c_int (z : Z) : bool := (- 2 ^ 31 <=? z) && (z <? 2 ^ 31).

(** [datetime(y, m, d)] *)
Definition new_datetime (y m d : Z) : result datetime :=
  if negb (fits_c_int y && fits_c_int m && fits_c_int d) then Raise OverflowError
  else if negb ((1 <=? y) && (y <=? 9999)) then Raise ValueError
  else if negb ((1 <=? m) && (m <=? 12)) then Raise ValueError
  else if negb ((1 <=? d) && (d <=? days_in_month y m)) then Raise ValueError
  else Return {| year := y; month := m; day := d |}.

(** [a < b] on datetimes. *)
Definition datetime_ltb (a b : datetime) : bool :=
  (year a <? year b)
  || ((year a =? year b)
      && ((month a <? month b)
          || ((month a =? month b) && (day a <? day b)))).

(** ** Built-in functions on lists *)

Section Builtins.
Context {A K : Type}.

Fixpoint max_go (key : A -> K) (ltb : K -> K -> bool) (best : A) (l : list A) : A :=
  match l with
  | [] => best
  | x :: l' => max_go key ltb (if ltb (key best) (key x) then x else best) l'
  end.

(** [max(l, key=key)]: the first item whose key no later item exceeds;
    [None] stands for the [ValueError] on an empty list. *)
Definition max (key : A -> K) (ltb : K -> K -> bool) (l : list A) : option A :=
  match l with
  | [] => None
  | x :: l' => Some (max_go key ltb x l')
  end.

End Builtins.

Fixpoint insert_sorted {A} (key : A -> Z) (x : A) (l : list A) : list A :=
  match l with
  | [] => [x]
  | y :: l' => if key x <=? key y then x :: l else y :: insert_sorted key x l'
  end.

(** [l.sort(key=key)] with integer keys.  The sort is stable, which
    fixes its result; it is computed here by insertion. *)
Definition sort {A} (key : A -> Z) (l : list A) : list A :=
  foldr (insert_sorted key) [] l.

(** [sum(l)] of floats as CPython up to 3.11 computes it: additions
    from the [int] 0, left to right.  CPython from 3.12 on adds floats
    with a compensation for the rounding errors. *)
Definition sum (l : list float) : float := fold_left fadd l float_of_int_0.

(** A float literal of the source text; it is read as [float()] reads
    its argument. *)
Definition float_lit (s : string) : float :=
  default S754_nan (float_of_str (u s)).
Arguments float_lit s%_string : simpl never.

(** ** [dict] with [str] keys, in insertion order *)

Fixpoint dict_get {V} (d : list (str * V)) (key : str) (default : V) : V :=
  match d with
  | [] => default
  | (k, v) :: d' => if bool_decide (k = key) then v else dict_get d' key default
  end.

Definition dict_keys {V} (d : list (str * V)) : list str := d.*1.
Definition dict_values {V} (d : list (str * V)) : list V := d.*2.

(** [l[0]] *)
Definition index0 {A} (l : list A) : result A :=
  match l with
  | x :: _ => Return x
  | [] => Raise IndexError
  end.

End Py.

(* ===================================================================== *)
(** * The csv module                                                      *)
(* ===================================================================== *)

Module Csv.
Import Py.

(** Iterating [io.StringIO(text)]: lines end after each LF and keep it. *)
Fixpoint lines_go (cur : str) (s : str) : list str :=
  match s with
  | [] => match cur with [] => [] | _ => [rev cur] end
  | c :: s' =>
    if (c =? 0x0A)%N then rev (c :: cur) :: lines_go [] s'
    else lines_go (c :: cur) s'
  end.

Definition StringIO (text : str) : list str := lines_go [] text.

(** The parser states of [_csv.c] that the excel dialect reaches (it has
    no escape character). *)
Inductive ParserState :=
| START_RECORD
| START_FIELD
| IN_FIELD
| IN_QUOTED_FIELD
| QUOTE_IN_QUOTED_FIELD
| EAT_CRNL.

#[global] Instance ParserState_eq_dec : EqDecision ParserState.
Proof. solve_decision. Defined.

(** [field] holds the characters of the current field, last first. *)
Record ReaderObj := {
  state : ParserState;
  fields : list str;
  field : str
}.

(** [csv.field_size_limit()] *)
Definition field_limit : N := 131072.

(** The excel dialect: the delimiter is a comma, the quote character a
    double quote, with [doublequote=True], [skipinitialspace=False],
    [strict=False] and [quoting=QUOTE_MINIMAL]. *)
Definition delimiter : N := 0x2C.
Definition quotechar : N := 0x22.

Definition set_state (self : ReaderObj) (s : ParserState) : ReaderObj :=
  {| state := s; fields := fields self; field := field self |}.

Definition parse_save_field (self : ReaderObj) : ReaderObj :=
  {| state := state self;
     fields := fields self ++ [rev (field self)];
     field := [] |}.

Definition parse_add_char (self : ReaderObj) (c : N) : result ReaderObj :=
  if (field_limit <=? N.of_nat (length (field self)))%N then Raise csv_Error
  else Return {| state := state self;
                 fields := fields self;
                 field := c :: field self |}.

Definition is_newline (c : N) : bool := (c =? 0x0A)%N || (c =? 0x0D)%N.

(** One step of the parser; [None] is the end-of-line mark [EOL]. *)
Definition parse_process_char (self : ReaderObj) (c : option N)
  : result ReaderObj :=
  let start_field (self : ReaderObj) : result ReaderObj :=
    match c with
    | None => Return (set_state (parse_save_field self) START_RECORD)
    | Some ch =>
      if is_newline ch then Return (set_state (parse_save_field self) EAT_CRNL)
      else if (ch =? quotechar)%N then Return (set_state self IN_QUOTED_FIELD)
      else if (ch =? delimiter)%N then Return (parse_save_field self)
      else self' ← parse_add_char self ch; Return (set_state self' IN_FIELD)
    end in
  match state self with
  | START_RECORD =>
    match c with
    | None => Return self
    | Some ch =>
      if is_newline ch then Return (set_state self EAT_CRNL)
      else start_field (set_state self START_FIELD)
    end
  | START_FIELD => start_field self
  | IN_FIELD =>
    match c with
    | None => Return (set_state (parse_save_field self) START_RECORD)
    | Some ch =>
      if is_newline ch then Return (set_state (parse_save_field self) EAT_CRNL)
      else if (ch =? delimiter)%N then
        Return (set_state (parse_save_field self) START_FIELD)
      else parse_add_char self ch
    end
  | IN_QUOTED_FIELD =>
    match c with
    | None => Return self
    | Some ch =>
      if (ch =? quotechar)%N then Return (set_state self QUOTE_IN_QUOTED_FIELD)
      else parse_add_char self ch
    end
  | QUOTE_IN_QUOTED_FIELD =>
    match c with
    | None => Return (set_state (parse_save_field self) START_RECORD)
    | Some ch =>
      if (ch =? quotechar)%N then
        self' ← parse_add_char self ch; Return (set_state self' IN_QUOTED_FIELD)
      else if (ch =? delimiter)%N then
        Return (set_state (parse_save_field self) START_FIELD)
      else if is_newline ch then
        Return (set_state (parse_save_field self) EAT_CRNL)
      else self' ← parse_add_char self ch; Return (set_state self' IN_FIELD)
    end
  | EAT_CRNL =>
    match c with
    | None => Return (set_state self START_RECORD)
    | Some ch => if is_newline ch then Return self else Raise csv_Error
    end
  end.

(** The characters of one line, then [EOL]. *)
Fixpoint parse_line (self : ReaderObj) (line : str) : result ReaderObj :=
  match line with
  | [] => parse_process_char self None
  | c :: line' =>
    self' ← parse_process_char self (Some c); parse_line self' line'
  end.

Definition parse_reset : ReaderObj :=
  {| state := START_RECORD; fields := []; field := [] |}.

(** All the records [csv.reader] yields ([Reader_iternext] until the
    input is exhausted).  An error at any record is an error of the
    whole: the program's loop does nothing observable before it. *)
Fixpoint reader_go (self : ReaderObj) (lines : list str) : result (list (list str)) :=
  match lines with
  | [] =>
    if negb (bool_decide (field self = []))
       || bool_decide (state self = IN_QUOTED_FIELD)
    then Return [fields (parse_save_field self)]
    else Return []
  | line :: lines' =>
    self' ← parse_line self line;
    if bool_decide (state self' = START_RECORD)
    then (fields self' ::.) <$> reader_go parse_reset lines'
    else reader_go self' lines'
  end.

Definition reader (lines : list str) : result (list (list str)) :=
  reader_go parse_reset lines.

(** A row of [DictReader]: a [dict] from field name to [str], or to
    [None] ([restval]) where the record is short.  The surplus of a long
    record, which [DictReader] stores under the key [None], is left out:
    no [str] key reaches it. *)
Definition make_row (fieldnames : list str) (row : list str)
  : gmap (list N) (option (list N)) :=
  let d := foldl (λ d kv, <[kv.1 := Some kv.2]> d) ∅ (zip fieldnames row) in
  foldl (λ d key, <[key := None]> d) d (drop (length row) fieldnames).

(** [csv.DictReader(f)], all its rows: the first record names the
    fields, empty records are skipped. *)
Definition DictReader (f : list str)
  : result (list (gmap (list N) (option (list N)))) :=
  records ← reader f;
  match records with
  | [] => Return []
  | fieldnames :: rest =>
    Return (make_row fieldnames <$> filter (λ row, row ≠ []) rest)
  end.

End Csv.

(* ===================================================================== *)
(** * The network                                                         *)
(* ===================================================================== *)

Module Net.
Import Py.

(** What [requests.get(url, ...)] does: it raises, or it returns a
    response with a status code and a decoded body. *)
Inductive outcome :=
| Raises (e : request_exception)
| Response (status_code : Z) (text : str).

(** The state of the world at the time of a fetch. *)
Definition network : Type := list N -> outcome.

(** [r.raise_for_status()] raises for 4xx and 5xx. *)
Definition raise_for_status (status_code : Z) : result unit :=
  if (400 <=? status_code) && (status_code <? 600)
  then Raise (RequestException (HTTPError status_code))
  else Return tt.

End Net.

(* ===================================================================== *)
(** * The program                                                         *)
(* ===================================================================== *)

Module Co2.
Import Py.

(** ** Data sources and constants *)

Definition NOAA_DAILY_CSV : str :=
  u "https://gml.noaa.gov/webdata/ccgg/trends/co2/co2_daily_mlo.csv".
Definition OWID_CO2_CSV : str :=
  u "https://raw.githubusercontent.com/owid/co2-data/master/owid-co2-data.csv".

Definition PPM_TO_GTCO2_IN_ATMOSPHERE : float := float_lit "7.80432".
Definition PREINDUSTRIAL_PPM : float := float_lit "280.0".

Definition BUDGETS_GTCO2 : list (str * float) :=
  [ (u "1.5°C budget (50% chance) ~580 GtCO₂", float_lit "580.0");
    (u "1.5°C budget (66% chance) ~420 GtCO₂", float_lit "420.0") ].

Record Co2Snapshot := { date : datetime; ppm : float }.

Definition _http_get_text (net : Net.network) (url : str) : result str :=
  match net url with
  | Net.Raises e => Raise (RequestException e)
  | Net.Response status_code text =>
    _ ← Net.raise_for_status status_code; Return text
  end.

(** ** The concentration fetcher *)

(** The [try] block of the loop: the four conversions, in order; [None]
    when one raises [ValueError]. *)
Definition noaa_fields (parts : list str) : option (Z * Z * Z * float) :=
  match parts with
  | p0 :: p1 :: p2 :: _ :: p4 :: _ =>
    year ← int p0;
    month ← int p1;
    day ← int p2;
    avg ← float_of_str p4;
    Some (year, month, day, avg)
  | _ => None
  end.

(** The [for] loop over the lines, [rows] being the list built so far. *)
Fixpoint noaa_loop (lines : list str) (rows : list (datetime * float))
  : result (list (datetime * float)) :=
  match lines with
  | [] => Return rows
  | line :: lines' =>
    let line := strip line in
    if bool_decide (line = []) || startswith line (u "#") then noaa_loop lines' rows
    else
      let parts := strip <$> split 0x2C line in
      if (length parts <? 5)%nat then noaa_loop lines' rows
      else
        match noaa_fields parts with
        | None => noaa_loop lines' rows
        | Some (year, month, day, avg) =>
          if fleb avg float_of_int_0 then noaa_loop lines' rows
          else
            dt ← new_datetime year month day;
            noaa_loop lines' (rows ++ [(dt, avg)])
        end
  end.

Definition no_valid_rows : exn :=
  RuntimeError (u "No valid rows found in NOAA daily CO₂ file.").

Definition fetch_latest_noaa_daily_ppm (net : Net.network) : result Co2Snapshot :=
  text ← _http_get_text net NOAA_DAILY_CSV;
  rows ← noaa_loop (splitlines text) [];
  if bool_decide (rows = []) then Raise no_valid_rows
  else
    match max fst datetime_ltb rows with
    | None => Raise ValueError
    | Some (dt, ppm) => Return {| date := dt; ppm := ppm |}
    end.

(** ** The emissions fetcher *)

(** The body of the loop for one row: what it appends, if anything.
    A missing [year] key ([KeyError]) or a [None] value ([TypeError]) is
    caught as any [Exception] is. *)
Definition owid_row (start_year end_year : Z)
    (row : gmap (list N) (option (list N))) : option (Z * float) :=
  if negb (bool_decide (row !! u "country" = Some (Some (u "World")))) then None
  else
    match row !! u "year" with
    | Some (Some y) =>
      match int y with
      | None => None
      | Some year =>
        if (year <? start_year) || (end_year <? year) then None
        else
          match row !! u "co2" with
          | Some (Some co2_mt) =>
            if bool_decide (co2_mt = []) then None
            else
              match float_of_str co2_mt with
              | None => None
              | Some co2_mt_f => Some (year, fdiv co2_mt_f (float_lit "1000.0"))
              end
          | _ => None
          end
      end
    | _ => None
    end.

(** The [for] loop over the reader, [out] being the list built so far. *)
Fixpoint owid_loop (start_year end_year : Z)
    (reader : list (gmap (list N) (option (list N)))) (out : list (Z * float))
  : list (Z * float) :=
  match reader with
  | [] => out
  | row :: reader' =>
    match owid_row start_year end_year row with
    | None => owid_loop start_year end_year reader' out
    | Some item => owid_loop start_year end_year reader' (out ++ [item])
    end
  end.

Definition fetch_world_emissions_owid (net : Net.network) (start_year end_year : Z)
  : result (list (Z * float)) :=
  text ← _http_get_text net OWID_CO2_CSV;
  reader ← Csv.DictReader (Csv.StringIO text);
  let out := owid_loop start_year end_year reader [] in
  Return (sort fst out).

(** ** Derivations *)

Definition gtco2_in_atmosphere_from_ppm (ppm : float) : float :=
  fmul ppm PPM_TO_GTCO2_IN_ATMOSPHERE.

(** ** The application *)

(** The text of a label: the pieces of an f-string, formatted fields
    kept as the value and its format. *)
Inductive piece :=
| Text (s : str)
| FormatFloat (x : float) (format_spec : str)
| FormatInt (z : Z)
| FormatDate (d : datetime).

(** A message on the results queue. *)
Inductive message :=
| ok (snap : Co2Snapshot) (emissions : list (Z * float))
     (start_year end_year : Z) (budget_label : str)
| err (tb : str).

Inductive widget_state := normal | disabled.

(** The state of an [App], and of the world it acts on. *)
Record App := {
  last_snapshot : option Co2Snapshot;
  budget_choice : str;
  budget_start_year : str;
  _q : list message;
  _refresh_in_flight : bool;
  status : list piece;
  refresh_btn : widget_state;
  cards : gmap (list N) (list piece * list piece);
  (** worker threads started and not yet finished, with their arguments *)
  threads : list (Z * Z * str);
  (** the error dialogs shown, title and message *)
  dialogs : list (str * str);
  (** pending [after(100, self._poll_queue)] callbacks *)
  after_poll_queue : nat
}.

Definition set_last_snapshot v (a : App) : App :=
  {| last_snapshot := v; budget_choice := budget_choice a;
     budget_start_year := budget_start_year a; _q := _q a;
     _refresh_in_flight := _refresh_in_flight a; status := status a;
     refresh_btn := refresh_btn a; cards := cards a; threads := threads a;
     dialogs := dialogs a; after_poll_queue := after_poll_queue a |}.
Definition set_budget_choice v (a : App) : App :=
  {| last_snapshot := last_snapshot a; budget_choice := v;
     budget_start_year := budget_start_year a; _q := _q a;
     _refresh_in_flight := _refresh_in_flight a; status := status a;
     refresh_btn := refresh_btn a; cards := cards a; threads := threads a;
     dialogs := dialogs a; after_poll_queue := after_poll_queue a |}.
Definition set_budget_start_year v (a : App) : App :=
  {| last_snapshot := last_snapshot a; budget_choice := budget_choice a;
     budget_start_year := v; _q := _q a;
     _refresh_in_flight := _refresh_in_flight a; status := status a;
     refresh_btn := refresh_btn a; cards := cards a; threads := threads a;
     dialogs := dialogs a; after_poll_queue := after_poll_queue a |}.
Definition set_q v (a : App) : App :=
  {| last_snapshot := last_snapshot a; budget_choice := budget_choice a;
     budget_start_year := budget_start_year a; _q := v;
     _refresh_in_flight := _refresh_in_flight a; status := status a;
     refresh_btn := refresh_btn a; cards := cards a; threads := threads a;
     dialogs := dialogs a; after_poll_queue := after_poll_queue a |}.
Definition set_refresh_in_flight v (a : App) : App :=
  {| last_snapshot := last_snapshot a; budget_choice := budget_choice a;
     budget_start_year := budget_start_year a; _q := _q a;
     _refresh_in_flight := v; status := status a;
     refresh_btn := refresh_btn a; cards := cards a; threads := threads a;
     dialogs := dialogs a; after_poll_queue := after_poll_queue a |}.
Definition set_status_text v (a : App) : App :=
  {| last_snapshot := last_snapshot a; budget_choice := budget_choice a;
     budget_start_year := budget_start_year a; _q := _q a;
     _refresh_in_flight := _refresh_in_flight a; status := v;
     refresh_btn := refresh_btn a; cards := cards a; threads := threads a;
     dialogs := dialogs a; after_poll_queue := after_poll_queue a |}.
Definition set_refresh_btn v (a : App) : App :=
  {| last_snapshot := last_snapshot a; budget_choice := budget_choice a;
     budget_start_year := budget_start_year a; _q := _q a;
     _refresh_in_flight := _refresh_in_flight a; status := status a;
     refresh_btn := v; cards := cards a; threads := threads a;
     dialogs := dialogs a; after_poll_queue := after_poll_queue a |}.
Definition set_cards v (a : App) : App :=
  {| last_snapshot := last_snapshot a; budget_choice := budget_choice a;
     budget_start_year := budget_start_year a; _q := _q a;
     _refresh_in_flight := _refresh_in_flight a; status := status a;
     refresh_btn := refresh_btn a; cards := v; threads := threads a;
     dialogs := dialogs a; after_poll_queue := after_poll_queue a |}.
Definition set_threads v (a : App) : App :=
  {| last_snapshot := last_snapshot a; budget_choice := budget_choice a;
     budget_start_year := budget_start_year a; _q := _q a;
     _refresh_in_flight := _refresh_in_flight a; status := status a;
     refresh_btn := refresh_btn a; cards := cards a; threads := v;
     dialogs := dialogs a; after_poll_queue := after_poll_queue a |}.
Definition set_dialogs v (a : App) : App :=
  {| last_snapshot := last_snapshot a; budget_choice := budget_choice a;
     budget_start_year := budget_start_year a; _q := _q a;
     _refresh_in_flight := _refresh_in_flight a; status := status a;
     refresh_btn := refresh_btn a; cards := cards a; threads := threads a;
     dialogs := v; after_poll_queue := after_poll_queue a |}.
Definition set_after_poll_queue v (a : App) : App :=
  {| last_snapshot := last_snapshot a; budget_choice := budget_choice a;
     budget_start_year := budget_start_year a; _q := _q a;
     _refresh_in_flight := _refresh_in_flight a; status := status a;
     refresh_btn := refresh_btn a; cards := cards a; threads := threads a;
     dialogs := dialogs a; after_poll_queue := v |}.

(** A method of [App]: it may change the state, and it returns or
    raises.  The state it leaves is kept in both cases. *)
Definition M (A : Type) : Type := App -> result A * App.

Definition ret {A} (a : A) : M A := λ self, (Return a, self).
Definition raise {A} (e : exn) : M A := λ self, (Raise e, self).
Definition bindM {A B} (m : M A) (k : A -> M B) : M B := λ self,
  match m self with
  | (Return a, self') => k a self'
  | (Raise e, self') => (Raise e, self')
  end.
Definition modify (f : App -> App) : M unit := λ self, (Return tt, f self).
Definition lift {A} (r : result A) : M A := λ self, (r, self).

Notation "m1 ;; m2" := (bindM m1 (λ _, m2))
  (at level 100, m2 at level 200, right associativity).
Notation "x ⇐ m1 ;; m2" := (bindM m1 (λ x, m2))
  (at level 100, m1 at next level, m2 at level 200, right associativity).

Definition titles : list str :=
  [ u "Latest CO₂ (ppm)";
    u "CO₂ in atmosphere (GtCO₂)";
    u "Above pre-industrial (ppm)";
    u "Estimated budget used (GtCO₂)";
    u "Estimated budget remaining (GtCO₂)" ].

Definition set_status (msg : list piece) : M unit := modify (set_status_text msg).

Definition _set_card (title : str) (main sub : list piece) : M unit := λ self,
  match cards self !! title with
  | None => (Raise (KeyError title), self)
  | Some _ => (Return tt, set_cards (<[title := (main, sub)]> (cards self)) self)
  end.

Definition render (snap : Co2Snapshot) (emissions : list (Z * float))
    (start_year end_year : Z) (budget_label : str) : M unit :=
  let ppm := ppm snap in
  let gt_atm := gtco2_in_atmosphere_from_ppm ppm in
  let above_pre := fsub ppm PREINDUSTRIAL_PPM in
  first ⇐ lift (index0 (dict_values BUDGETS_GTCO2)) ;;
  let budget_gt := dict_get BUDGETS_GTCO2 budget_label first in
  let used_gt :=
    if negb (bool_decide (emissions = [])) then sum emissions.*2
    else float_lit "0.0" in
  let remaining_gt := fsub budget_gt used_gt in
  _set_card (u "Latest CO₂ (ppm)")
    [FormatFloat ppm (u ".2f"); Text (u " ppm")]
    [Text (u "NOAA Mauna Loa daily mean, latest valid date: ");
     FormatDate (date snap)] ;;
  _set_card (u "CO₂ in atmosphere (GtCO₂)")
    [FormatFloat gt_atm (u ",.0f"); Text (u " GtCO₂")]
    [Text (u "Derived: "); FormatFloat ppm (u ".2f"); Text (u " × ");
     FormatFloat PPM_TO_GTCO2_IN_ATMOSPHERE (u ".5f"); Text (u " GtCO₂/ppm")] ;;
  _set_card (u "Above pre-industrial (ppm)")
    [FormatFloat above_pre (u ".2f"); Text (u " ppm")]
    [Text (u "Using "); FormatFloat PREINDUSTRIAL_PPM (u ".0f");
     Text (u " ppm as pre-industrial reference")] ;;
  _set_card (u "Estimated budget used (GtCO₂)")
    [FormatFloat used_gt (u ",.1f"); Text (u " GtCO₂")]
    [Text (u "Sum of annual global emissions from "); FormatInt start_year;
     Text (u "–"); FormatInt end_year; Text (u " (OWID)")] ;;
  _set_card (u "Estimated budget remaining (GtCO₂)")
    [FormatFloat remaining_gt (u ",.1f"); Text (u " GtCO₂")]
    [Text (u "Negative means overshoot (would require net-negative emissions / removals)")].

(** [render] with the built-in [sum] as a parameter.  [render] above
    has the [sum] of CPython up to 3.11, which adds the floats from
    left to right; CPython from 3.12 on adds them with a compensation
    for the rounding errors, and gives another float on some lists.
    The program does not say which interpreter runs it. *)
Definition render_with (builtin_sum : list float -> float)
    (snap : Co2Snapshot) (emissions : list (Z * float))
    (start_year end_year : Z) (budget_label : str) : M unit :=
  let ppm := ppm snap in
  let gt_atm := gtco2_in_atmosphere_from_ppm ppm in
  let above_pre := fsub ppm PREINDUSTRIAL_PPM in
  first ⇐ lift (index0 (dict_values BUDGETS_GTCO2)) ;;
  let budget_gt := dict_get BUDGETS_GTCO2 budget_label first in
  let used_gt :=
    if negb (bool_decide (emissions = [])) then builtin_sum emissions.*2
    else float_lit "0.0" in
  let remaining_gt := fsub budget_gt used_gt in
  _set_card (u "Latest CO₂ (ppm)")
    [FormatFloat ppm (u ".2f"); Text (u " ppm")]
    [Text (u "NOAA Mauna Loa daily mean, latest valid date: ");
     FormatDate (date snap)] ;;
  _set_card (u "CO₂ in atmosphere (GtCO₂)")
    [FormatFloat gt_atm (u ",.0f"); Text (u " GtCO₂")]
    [Text (u "Derived: "); FormatFloat ppm (u ".2f"); Text (u " × ");
     FormatFloat PPM_TO_GTCO2_IN_ATMOSPHERE (u ".5f"); Text (u " GtCO₂/ppm")] ;;
  _set_card (u "Above pre-industrial (ppm)")
    [FormatFloat above_pre (u ".2f"); Text (u " ppm")]
    [Text (u "Using "); FormatFloat PREINDUSTRIAL_PPM (u ".0f");
     Text (u " ppm as pre-industrial reference")] ;;
  _set_card (u "Estimated budget used (GtCO₂)")
    [FormatFloat used_gt (u ",.1f"); Text (u " GtCO₂")]
    [Text (u "Sum of annual global emissions from "); FormatInt start_year;
     Text (u "–"); FormatInt end_year; Text (u " (OWID)")] ;;
  _set_card (u "Estimated budget remaining (GtCO₂)")
    [FormatFloat remaining_gt (u ",.1f"); Text (u " GtCO₂")]
    [Text (u "Negative means overshoot (would require net-negative emissions / removals)")].

(** [nowy] is [datetime.now().year] as read by this call. *)
Definition _parse_start_year_main_thread (nowy : Z) : M Z := λ self,
  let raw := strip (budget_start_year self) in
  let y := match int raw with Some y => y | None => 2020 end in
  let y := if y <? 1990 then 1990 else y in
  let y := if nowy <? y then nowy else y in
  (Return y, self).

(** [nowy1] and [nowy2] are the two readings of [datetime.now().year],
    in the order the method takes them. *)
Definition refresh_async (nowy1 nowy2 : Z) : M unit := λ self,
  if _refresh_in_flight self then (Return tt, self)
  else
    (modify (set_refresh_in_flight true) ;;
     modify (set_refresh_btn disabled) ;;
     start_year ⇐ _parse_start_year_main_thread nowy1 ;;
     budget_label ⇐ (λ self, (Return (budget_choice self), self)) ;;
     let end_year := nowy2 in
     set_status [Text (u "Refreshing…")] ;;
     modify (λ self,
       set_threads (threads self ++ [(start_year, end_year, budget_label)]) self))
    self.

Section Worker.
(** [traceback.format_exc()] for the exception being handled. *)
Variable format_exc : exn -> str.

(** The worker thread, which touches nothing but the queue: [q] is the
    queue when it puts, the result is the queue after. *)
Definition _refresh_worker (net : Net.network)
    (start_year end_year : Z) (budget_label : str) (q : list message)
  : list message :=
  match
    snap ← fetch_latest_noaa_daily_ppm net;
    emissions ← fetch_world_emissions_owid net start_year end_year;
    Return (snap, emissions)
  with
  | Return (snap, emissions) =>
    q ++ [ok snap emissions start_year end_year budget_label]
  | Raise e => q ++ [err (format_exc e)]
  end.

End Worker.

Definition after_100_poll_queue : M unit :=
  modify (λ self, set_after_poll_queue (S (after_poll_queue self)) self).

(** [messagebox.showerror(title, message)], the dialog shown and
    closed: the dialog is recorded.  The state while it is open is that
    of [session_step] below. *)
Definition showerror (title message : str) : M unit :=
  modify (λ self, set_dialogs (dialogs self ++ [(title, message)]) self).

(** [now] is [datetime.now().strftime('%Y-%m-%d %H:%M:%S')] as read by
    this call. *)
Definition _poll_queue (now : str) : M unit := λ self,
  match _q self with
  | [] => after_100_poll_queue self
  | msg :: q' =>
    (modify (set_q q') ;;
     match msg with
     | ok snap emissions start_year end_year budget_label =>
       modify (set_last_snapshot (Some snap)) ;;
       render snap emissions start_year end_year budget_label ;;
       set_status [Text (u "Updated "); Text now]
     | err tb =>
       set_status [Text (u "Error")] ;;
       showerror (u "Refresh failed") tb
     end ;;
     modify (set_refresh_in_flight false) ;;
     modify (set_refresh_btn normal) ;;
     after_100_poll_queue)
    self
  end.

(** The state [__init__] builds before its last two statements. *)
Definition new_App : App :=
  {| last_snapshot := None;
     budget_choice := default [] (head (dict_keys BUDGETS_GTCO2));
     budget_start_year := u "2020";
     _q := [];
     _refresh_in_flight := false;
     status := [Text (u "Ready")];
     refresh_btn := normal;
     cards := list_to_map ((λ title, (title, ([Text (u "—")], [Text []]))) <$> titles);
     threads := [];
     dialogs := [];
     after_poll_queue := 0 |}.

(** [App()] *)
Definition __init__ (nowy1 nowy2 : Z) : App :=
  snd ((after_100_poll_queue ;; refresh_async nowy1 nowy2) new_App).

(** What can happen to a running application. *)
Inductive event :=
(** [refresh_async] is called (the button's command) *)
| Refresh (nowy1 nowy2 : Z)
(** Tk runs a pending [_poll_queue] callback *)
| Poll (now : str)
(** the [i]th running worker finishes, having seen the network [net] *)
| WorkerDone (i : nat) (net : Net.network)
(** the user edits the budget selector or the start year box *)
| SetBudgetChoice (s : str)
| SetBudgetStartYear (s : str).

Section Step.
Variable format_exc : exn -> str.

(** One event, run to the end of its callback: the state is taken when
    the callback has returned, an error dialog it showed closed.  An
    exception escaping a Tk callback is reported by Tk and goes no
    further: the state is as the callback left it. *)
Definition step (self : App) (ev : event) : App :=
  match ev with
  | Refresh nowy1 nowy2 => snd (refresh_async nowy1 nowy2 self)
  | Poll now =>
    match after_poll_queue self with
    | O => self
    | S n => snd (_poll_queue now (set_after_poll_queue n self))
    end
  | WorkerDone i net =>
    match threads self !! i with
    | None => self
    | Some (start_year, end_year, budget_label) =>
      set_q (_refresh_worker format_exc net start_year end_year budget_label (_q self))
        (set_threads (delete i (threads self)) self)
    end
  | SetBudgetChoice s => set_budget_choice s self
  | SetBudgetStartYear s => set_budget_start_year s self
  end.

(** The states an application can be in when none of its callbacks is
    running. *)
Inductive reachable : App -> Prop :=
| reachable_init nowy1 nowy2 : reachable (__init__ nowy1 nowy2)
| reachable_step self ev : reachable self -> reachable (step self ev).

End Step.

(** ** The error dialog

    [messagebox.showerror] is modal: it returns when the user closes
    the dialog, and Tk's event loop runs until then.  A [_poll_queue]
    that calls it is suspended at the call, the statements after the
    call still to run. *)

(** [_poll_queue] up to its call of [messagebox.showerror], or to its
    end when it does not call it; [true] says that it stands at the
    call, the dialog open. *)
Definition _poll_queue_to_showerror (now : str) : M bool := λ self,
  match _q self with
  | [] => (after_100_poll_queue ;; ret false) self
  | msg :: q' =>
    (modify (set_q q') ;;
     match msg with
     | ok snap emissions start_year end_year budget_label =>
       modify (set_last_snapshot (Some snap)) ;;
       render snap emissions start_year end_year budget_label ;;
       set_status [Text (u "Updated "); Text now] ;;
       modify (set_refresh_in_flight false) ;;
       modify (set_refresh_btn normal) ;;
       after_100_poll_queue ;;
       ret false
     | err tb =>
       set_status [Text (u "Error")] ;;
       showerror (u "Refresh failed") tb ;;
       ret true
     end)
    self
  end.

(** The statements of [_poll_queue] after the call, which run when the
    dialog is closed. *)
Definition _poll_queue_from_showerror : M unit :=
  modify (set_refresh_in_flight false) ;;
  modify (set_refresh_btn normal) ;;
  after_100_poll_queue.

(** A running application: its state, and the number of [_poll_queue]
    calls suspended in [messagebox.showerror], that is, of error
    dialogs open. *)
Record Session := { app_state : App; open_dialogs : nat }.

Inductive session_event :=
(** an event of the application; the event loop runs while a dialog is
    open, so that it may occur then too *)
| AppEvent (ev : event)
(** the user closes the error dialog opened last *)
| CloseDialog.

Section SessionStep.
Variable format_exc : exn -> str.

(** One event, a poll running up to the dialog when it opens one. *)
Definition session_step (s : Session) (ev : session_event) : Session :=
  match ev with
  | AppEvent (Poll now) =>
    match after_poll_queue (app_state s) with
    | O => s
    | S n =>
      match _poll_queue_to_showerror now (set_after_poll_queue n (app_state s)) with
      | (Return true, self') =>
        {| app_state := self'; open_dialogs := S (open_dialogs s) |}
      | (_, self') => {| app_state := self'; open_dialogs := open_dialogs s |}
      end
    end
  | AppEvent ev =>
    {| app_state := step format_exc (app_state s) ev; open_dialogs := open_dialogs s |}
  | CloseDialog =>
    match open_dialogs s with
    | O => s
    | S n =>
      {| app_state := snd (_poll_queue_from_showerror (app_state s)); open_dialogs := n |}
    end
  end.

(** The states a running application can be in, those with the error
    dialog open among them. *)
Inductive session_reachable : Session -> Prop :=
| session_init nowy1 nowy2 :
    session_reachable {| app_state := __init__ nowy1 nowy2; open_dialogs := 0 |}
| session_next s ev :
    session_reachable s -> session_reachable (session_step s ev).

End SessionStep.

End Co2.

(* ===================================================================== *)
(** * Vocabulary of the statements                                        *)
(* ===================================================================== *)

Module Spec.
Import Py Co2.

(** The five cards exist, as [__init__] creates them. *)
Definition cards_ok (self : App) : Prop :=
  ∀ title, title ∈ titles → is_Some (cards self !! title).

(** The main label of a card. *)
Definition card_value (self : App) (title : str) : option (list piece) :=
  fst <$> cards self !! title.

(** *** The concentration file *)

(** A line that passes every filter of the concentration fetcher, with
    the four values read from it: it is not blank and no comment, it has
    five fields or more, fields 0, 1 and 2 read as integers and field 4
    as a float, and that float is not [<= 0]. *)
Definition noaa_record (line : str) (year month day : Z) (avg : float) : Prop :=
  strip line ≠ []
  ∧ startswith (strip line) (u "#") = false
  ∧ ∃ p0 p1 p2 p3 p4 rest,
      strip <$> split 0x2C (strip line) = p0 :: p1 :: p2 :: p3 :: p4 :: rest
      ∧ int p0 = Some year ∧ int p1 = Some month ∧ int p2 = Some day
      ∧ float_of_str p4 = Some avg
      ∧ fleb avg float_of_int_0 = false.

(** The same as a function of the line. *)
Definition noaa_line (line : str) : option (Z * Z * Z * float) :=
  let line := strip line in
  if bool_decide (line = []) || startswith line (u "#") then None
  else
    '(year, month, day, avg) ← noaa_fields (strip <$> split 0x2C line);
    if fleb avg float_of_int_0 then None else Some (year, month, day, avg).

(** The records of a file whose dates all exist, in the order of the
    file. *)
Definition noaa_dated (line : str) : option (datetime * float) :=
  '(year, month, day, avg) ← noaa_line line;
  match new_datetime year month day with
  | Return dt => Some (dt, avg)
  | Raise _ => None
  end.

(** *** The emissions file *)

(** A row the emissions fetcher keeps, with its year and its emissions
    in million tonnes: its [country] is World, its [year] reads as an
    integer of the range, its [co2] reads as a float. *)
Definition world_row (start_year end_year : Z)
    (row : gmap (list N) (option (list N))) (year : Z) (co2_mt : float) : Prop :=
  row !! u "country" = Some (Some (u "World"))
  ∧ ∃ y c,
      row !! u "year" = Some (Some y) ∧ int y = Some year
      ∧ start_year ≤ year ≤ end_year
      ∧ row !! u "co2" = Some (Some c) ∧ float_of_str c = Some co2_mt.

(** The item of the series a kept row gives. *)
Definition world_item (start_year end_year : Z)
    (row : gmap (list N) (option (list N))) (item : Z * float) : Prop :=
  ∃ co2_mt,
    world_row start_year end_year row item.1 co2_mt
    ∧ item.2 = fdiv co2_mt (float_lit "1000.0").

(** [selects R l l']: [l'] holds, in the order of [l], one [R]-image of
    each element of [l] that has one, and nothing else. *)
Inductive selects {A B} (R : A -> B -> Prop) : list A -> list B -> Prop :=
| selects_nil : selects R [] []
| selects_keep a b l l' :
    R a b → selects R l l' → selects R (a :: l) (b :: l')
| selects_skip a l l' :
    (∀ b, ¬ R a b) → selects R l l' → selects R (a :: l) l'.

(** Ascending by year, and strictly so. *)
Definition ascending (series : list (Z * float)) : Prop :=
  StronglySorted (λ a b, a.1 ≤ b.1) series.
Definition strictly_ascending (series : list (Z * float)) : Prop :=
  StronglySorted (λ a b, a.1 < b.1) series.

(** The items of one year, in their order. *)
Definition of_year (year : Z) (series : list (Z * float)) : list (Z * float) :=
  filter (λ item, item.1 = year) series.

(** A network that answers every request with this body, status 200. *)
Definition serving (text : str) : Net.network := λ _, Net.Response 200 text.

(** *** Sample inputs *)

(** A concentration file: a comment, two records, and a line whose
    mean is the missing-value mark. *)
Definition sample_noaa : str := u "# daily means
2024,1,4,2024.0096,420.5
2024,1,5,2024.0123,420.7
2024,1,3,2024.0068,-999.99".

(** A concentration file whose second record is of month 13, and the
    same file with that month field unreadable. *)
Definition sample_noaa_month_13 : str := u "2024,1,5,2024.0123,420.7
2024,13,1,2024.9999,421.0".
Definition sample_noaa_month_x : str := u "2024,1,5,2024.0123,420.7
2024,x,1,2024.9999,421.0".

(** A concentration file whose second record is of 30 February. *)
Definition sample_noaa_feb_30 : str := u "2024,1,5,2024.0123,420.7
2023,2,30,2023.1630,419.9".

(** An emissions file with a header and no row for World. *)
Definition sample_owid_no_world : str := u "country,year,iso_code,co2
France,2021,FRA,300.5
".

(** An emissions file: rows of World out of order, a row of another
    country, rows whose emissions are unreadable or missing, a row out
    of the range, and a short row. *)
Definition sample_owid : str := u "country,year,iso_code,co2
World,2019,,37000.5
World,2021,,37500
France,2021,FRA,300
World,2020,,35000
World,2022,,abc
World,2023,,
World,2024
World,2024,,38000
".

(** The rows [csv.DictReader] reads from it. *)
Definition sample_owid_rows : list (gmap (list N) (option (list N))) :=
  match Csv.DictReader (Csv.StringIO sample_owid) with
  | Return rows => rows
  | Raise _ => []
  end.

(** The one message a worker puts, [format_exc] being
    [traceback.format_exc]. *)
Definition worker_message (format_exc : exn -> str) (net : Net.network)
    (start_year end_year : Z) (budget_label : str) : message :=
  match fetch_latest_noaa_daily_ppm net with
  | Raise e => err (format_exc e)
  | Return snap =>
    match fetch_world_emissions_owid net start_year end_year with
    | Raise e => err (format_exc e)
    | Return emissions => ok snap emissions start_year end_year budget_label
    end
  end.

(** *** Floats *)

(** A float with the sign [sx] that is not a zero and not NaN. *)
Definition signed (sx : bool) (x : spec_float) : Prop :=
  x = S754_infinity sx ∨ ∃ m e, x = S754_finite sx m e.

(** A binary64 value: zero, infinity, NaN, or a finite float whose
    mantissa and exponent are in canonical position. *)
Definition valid (x : float) : Prop := valid_binary prec emax x = true.

(** An emissions series that overshoots both budgets. *)
Definition sample_emissions : list (Z * float) :=
  [ (2020, float_lit "300.5"); (2021, float_lit "310.25") ].

Definition sample_snapshot : Co2Snapshot :=
  {| date := {| year := 2024; month := 1; day := 5 |}; ppm := float_lit "420.7" |}.

(** A concentration file whose latest record has a mean that reads as
    NaN. *)
Definition sample_noaa_nan : str := u "2024,1,5,2024.0123,420.7
2024,1,6,2024.0150,nan".

(** The loop of the concentration fetcher run on the records alone,
    each with the four values read from it. *)
Fixpoint noaa_records_loop (records : list (Z * Z * Z * float))
    (rows : list (datetime * float)) : result (list (datetime * float)) :=
  match records with
  | [] => Return rows
  | (year, month, day, avg) :: records' =>
    dt ← new_datetime year month day;
    noaa_records_loop records' (rows ++ [(dt, avg)])
  end.

(** The same file with comments, a blank line, a short line, a line
    with an unreadable day and a line with a mean of zero added. *)
Definition sample_noaa_noisy : str := u "# header
# daily means

2024,1,4,2024.0096,420.5
2024,1,2
2024,1,x,2024.0041,420.1
2024,1,5,2024.0123,420.7
2024,1,1,2024.0014,0
2024,1,3,2024.0068,-999.99".

(** *** The running application *)

(** The data of an [ok] message are what the two fetchers return on one
    behaviour of the network, for the years of the message. *)
Definition message_fetched (m : message) : Prop :=
  match m with
  | ok snap emissions start_year end_year _ =>
    ∃ net,
      fetch_latest_noaa_daily_ppm net = Return snap
      ∧ fetch_world_emissions_owid net start_year end_year = Return emissions
  | err _ => True
  end.

(** The poll loop and the controls: one poll is pending; while a
    refresh is in flight the button is disabled and the status says so;
    otherwise the button is enabled and the status is that of the last
    result. *)
Definition controls_inv (self : App) : Prop :=
  after_poll_queue self = 1%nat
  ∧ if _refresh_in_flight self
    then refresh_btn self = disabled
         ∧ status self = [Text (u "Refreshing…")]
    else refresh_btn self = normal
         ∧ (status self = [Text (u "Error")]
            ∨ ∃ now, status self = [Text (u "Updated "); Text now]).

(** The display: the undrained results come from the fetchers, and the
    cards are as [__init__] made them until a snapshot is kept, and
    from then on as [render] makes them from that snapshot and the
    other data of one result of the fetchers. *)
Definition display_inv (self : App) : Prop :=
  Forall message_fetched (_q self)
  ∧ match last_snapshot self with
    | None => cards self = cards new_App
    | Some snap =>
      ∃ emissions start_year end_year budget_label,
        cards self
        = cards (render snap emissions start_year end_year budget_label new_App).2
        ∧ message_fetched (ok snap emissions start_year end_year budget_label)
    end.

(** A network that serves the two sample files. *)
Definition sample_network : Net.network := λ url,
  if bool_decide (url = NOAA_DAILY_CSV) then Net.Response 200 sample_noaa
  else Net.Response 200 sample_owid.

Definition sample_format_exc : exn -> str := λ _, u "Traceback (most recent call last)".

(** An application that has displayed a first result: it started, its
    worker finished, and a poll drained the result. *)
Definition sample_App : App :=
  step sample_format_exc
    (step sample_format_exc (__init__ 2024 2024) (WorkerDone 0 sample_network))
    (Poll (u "2024-01-06 12:00:00")).

(** The series the emissions fetcher reads from the sample file for
    2020 to 2024. *)
Definition sample_series : list (Z * float) :=
  [ (2020, fdiv (float_lit "35000") (float_lit "1000.0"));
    (2021, fdiv (float_lit "37500") (float_lit "1000.0"));
    (2024, fdiv (float_lit "38000") (float_lit "1000.0")) ].

(** A network on which every request times out. *)
Definition sample_network_down : Net.network := λ _, Net.Raises Timeout.

(** An emissions file without a [year] column. *)
Definition sample_owid_no_year : str := u "country,co2
World,37000.5
".

(** The records of the sample concentration file in another order. *)
Definition sample_noaa_reordered : str := u "2024,1,5,2024.0123,420.7
2024,1,3,2024.0068,-999.99
2024,1,4,2024.0096,420.5".

(** The rows of the sample emissions file in another order. *)
Definition sample_owid_reordered : str := u "country,year,iso_code,co2
World,2024,,38000
World,2020,,35000
World,2021,,37500
".

(** The rows [csv.DictReader] reads from it. *)
Definition sample_owid_reordered_rows : list (gmap (list N) (option (list N))) :=
  match Csv.DictReader (Csv.StringIO sample_owid_reordered) with
  | Return rows => rows
  | Raise _ => []
  end.

(** A network that answers every request with this status and body. *)
Definition serving_status (status_code : Z) (text : str) : Net.network :=
  λ _, Net.Response status_code text.

(** An emissions file without a [year] column, with a bare carriage
    return inside a row. *)
Definition sample_owid_bare_cr : str := u "country,co2
World,37" ++ [0x0D%N] ++ u "000.5
".

(** *** Proof steps *)

(** The side condition of the lemma on [_set_card] for the [n]th title,
    after some cards were set. *)
Ltac side n :=
  cbn [cards set_cards];
  repeat (apply lookup_insert_is_Some'; right);
  match goal with
  | Hok : cards_ok _, Ht : ∀ i t, titles !! i = Some t → _ |- _ =>
    apply Hok, (Ht n); reflexivity
  end.

(** Two distinct string literals. *)
Ltac str_ne := apply (bool_decide_eq_false_1 _); vm_compute; reflexivity.

(** Reads one card off the map [render] leaves. *)
Ltac card_lookup :=
  unfold card_value; cbn [cards set_cards];
  repeat (rewrite lookup_insert_ne by str_ne);
  rewrite lookup_insert_eq; reflexivity.

(** The invariant of the refresh coordinator: the cards exist, and the
    running workers and the undrained results together are one when a
    refresh is in flight and none otherwise. *)
Definition coordinator_inv (self : App) : Prop :=
  cards_ok self
  ∧ (length (threads self) + length (_q self))%nat
    = (if _refresh_in_flight self then 1 else 0)%nat.

(** The invariant of a running application.  With no dialog open it is
    that of the coordinator and of the controls.  With the error dialog
    open, the poll that opened it has taken the result off the queue
    and set the status, and has not yet cleared the flag, enabled the
    button or scheduled the next poll.  No two dialogs are open. *)
Definition session_inv (s : Session) : Prop :=
  match open_dialogs s with
  | O => coordinator_inv (app_state s) ∧ controls_inv (app_state s)
  | S O =>
    cards_ok (app_state s)
    ∧ after_poll_queue (app_state s) = 0%nat
    ∧ _refresh_in_flight (app_state s) = true
    ∧ refresh_btn (app_state s) = disabled
    ∧ status (app_state s) = [Text (u "Error")]
    ∧ threads (app_state s) = []
    ∧ _q (app_state s) = []
  | S (S _) => False
  end.

(** A running application whose first refresh failed, the error dialog
    open. *)
Definition sample_Session_dialog : Session :=
  session_step sample_format_exc
    (session_step sample_format_exc
       {| app_state := __init__ 2024 2024; open_dialogs := 0 |}
       (AppEvent (WorkerDone 0 sample_network_down)))
    (AppEvent (Poll (u "2024-01-06 12:00:00"))).

End Spec.

(* ===================================================================== *)
(** * Theorems                                                            *)
(* ===================================================================== *)

Module Theory.
Import Py Co2 Spec.

(** ** Rendering *)

Lemma titles_NoDup : NoDup titles.
Proof. apply (bool_decide_unpack _). vm_compute. exact I. Qed.

Lemma set_card_ok title main sub self :
  is_Some (cards self !! title) →
  _set_card title main sub self
  = (Return tt, set_cards (<[title := (main, sub)]> (cards self)) self).
Proof. intros [c Hc]. unfold _set_card. by rewrite Hc. Qed.

Lemma cards_ok_insert title c self :
  cards_ok self → cards_ok (set_cards (<[title := c]> (cards self)) self).
Proof.
  intros Hok t Ht. cbn. destruct (decide (title = t)) as [->|Hne].
  - rewrite lookup_insert_eq. eauto.
  - rewrite lookup_insert_ne by done. by apply Hok.
Qed.

Lemma cards_ok_new_App : cards_ok new_App.
Proof.
  intros t Ht. unfold titles in Ht.
  repeat (apply elem_of_cons in Ht as [->|Ht]; [vm_compute; eauto|]).
  by apply elem_of_nil in Ht.
Qed.

(** What [render] leaves in the five cards. *)
Lemma render_ok snap emissions start_year end_year budget_label self :
  cards_ok self →
  let ppm := ppm snap in
  let budget_gt := dict_get BUDGETS_GTCO2 budget_label (float_lit "580.0") in
  let used_gt :=
    if negb (bool_decide (emissions = [])) then sum emissions.*2
    else float_lit "0.0" in
  render snap emissions start_year end_year budget_label self
  = (Return tt,
     set_cards
       (<[u "Estimated budget remaining (GtCO₂)" :=
            ([FormatFloat (fsub budget_gt used_gt) (u ",.1f"); Text (u " GtCO₂")],
             [Text (u "Negative means overshoot (would require net-negative emissions / removals)")])]>
       (<[u "Estimated budget used (GtCO₂)" :=
            ([FormatFloat used_gt (u ",.1f"); Text (u " GtCO₂")],
             [Text (u "Sum of annual global emissions from "); FormatInt start_year;
              Text (u "–"); FormatInt end_year; Text (u " (OWID)")])]>
       (<[u "Above pre-industrial (ppm)" :=
            ([FormatFloat (fsub ppm PREINDUSTRIAL_PPM) (u ".2f"); Text (u " ppm")],
             [Text (u "Using "); FormatFloat PREINDUSTRIAL_PPM (u ".0f");
              Text (u " ppm as pre-industrial reference")])]>
       (<[u "CO₂ in atmosphere (GtCO₂)" :=
            ([FormatFloat (gtco2_in_atmosphere_from_ppm ppm) (u ",.0f"); Text (u " GtCO₂")],
             [Text (u "Derived: "); FormatFloat ppm (u ".2f"); Text (u " × ");
              FormatFloat PPM_TO_GTCO2_IN_ATMOSPHERE (u ".5f"); Text (u " GtCO₂/ppm")])]>
       (<[u "Latest CO₂ (ppm)" :=
            ([FormatFloat ppm (u ".2f"); Text (u " ppm")],
             [Text (u "NOAA Mauna Loa daily mean, latest valid date: ");
              FormatDate (date snap)])]>
          (cards self)))))) self).
Proof.
  intros Hok ppm budget_gt used_gt.
  assert (Ht : ∀ i t, titles !! i = Some t → t ∈ titles)
    by (intros i t; apply list_elem_of_lookup_2).
  unfold render.
  change (index0 (dict_values BUDGETS_GTCO2)) with (Return (float_lit "580.0")).
  unfold bindM at 1; unfold lift at 1.
  unfold bindM at 1. rewrite set_card_ok by side 0%nat.
  unfold bindM at 1. rewrite set_card_ok by side 1%nat.
  unfold bindM at 1. rewrite set_card_ok by side 2%nat.
  unfold bindM at 1. rewrite set_card_ok by side 3%nat.
  rewrite set_card_ok by side 4%nat.
  reflexivity.
Qed.

Lemma dict_get_elem {V} (d : list (str * V)) key v default :
  NoDup d.*1 → (key, v) ∈ d → dict_get d key default = v.
Proof.
  induction d as [|[k w] d IH]; intros Hnd Hin; [by apply elem_of_nil in Hin|].
  apply NoDup_cons in Hnd as [Hk Hnd]. cbn.
  apply elem_of_cons in Hin as [[= -> ->]|Hin].
  - by rewrite bool_decide_eq_true_2.
  - rewrite bool_decide_eq_false_2; [by apply IH|].
    intros ->. apply Hk. apply list_elem_of_fmap. by exists (key, v).
Qed.

Lemma dict_get_default {V} (d : list (str * V)) key default :
  key ∉ d.*1 → dict_get d key default = default.
Proof.
  induction d as [|[k w] d IH]; intros Hk; [done|]. cbn in *.
  apply not_elem_of_cons in Hk as [Hne Hk].
  rewrite bool_decide_eq_false_2 by done. by apply IH.
Qed.

(** C8: [gtco2_in_atmosphere_from_ppm ppm] is [ppm] times the float
    7.80432, on every float; and the card of the excess over the
    pre-industrial level shows [ppm] minus the float 280.0, the card of
    the atmospheric mass showing that product. *)
Theorem C8_mass_and_baseline :
  (∀ ppm : float,
     gtco2_in_atmosphere_from_ppm ppm = fmul ppm (float_lit "7.80432"))
  ∧ (∀ snap emissions start_year end_year budget_label self,
       cards_ok self →
       ∃ self',
         render snap emissions start_year end_year budget_label self
         = (Return tt, self')
         ∧ card_value self' (u "CO₂ in atmosphere (GtCO₂)")
           = Some [FormatFloat (fmul (ppm snap) (float_lit "7.80432")) (u ",.0f");
                   Text (u " GtCO₂")]
         ∧ card_value self' (u "Above pre-industrial (ppm)")
           = Some [FormatFloat (fsub (ppm snap) (float_lit "280.0")) (u ".2f");
                   Text (u " ppm")]).
Proof.
  split; [reflexivity|].
  intros snap emissions start_year end_year budget_label self Hok.
  eexists. split; [by apply render_ok|]. split; card_lookup.
Qed.

Lemma C8_mass_and_baseline_witness :
  ∃ self',
    render {| date := {| year := 2024; month := 1; day := 5 |};
              ppm := float_lit "420.7" |} [] 2020 2024 [] new_App
    = (Return tt, self')
    ∧ card_value self' (u "CO₂ in atmosphere (GtCO₂)")
      = Some [FormatFloat (fmul (float_lit "420.7") (float_lit "7.80432")) (u ",.0f");
              Text (u " GtCO₂")]
    ∧ card_value self' (u "Above pre-industrial (ppm)")
      = Some [FormatFloat (fsub (float_lit "420.7") (float_lit "280.0")) (u ".2f");
              Text (u " ppm")].
Proof.
  exact (proj2 C8_mass_and_baseline
           {| date := {| year := 2024; month := 1; day := 5 |};
              ppm := float_lit "420.7" |} [] 2020 2024 [] new_App
           cards_ok_new_App).
Defined.

(** C9: the budget that [render] subtracts from is the value the table
    [BUDGETS_GTCO2] gives the label when the label is one of its keys,
    and the value of the table's first entry for any other label;
    [render] returns normally in both cases. *)
Theorem C9_budget_lookup :
  ∀ snap emissions start_year end_year budget_label self,
    cards_ok self →
    ∃ budget_gt used_gt self',
      render snap emissions start_year end_year budget_label self
      = (Return tt, self')
      ∧ card_value self' (u "Estimated budget remaining (GtCO₂)")
        = Some [FormatFloat (fsub budget_gt used_gt) (u ",.1f"); Text (u " GtCO₂")]
      ∧ card_value self' (u "Estimated budget used (GtCO₂)")
        = Some [FormatFloat used_gt (u ",.1f"); Text (u " GtCO₂")]
      ∧ (∀ v, (budget_label, v) ∈ BUDGETS_GTCO2 → budget_gt = v)
      ∧ (budget_label ∉ dict_keys BUDGETS_GTCO2 →
         head (dict_values BUDGETS_GTCO2) = Some budget_gt).
Proof.
  intros snap emissions start_year end_year budget_label self Hok.
  eexists _, _, _. split; [by apply render_ok|].
  split; [card_lookup|]. split; [card_lookup|]. split.
  - intros v Hv. apply dict_get_elem; [|done].
    apply (bool_decide_unpack _). vm_compute. exact I.
  - intros Hk. by rewrite dict_get_default.
Qed.

Lemma C9_budget_lookup_witness :
  ∃ budget_gt used_gt self',
    render {| date := {| year := 2024; month := 1; day := 5 |};
              ppm := float_lit "420.7" |} [] 2020 2024 (u "no such budget") new_App
    = (Return tt, self')
    ∧ card_value self' (u "Estimated budget remaining (GtCO₂)")
      = Some [FormatFloat (fsub budget_gt used_gt) (u ",.1f"); Text (u " GtCO₂")]
    ∧ card_value self' (u "Estimated budget used (GtCO₂)")
      = Some [FormatFloat used_gt (u ",.1f"); Text (u " GtCO₂")]
    ∧ (∀ v, (u "no such budget", v) ∈ BUDGETS_GTCO2 → budget_gt = v)
    ∧ (u "no such budget" ∉ dict_keys BUDGETS_GTCO2 →
       head (dict_values BUDGETS_GTCO2) = Some budget_gt).
Proof.
  exact (C9_budget_lookup
           {| date := {| year := 2024; month := 1; day := 5 |};
              ppm := float_lit "420.7" |} [] 2020 2024 (u "no such budget") new_App
           cards_ok_new_App).
Defined.

(** ** Transport *)

Lemma http_get_text_raises net url e :
  net url = Net.Raises e → _http_get_text net url = Raise (RequestException e).
Proof. intros H. unfold _http_get_text. by rewrite H. Qed.

Lemma http_get_text_status net url status_code text :
  net url = Net.Response status_code text →
  400 ≤ status_code < 600 →
  _http_get_text net url = Raise (RequestException (HTTPError status_code)).
Proof.
  intros H Hs. unfold _http_get_text, Net.raise_for_status. rewrite H.
  rewrite andb_true_intro; [done|]. split; [apply Z.leb_le|apply Z.ltb_lt]; lia.
Qed.

Lemma http_get_text_ok net url status_code text :
  net url = Net.Response status_code text →
  ¬ 400 ≤ status_code < 600 →
  _http_get_text net url = Return text.
Proof.
  intros H Hs. unfold _http_get_text, Net.raise_for_status. rewrite H.
  destruct (400 <=? status_code) eqn:H1; [|done].
  destruct (status_code <? 600) eqn:H2; [|done].
  apply Z.leb_le in H1. apply Z.ltb_lt in H2. lia.
Qed.

(** ** The loop of the concentration fetcher *)

Lemma noaa_loop_cons line lines rows :
  noaa_loop (line :: lines) rows
  = match noaa_line line with
    | None => noaa_loop lines rows
    | Some (year, month, day, avg) =>
      dt ← new_datetime year month day;
      noaa_loop lines (rows ++ [(dt, avg)])
    end.
Proof.
  cbn [noaa_loop]. unfold noaa_line.
  destruct (bool_decide (strip line = []) || startswith (strip line) (u "#"));
    [done|].
  destruct (length (strip <$> split 44 (strip line)) <? 5)%nat eqn:Hlen.
  - apply Nat.ltb_lt in Hlen. unfold noaa_fields.
    destruct (strip <$> split 44 (strip line)) as [|? [|? [|? [|? [|? ?]]]]];
      cbn in Hlen |- *; try done; lia.
  - destruct (noaa_fields _) as [[[[year month] day] avg]|]; cbn; [|done].
    by destruct (fleb avg float_of_int_0).
Qed.

Lemma noaa_line_record line year month day avg :
  noaa_line line = Some (year, month, day, avg)
  ↔ noaa_record line year month day avg.
Proof.
  unfold noaa_line, noaa_record, noaa_fields. split.
  - destruct (bool_decide (strip line = [])) eqn:He; [done|].
    apply bool_decide_eq_false in He.
    destruct (startswith (strip line) (u "#")); [done|]. cbn.
    destruct (strip <$> split 44 (strip line)) as [|p0 [|p1 [|p2 [|p3 [|p4 rest]]]]];
      try done.
    cbn. destruct (int p0) as [y|] eqn:H0; [|done].
    destruct (int p1) as [m|] eqn:H1; [|done].
    destruct (int p2) as [d|] eqn:H2; [|done].
    destruct (float_of_str p4) as [a|] eqn:H4; [|done]. cbn.
    destruct (fleb a float_of_int_0) eqn:Hle; [done|]. intros [= -> -> -> ->].
    split; [done|]. split; [done|]. by exists p0, p1, p2, p3, p4, rest.
  - intros (He & Hc & p0 & p1 & p2 & p3 & p4 & rest & -> & H0 & H1 & H2 & H4 & Hle).
    rewrite bool_decide_eq_false_2 by done. rewrite Hc. cbn.
    rewrite H0, H1, H2, H4. cbn. by rewrite Hle.
Qed.

(** With every date existing, the loop collects the records in order. *)
Lemma noaa_loop_dated lines rows :
  (∀ line year month day avg,
     line ∈ lines → noaa_line line = Some (year, month, day, avg) →
     ∃ dt, new_datetime year month day = Return dt) →
  noaa_loop lines rows = Return (rows ++ omap noaa_dated lines).
Proof.
  revert rows. induction lines as [|line lines IH]; intros rows Hd.
  - cbn. by rewrite app_nil_r.
  - rewrite noaa_loop_cons. cbn [omap list_omap]. unfold noaa_dated at 1.
    destruct (noaa_line line) as [[[[year month] day] avg]|] eqn:Hl; cbn.
    + destruct (Hd line year month day avg) as [dt Hdt];
        [apply list_elem_of_here|done|].
      rewrite Hdt. cbn. rewrite IH.
      * by rewrite <- app_assoc.
      * intros l y m d a Hin. apply Hd. by apply list_elem_of_further.
    + apply IH. intros l y m d a Hin. apply Hd. by apply list_elem_of_further.
Qed.

Lemma new_datetime_raise year month day e :
  new_datetime year month day = Raise e → e = ValueError ∨ e = OverflowError.
Proof.
  unfold new_datetime.
  repeat (match goal with |- context [if ?b then _ else _] => destruct b end);
    intros [=]; auto.
Qed.

(** A record whose date does not exist ends the loop with the exception
    of [datetime], whatever else the file holds. *)
Lemma noaa_loop_raises lines rows :
  (∃ line year month day avg e,
     line ∈ lines ∧ noaa_line line = Some (year, month, day, avg)
     ∧ new_datetime year month day = Raise e) →
  ∃ e, noaa_loop lines rows = Raise e ∧ (e = ValueError ∨ e = OverflowError).
Proof.
  revert rows. induction lines as [|l lines IH];
    intros rows (line & year & month & day & avg & e & Hin & Hl & He).
  - by apply elem_of_nil in Hin.
  - rewrite noaa_loop_cons.
    destruct (noaa_line l) as [[[[y m] d] a]|] eqn:Hl'.
    + destruct (new_datetime y m d) as [dt|e'] eqn:Hd; cbn.
      * apply IH. apply elem_of_cons in Hin as [->|Hin].
        -- rewrite Hl in Hl'. injection Hl' as <- <- <- <-. congruence.
        -- by exists line, year, month, day, avg, e.
      * exists e'. split; [done|]. by eapply new_datetime_raise.
    + apply IH. apply elem_of_cons in Hin as [->|Hin]; [congruence|].
      by exists line, year, month, day, avg, e.
Qed.

(** ** Order of dates and [max] *)

Lemma datetime_ltb_lt a b :
  datetime_ltb a b = true
  ↔ year a < year b
    ∨ (year a = year b
       ∧ (month a < month b ∨ (month a = month b ∧ day a < day b))).
Proof.
  unfold datetime_ltb.
  rewrite !orb_true_iff, !andb_true_iff, !orb_true_iff, !andb_true_iff,
    !Z.ltb_lt, !Z.eqb_eq. done.
Qed.

Lemma datetime_ltb_trans a b c :
  datetime_ltb a b = true → datetime_ltb b c = true → datetime_ltb a c = true.
Proof. rewrite !datetime_ltb_lt. lia. Qed.

Lemma datetime_ltb_cotrans a b c :
  datetime_ltb a c = true → datetime_ltb a b = true ∨ datetime_ltb b c = true.
Proof. rewrite !datetime_ltb_lt. lia. Qed.

Section MaxFacts.
Context {A K : Type} (key : A -> K) (ltb : K -> K -> bool).
Hypothesis ltb_trans : ∀ a b c, ltb a b = true → ltb b c = true → ltb a c = true.
Hypothesis ltb_cotrans : ∀ a b c, ltb a c = true → ltb a b = true ∨ ltb b c = true.

(** [max_go] gives the first item than which none is greater. *)
Lemma max_go_first best l :
  ∃ l1 l2,
    best :: l = l1 ++ max_go key ltb best l :: l2
    ∧ (∀ x, x ∈ l1 → ltb (key x) (key (max_go key ltb best l)) = true)
    ∧ (∀ x, x ∈ l2 → ltb (key (max_go key ltb best l)) (key x) = false).
Proof.
  revert best. induction l as [|x l IH]; intros best.
  - exists [], []. cbn. split; [done|]. split; intros ? []%elem_of_nil.
  - cbn [max_go]. destruct (ltb (key best) (key x)) eqn:Hbx.
    + destruct (IH x) as (l1 & l2 & Heq & H1 & H2).
      set (r := max_go key ltb x l) in *.
      exists (best :: l1), l2. split; [cbn; by rewrite <- Heq|]. split; [|done].
      intros y [->|Hy]%elem_of_cons; [|by apply H1].
      destruct l1 as [|z l1]; cbn in Heq.
      * injection Heq as Hr _. by rewrite <- Hr.
      * injection Heq as Hz _. eapply ltb_trans; [done|].
        apply H1. rewrite Hz. apply list_elem_of_here.
    + destruct (IH best) as (l1 & l2 & Heq & H1 & H2).
      set (r := max_go key ltb best l) in *.
      destruct l1 as [|z l1]; cbn in Heq.
      * injection Heq as Hb Hl. exists [], (x :: l).
        split; [cbn; by rewrite <- Hb|]. split; [intros ? []%elem_of_nil|].
        intros y [->|Hy]%elem_of_cons; [by rewrite <- Hb|].
        apply H2. by rewrite <- Hl.
      * injection Heq as Hz Hl. exists (best :: x :: l1), l2.
        split; [cbn; by rewrite Hl|]. split; [|done].
        intros y [->|[->|Hy]%elem_of_cons]%elem_of_cons.
        -- apply H1. rewrite Hz. apply list_elem_of_here.
        -- destruct (ltb_cotrans (key best) (key x) (key r)) as [?|?];
             [|congruence|done].
           apply H1. rewrite Hz. apply list_elem_of_here.
        -- apply H1. by apply list_elem_of_further.
Qed.

End MaxFacts.

(** ** The concentration fetcher *)

(** On a file whose records all have dates that exist, the fetcher
    fails with its own error exactly when the file has no record, and
    otherwise returns the first record than which none is later. *)
Theorem noaa_latest_record net text :
  _http_get_text net NOAA_DAILY_CSV = Return text →
  (∀ line year month day avg,
     line ∈ splitlines text → noaa_record line year month day avg →
     ∃ dt, new_datetime year month day = Return dt) →
  (omap noaa_dated (splitlines text) = []
   ∧ fetch_latest_noaa_daily_ppm net = Raise no_valid_rows)
  ∨ (∃ dt ppm rs1 rs2,
       omap noaa_dated (splitlines text) = rs1 ++ (dt, ppm) :: rs2
       ∧ fetch_latest_noaa_daily_ppm net = Return {| date := dt; ppm := ppm |}
       ∧ (∀ r, r ∈ rs1 → datetime_ltb r.1 dt = true)
       ∧ (∀ r, r ∈ rs2 → datetime_ltb dt r.1 = false)).
Proof.
  intros Hget Hd. unfold fetch_latest_noaa_daily_ppm. rewrite Hget.
  cbn [mbind result_bind]. rewrite noaa_loop_dated.
  2:{ intros line y m d a Hin Hl. apply (Hd line y m d a Hin).
      by apply noaa_line_record. }
  cbn [mbind result_bind app].
  destruct (omap noaa_dated (splitlines text)) as [|r rs]; [by left|right].
  rewrite bool_decide_eq_false_2 by done. cbn [max].
  destruct (max_go_first fst datetime_ltb datetime_ltb_trans datetime_ltb_cotrans
              r rs) as (rs1 & rs2 & Heq & H1 & H2).
  destruct (max_go fst datetime_ltb r rs) as [dt ppm].
  by exists dt, ppm, rs1, rs2.
Qed.

Lemma noaa_latest_record_witness :
  (omap noaa_dated
     (splitlines sample_noaa) = []
   ∧ fetch_latest_noaa_daily_ppm
       (serving sample_noaa) = Raise no_valid_rows)
  ∨ (∃ dt ppm rs1 rs2,
       omap noaa_dated
         (splitlines sample_noaa) = rs1 ++ (dt, ppm) :: rs2
       ∧ fetch_latest_noaa_daily_ppm
           (serving sample_noaa) = Return {| date := dt; ppm := ppm |}
       ∧ (∀ r, r ∈ rs1 → datetime_ltb r.1 dt = true)
       ∧ (∀ r, r ∈ rs2 → datetime_ltb dt r.1 = false)).
Proof.
  apply (noaa_latest_record (serving sample_noaa) sample_noaa eq_refl).
  intros line year month day avg Hin Hr. apply noaa_line_record in Hr.
  vm_compute in Hin.
  repeat (apply elem_of_cons in Hin as [->|Hin];
          [vm_compute in Hr; try discriminate Hr;
           injection Hr as <- <- <- _; vm_compute; eauto|]).
  by apply elem_of_nil in Hin.
Defined.

(** C10: a record of the concentration file whose year, month and
    day read as integers, whose mean is positive, and whose date does
    not exist makes the fetcher raise the exception of [datetime]: the
    row is not skipped.  Such a file exists: one with a record of month
    13 makes the fetcher raise [ValueError], where the same file with
    that month unreadable gives the other record. *)
Theorem C10_invalid_date_escapes :
  (∀ net text,
     _http_get_text net NOAA_DAILY_CSV = Return text →
     (∃ line year month day avg e,
        line ∈ splitlines text ∧ noaa_record line year month day avg
        ∧ new_datetime year month day = Raise e) →
     ∃ e, fetch_latest_noaa_daily_ppm net = Raise e
          ∧ (e = ValueError ∨ e = OverflowError))
  ∧ (∃ line,
       line ∈ splitlines sample_noaa_month_13
       ∧ noaa_record line 2024 13 1 (float_lit "421.0")
       ∧ fleb (float_lit "421.0") float_of_int_0 = false
       ∧ new_datetime 2024 13 1 = Raise ValueError)
  ∧ fetch_latest_noaa_daily_ppm (serving sample_noaa_month_13) = Raise ValueError
  ∧ fetch_latest_noaa_daily_ppm (serving sample_noaa_month_x)
    = Return {| date := {| year := 2024; month := 1; day := 5 |};
                ppm := float_lit "420.7" |}.
Proof.
  split; [|split; [|split]].
  - intros net text Hget (line & y & m & d & a & e & Hin & Hr & He).
    unfold fetch_latest_noaa_daily_ppm. rewrite Hget. cbn [mbind result_bind].
    destruct (noaa_loop_raises (splitlines text) []) as (e' & -> & He').
    { exists line, y, m, d, a, e. by rewrite noaa_line_record. }
    by exists e'.
  - exists (u "2024,13,1,2024.9999,421.0"). split.
    + vm_compute. apply list_elem_of_further, list_elem_of_here.
    + split; [|by vm_compute]. apply noaa_line_record. by vm_compute.
  - by vm_compute.
  - by vm_compute.
Qed.

Lemma C10_invalid_date_escapes_witness :
  ∃ e, fetch_latest_noaa_daily_ppm (serving sample_noaa_month_13) = Raise e
       ∧ (e = ValueError ∨ e = OverflowError).
Proof.
  apply (proj1 C10_invalid_date_escapes (serving sample_noaa_month_13)
           sample_noaa_month_13 eq_refl).
  exists (u "2024,13,1,2024.9999,421.0"), 2024, 13, 1, (float_lit "421.0"),
    ValueError.
  split; [vm_compute; apply list_elem_of_further, list_elem_of_here|].
  split; [|reflexivity]. apply noaa_line_record. vm_compute. reflexivity.
Defined.

(** C3, at a failing input: the file has a record of 5 January 2024 that
    passes every filter, so the rows that survive are not zero; its
    other record is of 30 February, and the fetcher raises [ValueError]
    instead of returning the record of 5 January. *)
Theorem C3_invalid_date_aborts_fetch :
  noaa_record (u "2024,1,5,2024.0123,420.7") 2024 1 5 (float_lit "420.7")
  ∧ u "2024,1,5,2024.0123,420.7" ∈ splitlines sample_noaa_feb_30
  ∧ new_datetime 2024 1 5 = Return {| year := 2024; month := 1; day := 5 |}
  ∧ omap noaa_dated (splitlines sample_noaa_feb_30)
    = [({| year := 2024; month := 1; day := 5 |}, float_lit "420.7")]
  ∧ fetch_latest_noaa_daily_ppm (serving sample_noaa_feb_30) = Raise ValueError.
Proof.
  split; [apply noaa_line_record; by vm_compute|].
  split; [vm_compute; apply list_elem_of_here|].
  repeat split; by vm_compute.
Qed.

(** ** The emissions fetcher *)

Lemma owid_loop_omap start_year end_year reader out :
  owid_loop start_year end_year reader out
  = out ++ omap (owid_row start_year end_year) reader.
Proof.
  revert out. induction reader as [|row reader IH]; intros out; cbn.
  - by rewrite app_nil_r.
  - destruct (owid_row start_year end_year row); rewrite IH; [|done].
    by rewrite <- app_assoc.
Qed.

Lemma float_of_str_empty : float_of_str [] = None.
Proof. reflexivity. Qed.

Lemma owid_row_item start_year end_year row item :
  owid_row start_year end_year row = Some item
  ↔ world_item start_year end_year row item.
Proof.
  unfold owid_row, world_item, world_row. split.
  - destruct (bool_decide (row !! u "country" = Some (Some (u "World")))) eqn:Hc;
      [|done].
    apply bool_decide_eq_true in Hc. cbn.
    destruct (row !! u "year") as [[y|]|] eqn:Hy; try done.
    destruct (int y) as [year|] eqn:Hi; [|done].
    destruct (year <? start_year) eqn:H1; [done|].
    destruct (end_year <? year) eqn:H2; [done|]. cbn.
    destruct (row !! u "co2") as [[c|]|] eqn:Hco; try done.
    destruct (bool_decide (c = [])); [done|].
    destruct (float_of_str c) as [f|] eqn:Hf; [|done].
    intros [= <-]. exists f. split; [|done]. split; [done|].
    exists y, c. apply Z.ltb_ge in H1. apply Z.ltb_ge in H2. cbn.
    repeat split; done || lia.
  - intros (f & (Hc & y & c & Hy & Hi & Hr & Hco & Hf) & Hv).
    rewrite bool_decide_eq_true_2 by done. cbn. rewrite Hy, Hi.
    destruct (Z.ltb_spec item.1 start_year); [lia|].
    destruct (Z.ltb_spec end_year item.1); [lia|]. cbn. rewrite Hco.
    rewrite bool_decide_eq_false_2.
    + rewrite Hf. destruct item. cbn in *. by rewrite Hv.
    + intros ->. by rewrite float_of_str_empty in Hf.
Qed.

Lemma omap_selects {A B} (f : A -> option B) (R : A -> B -> Prop) l :
  (∀ a b, f a = Some b ↔ R a b) → selects R l (omap f l).
Proof.
  intros HfR. induction l as [|a l IH]; cbn; [constructor|].
  destruct (f a) as [b|] eqn:Hf.
  - apply selects_keep; [by apply HfR|done].
  - apply selects_skip; [|done]. intros b Hb%HfR. congruence.
Qed.

(** ** [list.sort] *)

Section SortFacts.
Context {A : Type} (key : A -> Z).

Lemma insert_sorted_perm x l : insert_sorted key x l ≡ₚ x :: l.
Proof.
  induction l as [|y l IH]; cbn; [done|].
  destruct (key x <=? key y); [done|]. rewrite IH. apply Permutation_swap.
Qed.

Lemma sort_perm l : sort key l ≡ₚ l.
Proof.
  induction l as [|x l IH]; cbn; [done|].
  unfold sort in IH. by rewrite insert_sorted_perm, IH.
Qed.

Lemma insert_sorted_sorted x l :
  StronglySorted (λ a b, key a ≤ key b) l →
  StronglySorted (λ a b, key a ≤ key b) (insert_sorted key x l).
Proof.
  induction 1 as [|y l Hs IH Hy]; cbn; [repeat constructor|].
  destruct (Z.leb_spec (key x) (key y)).
  - constructor; [by constructor|]. constructor; [done|].
    eapply Forall_impl; [exact Hy|]. cbn. intros; lia.
  - constructor; [done|].
    rewrite (Forall_forall (λ b, key y ≤ key b)). intros z Hz.
    apply (elem_of_Permutation_proper _ _ _ (insert_sorted_perm x l)) in Hz.
    apply elem_of_cons in Hz as [->|Hz]; [lia|].
    by apply (proj1 (Forall_forall _ _) Hy).
Qed.

Lemma sort_sorted l : StronglySorted (λ a b, key a ≤ key b) (sort key l).
Proof.
  induction l as [|x l IH]; cbn; [constructor|]. by apply insert_sorted_sorted.
Qed.

(** Stability: the items of one key keep their order. *)
Lemma insert_sorted_filter k x l :
  filter (λ a, key a = k) (insert_sorted key x l)
  = filter (λ a, key a = k) (x :: l).
Proof.
  induction l as [|y l IH]; cbn; [done|].
  destruct (Z.leb_spec (key x) (key y)); [done|].
  rewrite !filter_cons in IH |- *. rewrite IH.
  destruct (decide (key y = k)), (decide (key x = k)); try done. lia.
Qed.

Lemma sort_stable k l :
  filter (λ a, key a = k) (sort key l) = filter (λ a, key a = k) l.
Proof.
  induction l as [|x l IH]; cbn; [done|].
  unfold sort in IH. rewrite insert_sorted_filter, !filter_cons, IH. done.
Qed.

(** Sorted with distinct keys is strictly sorted. *)
Lemma sorted_strict l :
  StronglySorted (λ a b, key a ≤ key b) l →
  NoDup (key <$> l) →
  StronglySorted (λ a b, key a < key b) l.
Proof.
  induction 1 as [|x l Hs IH Hx]; cbn; [constructor|].
  intros [Hnin Hnd]%NoDup_cons. constructor; [by apply IH|].
  rewrite Forall_forall in Hx |- *. intros y Hy.
  assert (key x ≠ key y).
  { intros Heq. apply Hnin. rewrite Heq. by apply list_elem_of_fmap_2. }
  specialize (Hx y Hy). cbn in Hx. lia.
Qed.

End SortFacts.

(** C4: when the transport and the csv reader return, the emissions
    fetcher returns a series that holds one item for each row of World
    whose year reads as an integer of the range and whose emissions
    read as a float, and nothing else; the item is that year with the
    emissions divided by 1000.0; the series is ascending by year, the
    items of one year in the order of their rows, and strictly ascending
    when its years are distinct. *)
Theorem C4_world_emissions_series :
  ∀ net start_year end_year text rows,
    _http_get_text net OWID_CO2_CSV = Return text →
    Csv.DictReader (Csv.StringIO text) = Return rows →
    ∃ items series,
      fetch_world_emissions_owid net start_year end_year = Return series
      ∧ selects (world_item start_year end_year) rows items
      ∧ series ≡ₚ items
      ∧ ascending series
      ∧ (∀ year, of_year year series = of_year year items)
      ∧ (NoDup series.*1 → strictly_ascending series).
Proof.
  intros net start_year end_year text rows Hget Hrows.
  exists (omap (owid_row start_year end_year) rows),
    (sort fst (omap (owid_row start_year end_year) rows)).
  split.
  { unfold fetch_world_emissions_owid. rewrite Hget. cbn [mbind result_bind].
    rewrite Hrows. cbn [mbind result_bind]. by rewrite owid_loop_omap. }
  split; [apply omap_selects; intros; apply owid_row_item|].
  split; [apply sort_perm|]. split; [apply (sort_sorted fst)|].
  split; [intros year; apply (sort_stable fst)|].
  intros Hnd. apply (sorted_strict fst); [apply sort_sorted|done].
Qed.

Lemma C4_world_emissions_series_witness :
  ∃ items series,
    fetch_world_emissions_owid (serving sample_owid) 2020 2024 = Return series
    ∧ selects (world_item 2020 2024) sample_owid_rows items
    ∧ series ≡ₚ items
    ∧ ascending series
    ∧ (∀ year, of_year year series = of_year year items)
    ∧ (NoDup series.*1 → strictly_ascending series).
Proof.
  apply (C4_world_emissions_series (serving sample_owid) 2020 2024 sample_owid
           sample_owid_rows eq_refl).
  vm_compute. reflexivity.
Defined.

(** The series of the sample file. *)
Lemma sample_owid_series :
  fetch_world_emissions_owid (serving sample_owid) 2020 2024
  = Return [ (2020, fdiv (float_lit "35000") (float_lit "1000.0"));
             (2021, fdiv (float_lit "37500") (float_lit "1000.0"));
             (2024, fdiv (float_lit "38000") (float_lit "1000.0")) ].
Proof. by vm_compute. Qed.

(** ** What the csv reader raises *)

Lemma parse_add_char_raise self c e :
  Csv.parse_add_char self c = Raise e → e = csv_Error.
Proof.
  unfold Csv.parse_add_char. destruct (_ <=? _)%N; [|done]. by intros [= <-].
Qed.

Lemma parse_process_char_raise self c e :
  Csv.parse_process_char self c = Raise e → e = csv_Error.
Proof.
  unfold Csv.parse_process_char. intros H.
  repeat match type of H with
  | context [match ?x with _ => _ end] =>
    lazymatch x with
    | Csv.parse_add_char _ _ => destruct x eqn:?
    | _ => destruct x
    end; cbn [mbind result_bind] in H
  end;
  try discriminate H.
  all: try (injection H as <-; reflexivity).
  all: match type of H with
       | context [Csv.parse_add_char ?a ?b] =>
         destruct (Csv.parse_add_char a b) eqn:E; cbn in H;
         [discriminate H|injection H as <-; by eapply parse_add_char_raise]
       end.
Qed.

Lemma parse_line_raise line self e :
  Csv.parse_line self line = Raise e → e = csv_Error.
Proof.
  revert self. induction line as [|c line IH]; intros self; cbn [Csv.parse_line].
  - apply parse_process_char_raise.
  - destruct (Csv.parse_process_char self (Some c)) as [self'|e'] eqn:H; cbn.
    + apply IH.
    + intros [= <-]. by eapply parse_process_char_raise.
Qed.

Lemma reader_go_raise lines self e :
  Csv.reader_go self lines = Raise e → e = csv_Error.
Proof.
  revert self. induction lines as [|line lines IH]; intros self; cbn [Csv.reader_go].
  - by destruct (_ || _).
  - destruct (Csv.parse_line self line) as [self'|e'] eqn:H; cbn.
    + destruct (bool_decide (Csv.state self' = Csv.START_RECORD)); [|apply IH].
      destruct (Csv.reader_go Csv.parse_reset lines) as [r|e'] eqn:H'; cbn; [done|].
      intros [= <-]. by eapply IH.
    + intros [= <-]. by eapply parse_line_raise.
Qed.

Lemma DictReader_raise f e :
  Csv.DictReader f = Raise e → e = csv_Error ∧ Csv.reader f = Raise csv_Error.
Proof.
  unfold Csv.DictReader.
  destruct (Csv.reader f) as [[|fieldnames rest]|e'] eqn:H; cbn; try done.
  intros [= <-]. apply reader_go_raise in H. by subst.
Qed.

Lemma noaa_loop_no_record lines rows :
  (∀ line, line ∈ lines → noaa_line line = None) →
  noaa_loop lines rows = Return rows.
Proof.
  induction lines as [|line lines IH]; intros H; [reflexivity|].
  rewrite noaa_loop_cons, (H line) by apply list_elem_of_here.
  apply IH. intros l Hl. apply H. by apply list_elem_of_further.
Qed.

(** C5, as the program has it.  Each fetcher raises the exception of
    [requests] when the transport call raises, and [HTTPError] when the
    status is from 400 to 599; a response of any other status is parsed
    as one of status 200 is.  On a parsed body the concentration
    fetcher raises its [RuntimeError] when no line is a record.  The
    emissions fetcher raises on a parsed body exactly when the csv
    reader cannot read it, and then [csv.Error]; otherwise it returns a
    series, the empty one when no row is kept. *)
Theorem C5_fetcher_failures :
  ∀ net start_year end_year,
    (∀ e,
       net NOAA_DAILY_CSV = Net.Raises e →
       fetch_latest_noaa_daily_ppm net = Raise (RequestException e))
    ∧ (∀ status_code text,
         net NOAA_DAILY_CSV = Net.Response status_code text →
         400 ≤ status_code < 600 →
         fetch_latest_noaa_daily_ppm net
         = Raise (RequestException (HTTPError status_code)))
    ∧ (∀ e,
         net OWID_CO2_CSV = Net.Raises e →
         fetch_world_emissions_owid net start_year end_year
         = Raise (RequestException e))
    ∧ (∀ status_code text,
         net OWID_CO2_CSV = Net.Response status_code text →
         400 ≤ status_code < 600 →
         fetch_world_emissions_owid net start_year end_year
         = Raise (RequestException (HTTPError status_code)))
    ∧ (∀ status_code text,
         net NOAA_DAILY_CSV = Net.Response status_code text →
         ¬ 400 ≤ status_code < 600 →
         fetch_latest_noaa_daily_ppm net
         = fetch_latest_noaa_daily_ppm (serving text))
    ∧ (∀ status_code text,
         net OWID_CO2_CSV = Net.Response status_code text →
         ¬ 400 ≤ status_code < 600 →
         fetch_world_emissions_owid net start_year end_year
         = fetch_world_emissions_owid (serving text) start_year end_year)
    ∧ (∀ text,
         _http_get_text net NOAA_DAILY_CSV = Return text →
         (∀ line year month day avg,
            line ∈ splitlines text → ¬ noaa_record line year month day avg) →
         fetch_latest_noaa_daily_ppm net
         = Raise (RuntimeError (u "No valid rows found in NOAA daily CO₂ file.")))
    ∧ (∀ text,
         _http_get_text net OWID_CO2_CSV = Return text →
         match Csv.DictReader (Csv.StringIO text) with
         | Raise e =>
           e = csv_Error
           ∧ fetch_world_emissions_owid net start_year end_year = Raise csv_Error
         | Return rows =>
           ∃ series,
             fetch_world_emissions_owid net start_year end_year = Return series
             ∧ ((∀ row item,
                   row ∈ rows → ¬ world_item start_year end_year row item) →
                series = [])
         end).
Proof.
  intros net start_year end_year. repeat split.
  - intros e H. unfold fetch_latest_noaa_daily_ppm.
    by rewrite (http_get_text_raises _ _ e).
  - intros status_code text H Hs. unfold fetch_latest_noaa_daily_ppm.
    by rewrite (http_get_text_status _ _ status_code text).
  - intros e H. unfold fetch_world_emissions_owid.
    by rewrite (http_get_text_raises _ _ e).
  - intros status_code text H Hs. unfold fetch_world_emissions_owid.
    by rewrite (http_get_text_status _ _ status_code text).
  - intros status_code text H Hs. unfold fetch_latest_noaa_daily_ppm.
    rewrite (http_get_text_ok _ _ status_code text H Hs). reflexivity.
  - intros status_code text H Hs. unfold fetch_world_emissions_owid.
    rewrite (http_get_text_ok _ _ status_code text H Hs). reflexivity.
  - intros text Hget Hnone. unfold fetch_latest_noaa_daily_ppm.
    rewrite Hget. cbn [mbind result_bind]. rewrite noaa_loop_no_record.
    + reflexivity.
    + intros line Hin.
      destruct (noaa_line line) as [[[[y m] d] a]|] eqn:Hl; [|reflexivity].
      apply noaa_line_record in Hl. by destruct (Hnone line y m d a).
  - intros text Hget. unfold fetch_world_emissions_owid. rewrite Hget.
    cbn [mbind result_bind].
    destruct (Csv.DictReader (Csv.StringIO text)) as [rows|e] eqn:Hr;
      cbn [mbind result_bind].
    + eexists. split; [reflexivity|]. intros Hnone. rewrite owid_loop_omap.
      replace (omap (owid_row start_year end_year) rows) with (@nil (Z * float));
        [reflexivity|].
      symmetry. apply elem_of_nil_inv. intros item Hin.
      apply list_elem_of_omap in Hin as (row & Hin & Hrow).
      apply owid_row_item in Hrow. by destruct (Hnone row item).
    + apply DictReader_raise in Hr as [-> _]. by split.
Qed.

(** C5 fails where the fetchers do not: on a body with a header and one
    row, not of World, no row is kept, and the emissions fetcher returns
    the empty series; and a response of status 300, which is no
    success, is parsed by both fetchers, which return what they read
    from it. *)
Lemma C5_returns_where_failure_is_claimed :
  omap (owid_row 2020 2024)
    (match Csv.DictReader (Csv.StringIO sample_owid_no_world) with
     | Return rows => rows
     | Raise _ => []
     end) = []
  ∧ fetch_world_emissions_owid (serving sample_owid_no_world) 2020 2024
    = Return []
  ∧ ¬ (∃ e,
         fetch_world_emissions_owid (serving sample_owid_no_world) 2020 2024
         = Raise e)
  ∧ fetch_latest_noaa_daily_ppm (serving_status 300 sample_noaa)
    = Return {| date := {| year := 2024; month := 1; day := 5 |};
                ppm := float_lit "420.7" |}
  ∧ fetch_world_emissions_owid (serving_status 300 sample_owid) 2020 2024
    = Return [ (2020, fdiv (float_lit "35000") (float_lit "1000.0"));
               (2021, fdiv (float_lit "37500") (float_lit "1000.0"));
               (2024, fdiv (float_lit "38000") (float_lit "1000.0")) ].
Proof.
  split; [by vm_compute|]. split; [by vm_compute|].
  split; [intros [e He]; vm_compute in He; discriminate He|].
  split; by vm_compute.
Qed.

(** ** The poll loop *)

(** [render] changes nothing but the cards, whether it returns or
    raises. *)
Lemma set_card_frame title main sub self :
  ∃ c, snd (_set_card title main sub self) = set_cards c self.
Proof.
  unfold _set_card. destruct (cards self !! title); cbn; [eauto|].
  exists (cards self). by destruct self.
Qed.

Lemma bindM_frame (m1 m2 : M unit) :
  (∀ self, ∃ c, snd (m1 self) = set_cards c self) →
  (∀ self, ∃ c, snd (m2 self) = set_cards c self) →
  ∀ self, ∃ c, snd ((m1 ;; m2) self) = set_cards c self.
Proof.
  intros H1 H2 self. unfold bindM. destruct (H1 self) as [c1 Hc1].
  destruct (m1 self) as [[[]|e] self1]; cbn in *; subst self1; [|eauto].
  destruct (H2 (set_cards c1 self)) as [c2 ->]. eauto.
Qed.

Lemma render_frame snap emissions start_year end_year budget_label self :
  ∃ c,
    snd (render snap emissions start_year end_year budget_label self)
    = set_cards c self.
Proof.
  unfold render.
  change (index0 (dict_values BUDGETS_GTCO2)) with (Return (float_lit "580.0")).
  unfold bindM at 1; unfold lift at 1.
  revert self. repeat (apply bindM_frame; [intros; apply set_card_frame|]).
  intros; apply set_card_frame.
Qed.

Lemma poll_empty now self :
  _q self = [] →
  _poll_queue now self
  = (Return tt, set_after_poll_queue (S (after_poll_queue self)) self).
Proof. intros H. unfold _poll_queue. by rewrite H. Qed.

Lemma poll_err now self tb q :
  _q self = err tb :: q →
  _poll_queue now self
  = (Return tt,
     set_after_poll_queue (S (after_poll_queue self))
       (set_refresh_btn normal
          (set_refresh_in_flight false
             (set_dialogs (dialogs self ++ [(u "Refresh failed", tb)])
                (set_status_text [Text (u "Error")] (set_q q self)))))).
Proof. intros H. unfold _poll_queue. by rewrite H. Qed.

Lemma poll_ok now self snap emissions start_year end_year budget_label q :
  _q self = ok snap emissions start_year end_year budget_label :: q →
  _poll_queue now self
  = match
      render snap emissions start_year end_year budget_label
        (set_last_snapshot (Some snap) (set_q q self))
    with
    | (Return _, self') =>
      (Return tt,
       set_after_poll_queue (S (after_poll_queue self'))
         (set_refresh_btn normal
            (set_refresh_in_flight false
               (set_status_text [Text (u "Updated "); Text now] self'))))
    | (Raise e, self') => (Raise e, self')
    end.
Proof.
  intros H. unfold _poll_queue. rewrite H.
  unfold bindM at 1. unfold modify at 1.
  unfold bindM at 1. unfold bindM at 1. unfold modify at 1.
  unfold bindM at 1.
  by destruct (render _ _ _ _ _ _) as [[[]|e] self'].
Qed.

(** ** The worker *)

Section WorkerFacts.
Variable format_exc : exn -> str.

Lemma refresh_worker_put net start_year end_year budget_label q :
  _refresh_worker format_exc net start_year end_year budget_label q
  = q ++ [worker_message format_exc net start_year end_year budget_label].
Proof.
  unfold _refresh_worker, worker_message.
  destruct (fetch_latest_noaa_daily_ppm net) as [snap|e]; cbn; [|done].
  by destruct (fetch_world_emissions_owid net start_year end_year).
Qed.

Lemma worker_message_ok net start_year end_year budget_label
    snap emissions start_year' end_year' budget_label' :
  worker_message format_exc net start_year end_year budget_label
  = ok snap emissions start_year' end_year' budget_label' →
  fetch_latest_noaa_daily_ppm net = Return snap
  ∧ fetch_world_emissions_owid net start_year end_year = Return emissions
  ∧ start_year' = start_year ∧ end_year' = end_year
  ∧ budget_label' = budget_label.
Proof.
  unfold worker_message.
  destruct (fetch_latest_noaa_daily_ppm net) as [s|e]; [|done].
  destruct (fetch_world_emissions_owid net start_year end_year); [|done].
  by intros [= -> -> -> -> ->].
Qed.

(** C2: a worker puts exactly one message on the queue: [ok] with the
    two fetched values and the arguments it was started with when both
    fetchers return, [err] with the formatted traceback of the first
    exception otherwise.  A worker is started with the values
    [refresh_async] read when it accepted the request, and its finishing
    changes the queue by that one message. *)
Theorem C2_worker_puts_one_message :
  (∀ net start_year end_year budget_label q,
     ∃ m,
       _refresh_worker format_exc net start_year end_year budget_label q
       = q ++ [m]
       ∧ m = match fetch_latest_noaa_daily_ppm net with
             | Raise e => err (format_exc e)
             | Return snap =>
               match fetch_world_emissions_owid net start_year end_year with
               | Raise e => err (format_exc e)
               | Return emissions =>
                 ok snap emissions start_year end_year budget_label
               end
             end)
  ∧ (∀ self i net start_year end_year budget_label,
       threads self !! i = Some (start_year, end_year, budget_label) →
       ∃ m,
         _q (step format_exc self (WorkerDone i net)) = _q self ++ [m]
         ∧ length (threads (step format_exc self (WorkerDone i net)))
           = pred (length (threads self)))
  ∧ (∀ self nowy1 nowy2,
       _refresh_in_flight self = false →
       ∃ start_year,
         threads (step format_exc self (Refresh nowy1 nowy2))
         = threads self ++ [(start_year, nowy2, budget_choice self)]
         ∧ _q (step format_exc self (Refresh nowy1 nowy2)) = _q self).
Proof.
  split; [|split].
  - intros. eexists. split; [apply refresh_worker_put|reflexivity].
  - intros self i net start_year end_year budget_label Hi.
    cbn. rewrite Hi. cbn. rewrite refresh_worker_put. eexists. split; [done|].
    rewrite length_delete; [lia|eauto].
  - intros self nowy1 nowy2 Hidle. cbn. unfold refresh_async. rewrite Hidle.
    cbn. eauto.
Qed.

(** ** The coordinator *)

Lemma refresh_async_in_flight nowy1 nowy2 self :
  _refresh_in_flight self = true →
  refresh_async nowy1 nowy2 self = (Return tt, self).
Proof. intros H. unfold refresh_async. by rewrite H. Qed.

Lemma coordinator_inv_init nowy1 nowy2 : coordinator_inv (__init__ nowy1 nowy2).
Proof. split; [|reflexivity]. intros t Ht. by apply cards_ok_new_App. Qed.

Lemma coordinator_inv_step self ev :
  coordinator_inv self → coordinator_inv (step format_exc self ev).
Proof.
  intros [Hok Hn]. destruct ev as [nowy1 nowy2|now|i net|s|s]; cbn.
  - unfold refresh_async.
    destruct (_refresh_in_flight self) eqn:Hf.
    + split; [exact Hok|]. cbn. by rewrite Hf.
    + split; [exact Hok|]. cbn. rewrite length_app. cbn. lia.
  - destruct (after_poll_queue self) as [|n] eqn:Ha; [by split|].
    destruct (_q self) as [|[snap emissions start_year end_year budget_label|tb] q]
      eqn:Hq.
    + rewrite poll_empty by done. split; [exact Hok|]. cbn. by rewrite Hq.
    + rewrite (poll_ok _ _ snap emissions start_year end_year budget_label q)
        by done.
      rewrite render_ok by exact Hok. cbn in Hn.
      destruct (_refresh_in_flight self); [|lia].
      split; [|cbn; lia].
      intros t Ht. cbn. repeat (apply lookup_insert_is_Some'; right).
      by apply Hok.
    + rewrite (poll_err _ _ tb q) by done. cbn in Hn.
      destruct (_refresh_in_flight self); [|lia].
      split; [exact Hok|]. cbn. lia.
  - destruct (threads self !! i) as [[[start_year end_year] budget_label]|]
      eqn:Hi; [|by split].
    split; [exact Hok|]. cbn. rewrite refresh_worker_put, length_app.
    rewrite length_delete by eauto.
    apply lookup_lt_Some in Hi. cbn. lia.
  - by split.
  - by split.
Qed.

Lemma reachable_inv self : reachable format_exc self → coordinator_inv self.
Proof.
  induction 1; [apply coordinator_inv_init|by apply coordinator_inv_step].
Qed.

(** C1: a call of [refresh_async] while a refresh is in flight leaves
    the whole state as it is (no worker is started, nothing is put on
    the queue); the flag is cleared by no event but a poll that takes a
    message off the queue, and a worker's finishing leaves it set; and
    in every reachable state the running workers and the undrained
    results are together at most one, and none when no refresh is in
    flight. *)
Theorem C1_one_refresh_at_a_time :
  (∀ self nowy1 nowy2,
     _refresh_in_flight self = true →
     refresh_async nowy1 nowy2 self = (Return tt, self)
     ∧ step format_exc self (Refresh nowy1 nowy2) = self)
  ∧ (∀ self ev,
       _refresh_in_flight self = true →
       _refresh_in_flight (step format_exc self ev) = false →
       ∃ now m, ev = Poll now ∧ _q self = m :: _q (step format_exc self ev))
  ∧ (∀ self i net,
       _refresh_in_flight (step format_exc self (WorkerDone i net))
       = _refresh_in_flight self)
  ∧ (∀ self,
       reachable format_exc self →
       (length (threads self) + length (_q self) ≤ 1)%nat
       ∧ (_refresh_in_flight self = false → threads self = [] ∧ _q self = [])).
Proof.
  split; [|split; [|split]].
  - intros self nowy1 nowy2 H. cbn. by rewrite refresh_async_in_flight.
  - intros self ev Hf Hf'.
    destruct ev as [nowy1 nowy2|now|i net|s|s]; cbn in Hf'.
    + rewrite refresh_async_in_flight in Hf' by done. cbn in Hf'. congruence.
    + exists now. cbn.
      destruct (after_poll_queue self) as [|n]; [congruence|].
      destruct (_q self) as [|[snap emissions start_year end_year budget_label|tb] q]
        eqn:Hq.
      * rewrite poll_empty in Hf' by done. cbn in Hf'. congruence.
      * exists (ok snap emissions start_year end_year budget_label).
        split; [done|]. f_equal.
        rewrite (poll_ok _ _ snap emissions start_year end_year budget_label q)
          in Hf' |- * by done.
        destruct (render_frame snap emissions start_year end_year budget_label
                    (set_last_snapshot (Some snap)
                       (set_q q (set_after_poll_queue n self)))) as [c Hc].
        destruct (render _ _ _ _ _ _) as [[[]|e] self']; cbn in *; by subst self'.
      * exists (err tb). split; [done|].
        by rewrite (poll_err _ _ tb q) by done.
    + destruct (threads self !! i) as [[[start_year end_year] budget_label]|];
        cbn in Hf'; congruence.
    + congruence.
    + congruence.
  - intros self i net. cbn.
    by destruct (threads self !! i) as [[[start_year end_year] budget_label]|].
  - intros self Hr. apply reachable_inv in Hr as [_ Hn].
    destruct (_refresh_in_flight self); split; try lia; try done.
    intros _. destruct (threads self), (_q self); cbn in Hn; done || lia.
Qed.

(** C6: when the message a poll drains is a failure, the cards, the
    stored snapshot, the two configuration variables and the running
    workers are as before; the status line reads Error, one error
    dialog is shown, and the coordinator is idle again with the button
    enabled.  No event changes a card or the stored snapshot but a poll
    that drains a success message; a success message is put only by a
    worker both of whose fetches returned; and draining one sets the five
    cards from that one message. *)
Theorem C6_failure_keeps_display :
  (∀ self now tb q n,
     after_poll_queue self = S n →
     _q self = err tb :: q →
     let self' := step format_exc self (Poll now) in
     cards self' = cards self
     ∧ last_snapshot self' = last_snapshot self
     ∧ budget_choice self' = budget_choice self
     ∧ budget_start_year self' = budget_start_year self
     ∧ threads self' = threads self
     ∧ status self' = [Text (u "Error")]
     ∧ dialogs self' = dialogs self ++ [(u "Refresh failed", tb)]
     ∧ _q self' = q
     ∧ _refresh_in_flight self' = false
     ∧ refresh_btn self' = normal
     ∧ after_poll_queue self' = S n)
  ∧ (∀ self ev,
       cards (step format_exc self ev) ≠ cards self
       ∨ last_snapshot (step format_exc self ev) ≠ last_snapshot self →
       ∃ now snap emissions start_year end_year budget_label q,
         ev = Poll now
         ∧ _q self = ok snap emissions start_year end_year budget_label :: q)
  ∧ (∀ self i net snap emissions start_year end_year budget_label,
       ok snap emissions start_year end_year budget_label
         ∈ _q (step format_exc self (WorkerDone i net)) →
       ok snap emissions start_year end_year budget_label ∈ _q self
       ∨ (fetch_latest_noaa_daily_ppm net = Return snap
          ∧ fetch_world_emissions_owid net start_year end_year
            = Return emissions))
  ∧ (∀ self now snap emissions start_year end_year budget_label q n,
       cards_ok self →
       after_poll_queue self = S n →
       _q self = ok snap emissions start_year end_year budget_label :: q →
       let self' := step format_exc self (Poll now) in
       render snap emissions start_year end_year budget_label self
       = (Return tt, set_cards (cards self') self)
       ∧ last_snapshot self' = Some snap).
Proof.
  split; [|split; [|split]].
  - intros self now tb q n Ha Hq. cbn. rewrite Ha.
    rewrite (poll_err _ _ tb q) by done. cbn. by repeat split.
  - intros self ev Hch.
    destruct ev as [nowy1 nowy2|now|i net|s|s]; cbn in Hch.
    + exfalso. unfold refresh_async in Hch.
      destruct (_refresh_in_flight self); cbn in Hch; by destruct Hch.
    + exists now.
      destruct (after_poll_queue self) as [|n]; [by destruct Hch|].
      destruct (_q self) as [|[snap emissions start_year end_year budget_label|tb] q]
        eqn:Hq.
      * exfalso. rewrite poll_empty in Hch by done. by destruct Hch.
      * by eexists _, _, _, _, _, _.
      * exfalso. rewrite (poll_err _ _ tb q) in Hch by done. by destruct Hch.
    + exfalso.
      destruct (threads self !! i) as [[[start_year end_year] budget_label]|];
        by destruct Hch.
    + exfalso. by destruct Hch.
    + exfalso. by destruct Hch.
  - intros self i net snap emissions start_year end_year budget_label. cbn.
    destruct (threads self !! i) as [[[start_year' end_year'] budget_label']|];
      [|by left].
    cbn. rewrite refresh_worker_put.
    intros [Hin|Hin%list_elem_of_singleton]%elem_of_app; [by left|right].
    symmetry in Hin. apply worker_message_ok in Hin as (? & ? & -> & -> & ->).
    done.
  - intros self now snap emissions start_year end_year budget_label q n
      Hok Ha Hq self'. subst self'. unfold step. rewrite Ha.
    rewrite (poll_ok _ _ snap emissions start_year end_year budget_label q)
      by done.
    rewrite !render_ok by exact Hok. split; reflexivity.
Qed.

End WorkerFacts.

(** ** Binary64 arithmetic *)

Lemma digits2_pos_bounds (m : positive) :
  2 ^ (Zpos (digits2_pos m) - 1) ≤ Zpos m < 2 ^ Zpos (digits2_pos m).
Proof.
  induction m as [m IH|m IH|]; cbn [digits2_pos].
  - rewrite Pos2Z.inj_succ.
    replace (Z.succ (Zpos (digits2_pos m)) - 1) with (Z.succ (Zpos (digits2_pos m) - 1)) by lia.
    rewrite !Z.pow_succ_r by lia. lia.
  - rewrite Pos2Z.inj_succ.
    replace (Z.succ (Zpos (digits2_pos m)) - 1) with (Z.succ (Zpos (digits2_pos m) - 1)) by lia.
    rewrite !Z.pow_succ_r by lia. lia.
  - cbn. lia.
Qed.

Lemma digits2_pos_unique (m : positive) (k : Z) :
  2 ^ (k - 1) ≤ Zpos m < 2 ^ k → Zpos (digits2_pos m) = k.
Proof.
  intros [Hlo Hhi]. pose proof (digits2_pos_bounds m) as [Hlo' Hhi'].
  destruct (Z.lt_trichotomy (Zpos (digits2_pos m)) k) as [Hlt|[Heq|Hgt]]; [|done|].
  - exfalso. assert (2 ^ Zpos (digits2_pos m) ≤ 2 ^ (k - 1)) by (apply Z.pow_le_mono_r; lia). lia.
  - exfalso. destruct (Z.le_gt_cases 0 k) as [Hk|Hk].
    + assert (2 ^ k ≤ 2 ^ (Zpos (digits2_pos m) - 1)) by (apply Z.pow_le_mono_r; lia). lia.
    + rewrite (Z.pow_neg_r 2 k) in Hhi by lia. lia.
Qed.

Lemma shr_1_m mrs : 0 ≤ shr_m mrs → shr_m (shr_1 mrs) = shr_m mrs / 2.
Proof.
  destruct mrs as [m r s]. cbn. intros Hm.
  destruct m as [|[p|p|]|p]; cbn [shr_m] in *; try lia;
    (apply Z.div_unique with 1; lia) || (apply Z.div_unique with 0; lia).
Qed.

Lemma iter_shr_1_m n mrs :
  0 ≤ shr_m mrs → shr_m (SpecFloat.iter_pos shr_1 n mrs) = shr_m mrs / 2 ^ Zpos n.
Proof.
  revert mrs. induction n as [n IH|n IH|]; intros mrs Hm; cbn [SpecFloat.iter_pos].
  - assert (0 ≤ shr_m (shr_1 mrs)) by (rewrite shr_1_m by done; apply Z.div_pos; lia).
    assert (0 ≤ shr_m (SpecFloat.iter_pos shr_1 n (shr_1 mrs))) by (rewrite IH by done; apply Z.div_pos; lia).
    rewrite !IH, shr_1_m by done.
    rewrite !Z.div_div by lia. f_equal.
    replace (Zpos n~1) with (1 + Zpos n + Zpos n) by lia.
    rewrite !Z.pow_add_r by lia. change (2 ^ 1) with 2. ring.
  - assert (0 ≤ shr_m (SpecFloat.iter_pos shr_1 n mrs)) by (rewrite IH by done; apply Z.div_pos; lia).
    rewrite !IH by done. rewrite Z.div_div by lia. f_equal.
    replace (Zpos n~0) with (Zpos n + Zpos n) by lia.
    by rewrite Z.pow_add_r by lia.
  - by rewrite shr_1_m.
Qed.

Lemma Zdigits2_bounds m :
  0 < m → 2 ^ (Zdigits2 m - 1) ≤ m < 2 ^ Zdigits2 m.
Proof. destruct m as [|p|p]; [lia| |lia]. intros _. apply digits2_pos_bounds. Qed.

Lemma Zdigits2_unique m k :
  0 < m → 2 ^ (k - 1) ≤ m < 2 ^ k → Zdigits2 m = k.
Proof. destruct m as [|p|p]; [lia| |lia]. intros _. apply digits2_pos_unique. Qed.

Lemma Zdigits2_pos m : 0 < m → 1 ≤ Zdigits2 m.
Proof. destruct m as [|p|p]; cbn; lia. Qed.

Lemma Zdigits2_shift m n :
  0 < m → 0 ≤ n < Zdigits2 m →
  0 < m / 2 ^ n ∧ Zdigits2 (m / 2 ^ n) = Zdigits2 m - n.
Proof.
  intros Hm Hn. pose proof (Zdigits2_bounds m Hm) as [Hlo Hhi].
  assert (Hp : 0 < 2 ^ n) by (apply Z.pow_pos_nonneg; lia).
  assert (Hlo' : 2 ^ (Zdigits2 m - n - 1) ≤ m / 2 ^ n).
  { apply Z.div_le_lower_bound; [done|].
    rewrite <- Z.pow_add_r by lia.
    replace (n + (Zdigits2 m - n - 1)) with (Zdigits2 m - 1) by lia. done. }
  assert (Hhi' : m / 2 ^ n < 2 ^ (Zdigits2 m - n)).
  { apply Z.div_lt_upper_bound; [done|].
    rewrite <- Z.pow_add_r by lia.
    replace (n + (Zdigits2 m - n)) with (Zdigits2 m) by lia. done. }
  assert (0 < 2 ^ (Zdigits2 m - n - 1)) by (apply Z.pow_pos_nonneg; lia).
  split; [lia|]. apply Zdigits2_unique; [lia|done].
Qed.

Lemma shr_spec mrs e n :
  0 ≤ shr_m mrs →
  shr_m (shr mrs e n).1 = shr_m mrs / 2 ^ Z.max 0 n
  ∧ (shr mrs e n).2 = e + Z.max 0 n.
Proof.
  intros Hm. unfold shr. destruct n as [|p|p]; cbn [fst snd].
  - rewrite Z.max_l by lia. change (2 ^ 0) with 1. rewrite Z.div_1_r. lia.
  - rewrite Z.max_r by lia. by rewrite iter_shr_1_m.
  - rewrite Z.max_l by lia. change (2 ^ 0) with 1. rewrite Z.div_1_r. lia.
Qed.

Lemma shr_record_of_loc_m m l : shr_m (shr_record_of_loc m l) = m.
Proof. by destruct l as [|[]]. Qed.

Lemma shr_fexp_spec m e l :
  0 ≤ m →
  shr_m (shr_fexp prec emax m e l).1
  = m / 2 ^ Z.max 0 (fexp prec emax (Zdigits2 m + e) - e)
  ∧ (shr_fexp prec emax m e l).2
    = e + Z.max 0 (fexp prec emax (Zdigits2 m + e) - e).
Proof.
  intros Hm. unfold shr_fexp.
  rewrite <- (shr_record_of_loc_m m l) at 3.
  apply shr_spec. by rewrite shr_record_of_loc_m.
Qed.

Lemma round_nearest_even_bounds m l :
  m ≤ round_nearest_even m l ≤ m + 1.
Proof. destruct l as [|[]]; cbn; try lia. destruct (Z.even m); lia. Qed.

Lemma fexp_eq e : fexp prec emax e = Z.max (e - 53) (-1074).
Proof. reflexivity. Qed.

Lemma binary_round_aux_signed sx mx ex lx :
  0 < mx → -1074 ≤ ex →
  signed sx (binary_round_aux prec emax sx mx ex lx).
Proof.
  intros Hm He. unfold binary_round_aux.
  destruct (shr_fexp_spec mx ex lx) as [H1m H1e]; [lia|].
  destruct (shr_fexp prec emax mx ex lx) as [mrs1 e1]. cbn [fst snd] in H1m, H1e.
  set (n1 := Z.max 0 (fexp prec emax (Zdigits2 mx + ex) - ex)) in *.
  pose proof (Zdigits2_pos mx Hm) as Hd.
  assert (Hn1 : 0 ≤ n1 < Zdigits2 mx) by (unfold n1; rewrite fexp_eq; lia).
  destruct (Zdigits2_shift mx n1 Hm Hn1) as [Hm1 _]. rewrite <- H1m in Hm1.
  pose proof (round_nearest_even_bounds (shr_m mrs1) (loc_of_shr_record mrs1)) as Hr.
  set (m2 := round_nearest_even (shr_m mrs1) (loc_of_shr_record mrs1)) in *.
  destruct (shr_fexp_spec m2 e1 loc_Exact) as [H2m H2e]; [lia|].
  destruct (shr_fexp prec emax m2 e1 loc_Exact) as [mrs2 e2]. cbn [fst snd] in H2m, H2e.
  set (n2 := Z.max 0 (fexp prec emax (Zdigits2 m2 + e1) - e1)) in *.
  assert (Hm2 : 0 < m2) by lia.
  pose proof (Zdigits2_pos m2 Hm2) as Hd2.
  assert (Hn2 : 0 ≤ n2 < Zdigits2 m2) by (unfold n2; rewrite fexp_eq; lia).
  destruct (Zdigits2_shift m2 n2 Hm2 Hn2) as [Hm3 _]. rewrite <- H2m in Hm3.
  destruct (shr_m mrs2) as [|p|p]; [lia| |lia].
  destruct (e2 <=? emax - prec); [right; eauto|by left].
Qed.

Lemma iter_xO m d : Zpos (Pos.iter xO m d) = Zpos m * 2 ^ Zpos d.
Proof.
  induction d as [|d IH] using Pos.peano_ind.
  - cbn. lia.
  - rewrite Pos.iter_succ, Pos2Z.inj_xO, IH, Pos2Z.inj_succ, Z.pow_succ_r by lia.
    ring.
Qed.

Lemma shl_align_spec mx ex ex' :
  (shl_align mx ex ex').2 = Z.min ex ex'
  ∧ Zpos (shl_align mx ex ex').1 = Zpos mx * 2 ^ (ex - Z.min ex ex').
Proof.
  unfold shl_align. destruct (ex' - ex) as [|d|d] eqn:Hd; cbn [fst snd].
  - rewrite Z.min_l by lia. rewrite Z.sub_diag. cbn. lia.
  - rewrite Z.min_l by lia. rewrite Z.sub_diag. cbn. lia.
  - rewrite Z.min_r by lia. split; [done|]. rewrite iter_xO. f_equal. f_equal. lia.
Qed.

Lemma binary_round_signed sx mx ex :
  -1074 ≤ ex → signed sx (binary_round prec emax sx mx ex).
Proof.
  intros He. unfold binary_round.
  destruct (shl_align_spec mx ex (fexp prec emax (Zpos (digits2_pos mx) + ex)))
    as [H2 _].
  destruct (shl_align _ _ _) as [mz ez]. cbn [snd] in H2.
  apply binary_round_aux_signed; [lia|]. rewrite H2, fexp_eq. lia.
Qed.

Lemma signed_true_ltb x :
  signed true x → SFltb x (S754_zero false) = true.
Proof. by intros [->|(m & e & ->)]. Qed.

(** A finite mantissa and exponent of a valid float. *)
Lemma bounded_inv m e :
  bounded prec emax m e = true →
  -1074 ≤ e ∧ Zpos m < 2 ^ 53 ∧ (-1074 < e → 2 ^ 52 ≤ Zpos m).
Proof.
  unfold bounded, canonical_mantissa. rewrite fexp_eq.
  intros [Hc _]%andb_true_iff. apply Z.eqb_eq in Hc.
  pose proof (digits2_pos_bounds m) as [Hlo Hhi].
  split; [lia|]. split.
  - assert (2 ^ Zpos (digits2_pos m) ≤ 2 ^ 53) by (apply Z.pow_le_mono_r; lia). lia.
  - intros He. replace (Zpos (digits2_pos m)) with 53 in Hlo by lia. done.
Qed.

(** The larger of two valid positive floats has the larger aligned
    mantissa. *)
Lemma aligned_lt mx ex my ey :
  bounded prec emax mx ex = true →
  bounded prec emax my ey = true →
  ex < ey ∨ (ex = ey ∧ Zpos mx < Zpos my) →
  Zpos (shl_align mx ex (Z.min ex ey)).1 < Zpos (shl_align my ey (Z.min ex ey)).1.
Proof.
  intros (Hex & Hmx & _)%bounded_inv (Hey & _ & Hmy)%bounded_inv Hlt.
  destruct (shl_align_spec mx ex (Z.min ex ey)) as [_ ->].
  destruct (shl_align_spec my ey (Z.min ex ey)) as [_ ->].
  replace (Z.min ex (Z.min ex ey)) with (Z.min ex ey) by lia.
  replace (Z.min ey (Z.min ex ey)) with (Z.min ex ey) by lia.
  destruct Hlt as [Hlt|[-> Hlt]].
  - rewrite !Z.min_l by lia.
    rewrite Z.sub_diag. change (2 ^ 0) with 1.
    assert (2 ^ 1 ≤ 2 ^ (ey - ex)) by (apply Z.pow_le_mono_r; lia).
    change (2 ^ 1) with 2 in *. specialize (Hmy ltac:(lia)).
    assert (Zpos my * 2 ≤ Zpos my * 2 ^ (ey - ex))
      by (apply Z.mul_le_mono_nonneg_l; lia).
    lia.
  - rewrite !Z.min_id, Z.sub_diag. lia.
Qed.

Lemma SFsub_lt_negative x y :
  valid_binary prec emax x = true →
  valid_binary prec emax y = true →
  SFltb x y = true →
  SFltb (SFsub prec emax x y) (S754_zero false) = true.
Proof.
  intros Hx Hy Hlt.
  destruct x as [sx|sx| |sx mx ex], y as [sy|sy| |sy my ey];
    try discriminate Hlt;
    try (destruct sx; try discriminate Hlt);
    try (destruct sy; try discriminate Hlt);
    try reflexivity.
  - (* both negative *)
    cbn in Hx, Hy. unfold SFltb, SFcompare in Hlt. unfold SFsub.
    assert (Hlt' : ey < ex ∨ (ey = ex ∧ Zpos my < Zpos mx)).
    { destruct (Z.compare_spec ex ey); [right|discriminate Hlt|left; lia].
      split; [done|]. rewrite Pos.compare_cont_spec in Hlt. cbn in Hlt.
      destruct (Pos.compare_spec mx my); try discriminate Hlt. lia. }
    pose proof (aligned_lt my ey mx ex Hy Hx Hlt') as Ha.
    rewrite (Z.min_comm ey ex) in Ha. cbn [cond_Zopp].
    destruct (bounded_inv _ _ Hx) as (? & _). destruct (bounded_inv _ _ Hy) as (? & _).
    destruct (- Z.pos (shl_align mx ex (Z.min ex ey)).1
              - - Z.pos (shl_align my ey (Z.min ex ey)).1) as [|p|p] eqn:HD;
      [lia|lia|].
    cbn [binary_normalize]. apply signed_true_ltb, binary_round_signed. lia.
  - (* negative minus positive *)
    cbn in Hx, Hy. unfold SFsub. cbn [cond_Zopp].
    destruct (bounded_inv _ _ Hx) as (? & _). destruct (bounded_inv _ _ Hy) as (? & _).
    destruct (- Z.pos (shl_align mx ex (Z.min ex ey)).1
              - Z.pos (shl_align my ey (Z.min ex ey)).1) as [|p|p] eqn:HD;
      [lia|lia|].
    cbn [binary_normalize]. apply signed_true_ltb, binary_round_signed. lia.
  - (* both positive *)
    cbn in Hx, Hy. unfold SFltb, SFcompare in Hlt. unfold SFsub.
    assert (Hlt' : ex < ey ∨ (ex = ey ∧ Zpos mx < Zpos my)).
    { destruct (Z.compare_spec ex ey); [right|left; lia|discriminate Hlt].
      split; [done|]. rewrite Pos.compare_cont_spec in Hlt. cbn in Hlt.
      destruct (Pos.compare_spec mx my); try discriminate Hlt. lia. }
    pose proof (aligned_lt mx ex my ey Hx Hy Hlt') as Ha. cbn [cond_Zopp].
    destruct (bounded_inv _ _ Hx) as (? & _). destruct (bounded_inv _ _ Hy) as (? & _).
    destruct (Z.pos (shl_align mx ex (Z.min ex ey)).1
              - Z.pos (shl_align my ey (Z.min ex ey)).1) as [|p|p] eqn:HD;
      [lia|lia|].
    cbn [binary_normalize]. apply signed_true_ltb, binary_round_signed. lia.
Qed.

Lemma Zdigits2_succ m :
  0 < m → Zdigits2 m ≤ Zdigits2 (m + 1) ≤ Zdigits2 m + 1.
Proof.
  intros Hm. pose proof (Zdigits2_bounds m Hm) as [Hlo Hhi].
  pose proof (Zdigits2_bounds (m + 1) ltac:(lia)) as [Hlo' Hhi'].
  pose proof (Zdigits2_pos m Hm). pose proof (Zdigits2_pos (m + 1) ltac:(lia)).
  split.
  - destruct (Z.le_gt_cases (Zdigits2 m) (Zdigits2 (m + 1))) as [|Hgt]; [done|].
    assert (2 ^ Zdigits2 (m + 1) ≤ 2 ^ (Zdigits2 m - 1))
      by (apply Z.pow_le_mono_r; lia). lia.
  - destruct (Z.le_gt_cases (Zdigits2 (m + 1)) (Zdigits2 m + 1)) as [|Hgt]; [done|].
    assert (2 ^ (Zdigits2 m + 1) ≤ 2 ^ (Zdigits2 (m + 1) - 1))
      by (apply Z.pow_le_mono_r; lia).
    rewrite Z.pow_add_r in * by lia. change (2 ^ 1) with 2 in *. lia.
Qed.

Lemma Zdigits2_mul_pow2 m k :
  0 < m → 0 ≤ k → Zdigits2 (m * 2 ^ k) = Zdigits2 m + k.
Proof.
  intros Hm Hk. pose proof (Zdigits2_bounds m Hm) as [Hlo Hhi].
  pose proof (Zdigits2_pos m Hm).
  assert (0 < 2 ^ k) by (apply Z.pow_pos_nonneg; lia).
  apply Zdigits2_unique; [lia|].
  replace (Zdigits2 m + k - 1) with (Zdigits2 m - 1 + k) by lia.
  rewrite !Z.pow_add_r by lia. split.
  - apply Z.mul_le_mono_nonneg_r; lia.
  - apply Z.mul_lt_mono_pos_r; lia.
Qed.

(** One [shr_fexp] that drops fewer bits than the mantissa has leaves a
    positive mantissa in canonical position. *)
Lemma shr_fexp_canonical m e l :
  0 < m →
  e ≤ fexp prec emax (Zdigits2 m + e) →
  fexp prec emax (Zdigits2 m + e) - e < Zdigits2 m →
  0 < shr_m (shr_fexp prec emax m e l).1
  ∧ (shr_fexp prec emax m e l).2 = fexp prec emax (Zdigits2 m + e)
  ∧ Zdigits2 (shr_m (shr_fexp prec emax m e l).1) + (shr_fexp prec emax m e l).2
    = Zdigits2 m + e.
Proof.
  intros Hm He Hn. destruct (shr_fexp_spec m e l) as [-> ->]; [lia|].
  rewrite Z.max_r by lia.
  destruct (Zdigits2_shift m (fexp prec emax (Zdigits2 m + e) - e) Hm) as [? ->];
    lia.
Qed.

Lemma binary_round_aux_valid sx mx ex lx :
  0 ≤ mx →
  ex ≤ fexp prec emax (Zdigits2 mx + ex) →
  valid_binary prec emax (binary_round_aux prec emax sx mx ex lx) = true.
Proof.
  intros Hm He. unfold binary_round_aux.
  set (d := Zdigits2 mx) in *. set (E := fexp prec emax (d + ex)) in *.
  assert (HE : E = Z.max (d + ex - 53) (-1074)) by apply fexp_eq.
  (* the second shift, for a positive rounded mantissa *)
  assert (Hstage2 : ∀ m2 e1,
    0 < m2 → e1 ≤ fexp prec emax (Zdigits2 m2 + e1) →
    fexp prec emax (Zdigits2 m2 + e1) - e1 < Zdigits2 m2 →
    valid_binary prec emax
      (let '(mrs'', e'') := shr_fexp prec emax m2 e1 loc_Exact in
       match shr_m mrs'' with
       | 0 => S754_zero sx
       | Z.pos m => if e'' <=? emax - prec then S754_finite sx m e'' else S754_infinity sx
       | Z.neg _ => S754_nan
       end) = true).
  { intros m2 e1 Hm2 He1 Hn2.
    destruct (shr_fexp_canonical m2 e1 loc_Exact Hm2 He1 Hn2) as (Hp & He2 & Hd).
    destruct (shr_fexp prec emax m2 e1 loc_Exact) as [mrs2 e2]. cbn [fst snd] in *.
    destruct (shr_m mrs2) as [|p|p]; [done| |done].
    destruct (e2 <=? emax - prec) eqn:Hle; [|done].
    cbn. unfold bounded, canonical_mantissa. rewrite Hle, andb_true_r.
    apply Z.eqb_eq. cbn [Zdigits2] in Hd. rewrite Hd. done. }
  destruct (Z.le_gt_cases d (E - ex)) as [Hbig|Hsmall].
  - (* every bit is dropped *)
    destruct (shr_fexp_spec mx ex lx) as [H1m H1e]; [lia|].
    fold d in H1m, H1e. fold E in H1m, H1e.
    destruct (shr_fexp prec emax mx ex lx) as [mrs1 e1]. cbn [fst snd] in H1m, H1e.
    rewrite Z.max_r in H1m, H1e by lia.
    assert (Hm1 : shr_m mrs1 = 0).
    { rewrite H1m. apply Z.div_small. split; [done|].
      destruct (Z.eq_dec mx 0) as [->|Hne].
      - apply Z.pow_pos_nonneg; lia.
      - pose proof (Zdigits2_bounds mx ltac:(lia)) as [_ Hhi]. fold d in Hhi.
        assert (2 ^ d ≤ 2 ^ (E - ex)); [|lia].
        apply Z.pow_le_mono_r; [lia|done]. }
    rewrite Hm1.
    assert (He1 : e1 = -1074).
    { assert (0 ≤ d) by (unfold d; destruct mx; cbn; lia). lia. }
    pose proof (round_nearest_even_bounds 0 (loc_of_shr_record mrs1)) as Hr.
    destruct (Z.eq_dec (round_nearest_even 0 (loc_of_shr_record mrs1)) 0) as [->|Hne].
    + rewrite He1. done.
    + replace (round_nearest_even 0 (loc_of_shr_record mrs1)) with 1 by lia.
      rewrite He1. done.
  - (* some bits are kept *)
    assert (Hmx : 0 < mx).
    { destruct (Z.eq_dec mx 0) as [Heq|]; [|lia]. unfold d in Hsmall.
      rewrite Heq in Hsmall. cbn in Hsmall. fold d in Hsmall. lia. }
    destruct (shr_fexp_canonical mx ex lx Hmx) as (Hp1 & He1 & Hd1);
      [done|fold d; fold E; lia|].
    fold d in He1, Hd1. fold E in He1.
    destruct (shr_fexp prec emax mx ex lx) as [mrs1 e1]. cbn [fst snd] in *.
    pose proof (round_nearest_even_bounds (shr_m mrs1) (loc_of_shr_record mrs1)) as Hr.
    set (m2 := round_nearest_even (shr_m mrs1) (loc_of_shr_record mrs1)) in *.
    pose proof (Zdigits2_succ (shr_m mrs1) Hp1) as Hs.
    pose proof (Zdigits2_pos (shr_m mrs1) Hp1) as Hd1p.
    assert (Hd2 : Zdigits2 (shr_m mrs1) ≤ Zdigits2 m2 ≤ Zdigits2 (shr_m mrs1) + 1).
    { destruct (Z.eq_dec m2 (shr_m mrs1)) as [->|Hne]; [lia|].
      replace m2 with (shr_m mrs1 + 1) by lia. done. }
    apply Hstage2; [lia|rewrite fexp_eq; lia|rewrite fexp_eq; lia].
Qed.

Lemma binary_round_valid sx mx ex :
  valid_binary prec emax (binary_round prec emax sx mx ex) = true.
Proof.
  unfold binary_round.
  destruct (shl_align_spec mx ex (fexp prec emax (Zpos (digits2_pos mx) + ex)))
    as [H2 H1].
  destruct (shl_align _ _ _) as [mz ez]. cbn [fst snd] in H1, H2.
  apply binary_round_aux_valid; [lia|].
  rewrite H1, Zdigits2_mul_pow2 by lia. cbn [Zdigits2].
  replace (Zpos (digits2_pos mx) + (ex - Z.min ex (fexp prec emax (Zpos (digits2_pos mx) + ex))) + ez)
    with (Zpos (digits2_pos mx) + ex) by lia.
  lia.
Qed.

Lemma binary_normalize_valid m e szero :
  valid_binary prec emax (binary_normalize prec emax m e szero) = true.
Proof. destruct m; cbn [binary_normalize]; [done|apply binary_round_valid..]. Qed.

Lemma SFadd_valid x y :
  valid_binary prec emax x = true →
  valid_binary prec emax y = true →
  valid_binary prec emax (SFadd prec emax x y) = true.
Proof.
  intros Hx Hy.
  destruct x as [sx|sx| |sx mx ex], y as [sy|sy| |sy my ey]; cbn [SFadd];
    try done; try (by destruct sx, sy).
  apply binary_normalize_valid.
Qed.

Lemma SFsub_valid x y :
  valid_binary prec emax x = true →
  valid_binary prec emax y = true →
  valid_binary prec emax (SFsub prec emax x y) = true.
Proof.
  intros Hx Hy.
  destruct x as [sx|sx| |sx mx ex], y as [sy|sy| |sy my ey]; cbn [SFsub];
    try done; try (by destruct sx, sy).
  apply binary_normalize_valid.
Qed.

Lemma signed_false_ltb x :
  signed false x → SFltb x (S754_zero false) = false.
Proof. by intros [->|(m & e & ->)]. Qed.

Lemma binary_normalize_nonneg m e :
  0 ≤ m → -1074 ≤ e →
  SFltb (binary_normalize prec emax m e false) (S754_zero false) = false.
Proof.
  intros Hm He. destruct m as [|p|p]; [done| |lia].
  cbn [binary_normalize]. by apply signed_false_ltb, binary_round_signed.
Qed.

Lemma aligned_le mx ex my ey :
  bounded prec emax mx ex = true →
  bounded prec emax my ey = true →
  ey < ex ∨ (ex = ey ∧ Zpos my ≤ Zpos mx) →
  Zpos (shl_align my ey (Z.min ex ey)).1 ≤ Zpos (shl_align mx ex (Z.min ex ey)).1.
Proof.
  intros Hx Hy [Hlt|[-> Hle]].
  - pose proof (aligned_lt my ey mx ex Hy Hx ltac:(lia)) as Ha.
    rewrite (Z.min_comm ey ex) in Ha. lia.
  - rewrite Z.min_id. destruct (shl_align_spec mx ey ey) as [_ ->].
    destruct (shl_align_spec my ey ey) as [_ ->]. rewrite Z.min_id, Z.sub_diag. lia.
Qed.

Lemma SFsub_ge_nonnegative x y :
  valid_binary prec emax x = true →
  valid_binary prec emax y = true →
  SFltb x y = false →
  SFltb (SFsub prec emax x y) (S754_zero false) = false.
Proof.
  intros Hx Hy Hlt.
  destruct x as [sx|sx| |sx mx ex], y as [sy|sy| |sy my ey];
    try reflexivity;
    try (destruct sx; try discriminate Hlt);
    try (destruct sy; try discriminate Hlt);
    try reflexivity.
  - (* both negative *)
    cbn in Hx, Hy. unfold SFltb, SFcompare in Hlt. unfold SFsub.
    assert (Hle : ex < ey ∨ (ey = ex ∧ Zpos mx ≤ Zpos my)).
    { destruct (Z.compare_spec ex ey); [right|left; lia|discriminate Hlt].
      split; [done|]. rewrite Pos.compare_cont_spec in Hlt. cbn in Hlt.
      destruct (Pos.compare_spec mx my); try discriminate Hlt; lia. }
    pose proof (aligned_le my ey mx ex Hy Hx Hle) as Ha.
    rewrite (Z.min_comm ey ex) in Ha. cbn [cond_Zopp].
    destruct (bounded_inv _ _ Hx) as (? & _). destruct (bounded_inv _ _ Hy) as (? & _).
    apply binary_normalize_nonneg; lia.
  - (* positive minus negative *)
    cbn in Hx, Hy. unfold SFsub. cbn [cond_Zopp].
    destruct (bounded_inv _ _ Hx) as (? & _). destruct (bounded_inv _ _ Hy) as (? & _).
    apply binary_normalize_nonneg; lia.
  - (* both positive *)
    cbn in Hx, Hy. unfold SFltb, SFcompare in Hlt. unfold SFsub.
    assert (Hle : ey < ex ∨ (ex = ey ∧ Zpos my ≤ Zpos mx)).
    { destruct (Z.compare_spec ex ey); [right|discriminate Hlt|left; lia].
      split; [done|]. rewrite Pos.compare_cont_spec in Hlt. cbn in Hlt.
      destruct (Pos.compare_spec mx my); try discriminate Hlt; lia. }
    pose proof (aligned_le mx ex my ey Hx Hy Hle) as Ha. cbn [cond_Zopp].
    destruct (bounded_inv _ _ Hx) as (? & _). destruct (bounded_inv _ _ Hy) as (? & _).
    apply binary_normalize_nonneg; lia.
Qed.

(** The difference of two valid floats is negative exactly when the
    first is less than the second. *)
Lemma SFsub_ltb x y :
  valid_binary prec emax x = true →
  valid_binary prec emax y = true →
  SFltb (SFsub prec emax x y) (S754_zero false) = SFltb x y.
Proof.
  intros Hx Hy. destruct (SFltb x y) eqn:Hlt.
  - by apply SFsub_lt_negative.
  - by apply SFsub_ge_nonnegative.
Qed.

Lemma Zdigits2_lower m k : 0 ≤ k → 2 ^ k ≤ m → k + 1 ≤ Zdigits2 m.
Proof.
  intros Hk Hm. assert (0 < 2 ^ k) by (apply Z.pow_pos_nonneg; lia).
  pose proof (Zdigits2_bounds m ltac:(lia)) as [_ Hhi].
  pose proof (Zdigits2_pos m ltac:(lia)).
  assert (k < Zdigits2 m); [|lia].
  apply (Z.pow_lt_mono_r_iff 2); lia.
Qed.

(** The quotient that [SFdiv_core_binary] hands to the rounding has its
    exponent at or below the canonical one. *)
Lemma SFdiv_core_binary_spec m1 e1 m2 e2 :
  0 < m1 → 0 < m2 →
  let '(q, e', _) := SFdiv_core_binary prec emax m1 e1 m2 e2 in
  0 ≤ q ∧ e' ≤ fexp prec emax (Zdigits2 q + e').
Proof.
  intros H1 H2. unfold SFdiv_core_binary.
  set (d1 := Zdigits2 m1). set (d2 := Zdigits2 m2).
  set (e' := Z.min (fexp prec emax (d1 + e1 - (d2 + e2))) (e1 - e2)).
  set (s := e1 - e2 - e').
  assert (Hs : 0 ≤ s) by (unfold s, e'; lia).
  set (m' := match s with Z.pos _ => Z.shiftl m1 s | 0 => m1 | Z.neg _ => 0 end).
  assert (Hm' : m' = m1 * 2 ^ s).
  { unfold m'. destruct s as [|p|p] eqn:Es; [cbn; lia| |lia].
    by rewrite Z.shiftl_mul_pow2. }
  pose proof (Z_div_mod m' m2 ltac:(lia)) as Hdm.
  destruct (Z.div_eucl m' m2) as [q r]. destruct Hdm as [Hq Hr].
  assert (Hp : 0 < 2 ^ s) by (apply Z.pow_pos_nonneg; lia).
  assert (Hq0 : 0 ≤ q) by nia.
  split; [done|].
  pose proof (Zdigits2_bounds m1 H1) as [Hlo1 _]. fold d1 in Hlo1.
  pose proof (Zdigits2_bounds m2 H2) as [_ Hhi2]. fold d2 in Hhi2.
  pose proof (Zdigits2_pos m1 H1) as Hd1. fold d1 in Hd1.
  pose proof (Zdigits2_pos m2 H2) as Hd2. fold d2 in Hd2.
  assert (Hlow : 2 ^ (d1 - 1 + s) ≤ m') .
  { rewrite Hm', Z.pow_add_r by lia. apply Z.mul_le_mono_nonneg_r; lia. }
  assert (He' : e' ≤ Z.max (d1 + e1 - (d2 + e2) - 53) (-1074))
    by (unfold e'; rewrite fexp_eq; lia).
  rewrite fexp_eq.
  destruct (Z.eq_dec q 0) as [->|Hq1].
  - (* the quotient is zero *)
    cbn [Zdigits2].
    assert (d1 - 1 + s < d2).
    { apply (Z.pow_lt_mono_r_iff 2); lia. }
    unfold s in *. lia.
  - destruct (Z.le_gt_cases 0 (d1 - 1 + s - d2)) as [HK|HK].
    + assert (2 ^ (d1 - 1 + s - d2) ≤ q).
      { assert (0 < 2 ^ (d1 - 1 + s - d2)) by (apply Z.pow_pos_nonneg; lia).
        assert (2 ^ (d1 - 1 + s - d2) * 2 ^ d2 = 2 ^ (d1 - 1 + s)).
        { rewrite <- Z.pow_add_r by lia. f_equal. lia. }
        nia. }
      pose proof (Zdigits2_lower q _ HK H). unfold s in *. lia.
    + pose proof (Zdigits2_pos q ltac:(lia)). unfold s in *. lia.
Qed.

(** Every quotient is a valid float. *)
Lemma SFdiv_valid x y : valid_binary prec emax (SFdiv prec emax x y) = true.
Proof.
  destruct x as [sx|sx| |sx mx ex], y as [sy|sy| |sy my ey]; try reflexivity.
  unfold SFdiv.
  pose proof (SFdiv_core_binary_spec (Zpos mx) ex (Zpos my) ey
                ltac:(lia) ltac:(lia)) as H.
  destruct (SFdiv_core_binary prec emax (Zpos mx) ex (Zpos my) ey) as [[q e'] l].
  destruct H as [Hq He]. by apply binary_round_aux_valid.
Qed.

Lemma float_of_decimal_valid neg digits exp10 :
  valid_binary prec emax (float_of_decimal neg digits exp10) = true.
Proof.
  unfold float_of_decimal. destruct digits as [|p]; [done|].
  destruct (0 <=? exp10); [apply binary_normalize_valid|apply SFdiv_valid].
Qed.

Lemma parse_decimal_valid neg s x :
  parse_decimal neg s = Some x → valid_binary prec emax x = true.
Proof.
  unfold parse_decimal. intros H.
  repeat match type of H with
  | (let '(_, _) := ?t in _) = _ => destruct t
  | (if ?b then _ else _) = _ => destruct b
  | match ?t with _ => _ end = _ => destruct t
  end; try discriminate H; injection H as <-; apply float_of_decimal_valid.
Qed.

(** Every float that [float()] reads is a valid binary64. *)
Lemma float_of_str_valid s x :
  float_of_str s = Some x → valid_binary prec emax x = true.
Proof.
  unfold float_of_str. intros H.
  destruct (to_ascii s) as [a|]; [|done]. cbn in H.
  destruct (strip_underscores 0%N a) as [b|]; [|done]. cbn in H.
  destruct (take_sign _) as [neg d].
  destruct (_ || _); [by injection H as <-|].
  destruct (bool_decide _); [by injection H as <-|].
  by eapply parse_decimal_valid.
Qed.

Lemma fold_left_fadd_valid l acc :
  valid_binary prec emax acc = true →
  Forall (λ x, valid_binary prec emax x = true) l →
  valid_binary prec emax (fold_left fadd l acc) = true.
Proof.
  revert acc. induction l as [|x l IH]; intros acc Hacc Hl; [done|].
  apply Forall_cons in Hl as [Hx Hl]. cbn. apply IH; [|done].
  by apply SFadd_valid.
Qed.

Lemma sum_valid l :
  Forall (λ x, valid_binary prec emax x = true) l →
  valid_binary prec emax (sum l) = true.
Proof. by apply fold_left_fadd_valid. Qed.

(** ** The budget cards *)


Lemma budget_valid budget_label first :
  head (dict_values BUDGETS_GTCO2) = Some first →
  valid (dict_get BUDGETS_GTCO2 budget_label first).
Proof.
  intros [= <-]. unfold BUDGETS_GTCO2. cbn [dict_get].
  repeat case_bool_decide; vm_compute; reflexivity.
Qed.

(** ** What the fetchers return *)

Lemma owid_row_valid start_year end_year row item :
  owid_row start_year end_year row = Some item →
  start_year ≤ item.1 ≤ end_year ∧ valid item.2.
Proof.
  intros (co2_mt & (_ & y & c & _ & _ & Hr & _) & ->)%owid_row_item.
  split; [done|]. apply SFdiv_valid.
Qed.

(** Every item of the emissions series has its year in the range asked
    for and a binary64 value; no item at all when the range is empty. *)
Theorem emissions_series_items :
  ∀ net start_year end_year series,
    fetch_world_emissions_owid net start_year end_year = Return series →
    Forall (λ item, start_year ≤ item.1 ≤ end_year ∧ valid item.2) series
    ∧ (end_year < start_year → series = []).
Proof.
  intros net start_year end_year series H.
  unfold fetch_world_emissions_owid in H.
  destruct (_http_get_text net OWID_CO2_CSV) as [text|e]; [|done]. cbn in H.
  destruct (Csv.DictReader (Csv.StringIO text)) as [rows|e]; [|done]. cbn in H.
  injection H as <-. rewrite owid_loop_omap. cbn [app].
  assert (HF : Forall (λ item, start_year ≤ item.1 ≤ end_year ∧ valid item.2)
                 (sort fst (omap (owid_row start_year end_year) rows))).
  { rewrite sort_perm. apply Forall_forall. intros item Hin.
    apply list_elem_of_omap in Hin as (row & _ & Hrow).
    by eapply owid_row_valid. }
  split; [done|]. intros Hlt.
  destruct (sort fst (omap (owid_row start_year end_year) rows)) as [|item l]; [done|].
  apply Forall_cons in HF as [[? _] _]. lia.
Qed.

Lemma emissions_series_items_witness :
  ∃ series,
    fetch_world_emissions_owid (serving sample_owid) 2020 2024 = Return series
    ∧ Forall (λ item, 2020 ≤ item.1 ≤ 2024 ∧ valid item.2) series
    ∧ (2024 < 2020 → series = []).
Proof.
  eexists. split; [apply sample_owid_series|].
  apply (emissions_series_items (serving sample_owid)), sample_owid_series.
Defined.

Lemma noaa_loop_return lines rows out :
  noaa_loop lines rows = Return out → out = rows ++ omap noaa_dated lines.
Proof.
  revert rows. induction lines as [|line lines IH]; intros rows.
  - cbn. intros [= <-]. by rewrite app_nil_r.
  - rewrite noaa_loop_cons. cbn [omap list_omap]. unfold noaa_dated at 1.
    destruct (noaa_line line) as [[[[year month] day] avg]|]; cbn; [|apply IH].
    destruct (new_datetime year month day) as [dt|e]; cbn; [|done].
    intros ->%IH. by rewrite <- app_assoc.
Qed.

Lemma max_go_elem {A K} (key : A -> K) (ltb : K -> K -> bool) best l :
  max_go key ltb best l ∈ best :: l.
Proof.
  revert best. induction l as [|x l IH]; intros best; cbn [max_go].
  - apply list_elem_of_here.
  - destruct (ltb (key best) (key x)).
    + apply list_elem_of_further, IH.
    + specialize (IH best).
      apply elem_of_cons in IH as [->|IH]; [apply list_elem_of_here|].
      by do 2 apply list_elem_of_further.
Qed.

Lemma new_datetime_return y m d dt :
  new_datetime y m d = Return dt → dt = {| year := y; month := m; day := d |}.
Proof.
  unfold new_datetime.
  repeat (match goal with |- context [if ?b then _ else _] => destruct b end);
    by intros [=].
Qed.

Lemma noaa_dated_record line dt avg :
  noaa_dated line = Some (dt, avg) →
  noaa_record line (year dt) (month dt) (day dt) avg
  ∧ new_datetime (year dt) (month dt) (day dt) = Return dt.
Proof.
  unfold noaa_dated.
  destruct (noaa_line line) as [[[[y m] d] a]|] eqn:Hl; [|done]. cbn.
  destruct (new_datetime y m d) as [dt'|e] eqn:Hd; [|done].
  intros [= -> ->]. pose proof (new_datetime_return _ _ _ _ Hd) as ->.
  cbn. split; [by apply noaa_line_record|done].
Qed.

Lemma not_fleb_zero x :
  fleb x float_of_int_0 = false →
  fltb float_of_int_0 x = true ∨ x = S754_nan.
Proof. destruct x as [[]|[]| |[] m e]; cbn; auto; discriminate. Qed.

(** What the concentration fetcher returns, when it returns: one of the
    records of the file, with the date the record gives, which exists;
    its mean is a binary64 value that is not [<= 0], that is, greater
    than zero or NaN.  A mean that reads as NaN does pass the filter. *)
Theorem noaa_snapshot_is_a_record :
  (∀ net snap,
     fetch_latest_noaa_daily_ppm net = Return snap →
     (∃ text line,
        _http_get_text net NOAA_DAILY_CSV = Return text
        ∧ line ∈ splitlines text
        ∧ noaa_record line (year (date snap)) (month (date snap))
            (day (date snap)) (ppm snap))
     ∧ new_datetime (year (date snap)) (month (date snap)) (day (date snap))
       = Return (date snap)
     ∧ valid (ppm snap)
     ∧ fleb (ppm snap) float_of_int_0 = false
     ∧ (fltb float_of_int_0 (ppm snap) = true ∨ ppm snap = S754_nan))
  ∧ fetch_latest_noaa_daily_ppm (serving sample_noaa_nan)
    = Return {| date := {| year := 2024; month := 1; day := 6 |};
                ppm := S754_nan |}.
Proof.
  split; [|vm_compute; reflexivity].
  intros net snap H. unfold fetch_latest_noaa_daily_ppm in H.
  destruct (_http_get_text net NOAA_DAILY_CSV) as [text|e] eqn:Hget; [|done].
  cbn in H.
  destruct (noaa_loop (splitlines text) []) as [rows|e] eqn:Hloop; [|done].
  cbn in H. apply noaa_loop_return in Hloop. cbn in Hloop. subst rows.
  destruct (omap noaa_dated (splitlines text)) as [|r rs] eqn:Hrows; [done|].
  rewrite bool_decide_eq_false_2 in H by done. cbn [max] in H.
  pose proof (max_go_elem fst datetime_ltb r rs) as Hin.
  destruct (max_go fst datetime_ltb r rs) as [dt avg]. injection H as <-.
  rewrite <- Hrows in Hin. apply list_elem_of_omap in Hin as (line & Hline & Hd).
  apply noaa_dated_record in Hd as [Hrec Hdt]. cbn [date ppm].
  pose proof Hrec as (_ & _ & p0 & p1 & p2 & p3 & p4 & rest & _ & _ & _ & _ & Hf & Hle).
  split; [by exists text, line|]. split; [done|].
  split; [by eapply float_of_str_valid|]. split; [done|].
  by apply not_fleb_zero.
Qed.

Lemma noaa_snapshot_is_a_record_witness :
  ∃ snap,
    fetch_latest_noaa_daily_ppm (serving sample_noaa) = Return snap
    ∧ (∃ text line,
         _http_get_text (serving sample_noaa) NOAA_DAILY_CSV = Return text
         ∧ line ∈ splitlines text
         ∧ noaa_record line (year (date snap)) (month (date snap))
             (day (date snap)) (ppm snap))
    ∧ new_datetime (year (date snap)) (month (date snap)) (day (date snap))
      = Return (date snap)
    ∧ valid (ppm snap)
    ∧ fleb (ppm snap) float_of_int_0 = false
    ∧ (fltb float_of_int_0 (ppm snap) = true ∨ ppm snap = S754_nan).
Proof.
  eexists. split; [vm_compute; reflexivity|].
  apply (proj1 noaa_snapshot_is_a_record (serving sample_noaa)).
  vm_compute. reflexivity.
Defined.

Lemma noaa_loop_records lines rows :
  noaa_loop lines rows = noaa_records_loop (omap noaa_line lines) rows.
Proof.
  revert rows. induction lines as [|line lines IH]; intros rows; [done|].
  rewrite noaa_loop_cons. cbn [omap list_omap].
  destruct (noaa_line line) as [[[[year month] day] avg]|]; [|apply IH].
  cbn [noaa_records_loop]. destruct (new_datetime year month day); cbn; [|done].
  apply IH.
Qed.

(** Only the records of the file count: two files whose lines, once
    the lines that are no record are left out, read as the same
    sequence of values give the same result, be it a snapshot or an
    exception. *)
Theorem noaa_only_records_count :
  ∀ net1 net2 text1 text2,
    _http_get_text net1 NOAA_DAILY_CSV = Return text1 →
    _http_get_text net2 NOAA_DAILY_CSV = Return text2 →
    omap noaa_line (splitlines text1) = omap noaa_line (splitlines text2) →
    fetch_latest_noaa_daily_ppm net1 = fetch_latest_noaa_daily_ppm net2.
Proof.
  intros net1 net2 text1 text2 H1 H2 Heq. unfold fetch_latest_noaa_daily_ppm.
  rewrite H1, H2. cbn [mbind result_bind]. by rewrite !noaa_loop_records, Heq.
Qed.

Lemma noaa_only_records_count_witness :
  fetch_latest_noaa_daily_ppm (serving sample_noaa)
  = fetch_latest_noaa_daily_ppm (serving sample_noaa_noisy).
Proof.
  apply (noaa_only_records_count (serving sample_noaa) (serving sample_noaa_noisy)
           sample_noaa sample_noaa_noisy); vm_compute; reflexivity.
Defined.

(** ** The start year *)

(** The start year read from the box: the state is left as it is; the
    year is never after the current year, and never before 1990 when
    the current year is not; a text that reads as an integer of that
    range is taken as it is, a text that does not read as an integer
    counts as 2020. *)
Theorem parse_start_year_clamped :
  ∀ nowy self,
    ∃ y,
      _parse_start_year_main_thread nowy self = (Return y, self)
      ∧ y ≤ nowy
      ∧ (1990 ≤ nowy → 1990 ≤ y)
      ∧ (∀ z, int (strip (budget_start_year self)) = Some z →
              (1990 ≤ z ≤ nowy → y = z)
              ∧ (z < 1990 ≤ nowy → y = 1990)
              ∧ (nowy < z → 1990 ≤ nowy → y = nowy))
      ∧ (int (strip (budget_start_year self)) = None → y = Z.min 2020 nowy).
Proof.
  intros nowy self. unfold _parse_start_year_main_thread.
  eexists. split; [reflexivity|].
  destruct (int (strip (budget_start_year self))) as [z|].
  - destruct (Z.ltb_spec z 1990);
      match goal with |- context [?a <? ?b] => destruct (Z.ltb_spec a b) end;
      (split; [lia|]); (split; [lia|]); (split; [|done]);
      intros ? [= <-]; lia.
  - change (2020 <? 1990) with false. cbv iota.
    destruct (Z.ltb_spec nowy 2020);
      (split; [lia|]); (split; [lia|]); (split; [done|]); lia.
Qed.

(** ** The cards that [render] leaves *)

Lemma insert_agree {V} (k : str) (v : V) (m1 m2 : gmap (list N) V) j :
  (j ≠ k → m1 !! j = m2 !! j) → <[k := v]> m1 !! j = <[k := v]> m2 !! j.
Proof.
  intros H. destruct (decide (j = k)) as [->|Hne].
  - by rewrite !lookup_insert_eq.
  - rewrite !lookup_insert_ne by done. by apply H.
Qed.

(** The cards after [render] depend on the cards before only outside
    the five titles. *)
Lemma render_cards_agree snap emissions start_year end_year budget_label s1 s2 :
  cards_ok s1 → cards_ok s2 →
  (∀ k, k ∉ titles → cards s1 !! k = cards s2 !! k) →
  cards (render snap emissions start_year end_year budget_label s1).2
  = cards (render snap emissions start_year end_year budget_label s2).2.
Proof.
  intros H1 H2 Hk.
  rewrite (render_ok snap emissions start_year end_year budget_label s1) by exact H1.
  rewrite (render_ok snap emissions start_year end_year budget_label s2) by exact H2.
  cbn [snd cards set_cards].
  apply map_eq. intros j. do 5 (apply insert_agree; intros ?).
  apply Hk. intros Hin. unfold titles in Hin.
  repeat (apply elem_of_cons in Hin as [->|Hin]; [congruence|]).
  by apply elem_of_nil in Hin.
Qed.

Lemma render_cards_off_titles snap emissions start_year end_year budget_label self k :
  cards_ok self → k ∉ titles →
  cards (render snap emissions start_year end_year budget_label self).2 !! k
  = cards self !! k.
Proof.
  intros Hok Hk.
  rewrite (render_ok snap emissions start_year end_year budget_label self) by exact Hok.
  cbn [snd cards set_cards].
  assert (Hne : ∀ t, t ∈ titles → t ≠ k) by (intros t Ht ->; exact (Hk Ht)).
  assert (Ht : ∀ i t, titles !! i = Some t → t ∈ titles)
    by (intros i t; apply list_elem_of_lookup_2).
  rewrite lookup_insert_ne by (apply Hne, (Ht 4%nat); reflexivity).
  rewrite lookup_insert_ne by (apply Hne, (Ht 3%nat); reflexivity).
  rewrite lookup_insert_ne by (apply Hne, (Ht 2%nat); reflexivity).
  rewrite lookup_insert_ne by (apply Hne, (Ht 1%nat); reflexivity).
  rewrite lookup_insert_ne by (apply Hne, (Ht 0%nat); reflexivity).
  reflexivity.
Qed.

Lemma cards_ok_render snap emissions start_year end_year budget_label self :
  cards_ok self →
  cards_ok (render snap emissions start_year end_year budget_label self).2.
Proof.
  intros Hok.
  rewrite (render_ok snap emissions start_year end_year budget_label self) by exact Hok.
  cbn [snd]. intros t Ht. cbn [cards set_cards].
  repeat (apply lookup_insert_is_Some'; right). exact (Hok t Ht).
Qed.

Lemma cards_ok_cards s1 s2 : cards s1 = cards s2 → cards_ok s1 → cards_ok s2.
Proof. intros Heq Hok t Ht. rewrite <- Heq. exact (Hok t Ht). Qed.

Lemma render_snd snap emissions start_year end_year budget_label self :
  cards_ok self →
  render snap emissions start_year end_year budget_label self
  = (Return tt,
     set_cards (cards (render snap emissions start_year end_year budget_label self).2)
       self).
Proof.
  intros Hok.
  rewrite (render_ok snap emissions start_year end_year budget_label self) by exact Hok.
  reflexivity.
Qed.

Lemma set_cards_set_cards c1 c2 self :
  set_cards c2 (set_cards c1 self) = set_cards c2 self.
Proof. reflexivity. Qed.

(** [render] writes all five cards: what an earlier [render] wrote is
    gone, and rendering the same data twice is rendering it once. *)
Theorem render_overwrites :
  ∀ snap1 emissions1 start_year1 end_year1 budget_label1
    snap2 emissions2 start_year2 end_year2 budget_label2 self,
    cards_ok self →
    render snap2 emissions2 start_year2 end_year2 budget_label2
      (render snap1 emissions1 start_year1 end_year1 budget_label1 self).2
    = render snap2 emissions2 start_year2 end_year2 budget_label2 self.
Proof.
  intros snap1 emissions1 start_year1 end_year1 budget_label1
    snap2 emissions2 start_year2 end_year2 budget_label2 self Hok.
  pose proof (cards_ok_render snap1 emissions1 start_year1 end_year1
                budget_label1 self Hok) as Hok1.
  rewrite (render_snd snap2 emissions2 start_year2 end_year2 budget_label2 _ Hok1).
  rewrite (render_snd snap2 emissions2 start_year2 end_year2 budget_label2 self Hok).
  rewrite (render_cards_agree snap2 emissions2 start_year2 end_year2
             budget_label2 _ self Hok1 Hok).
  - rewrite (render_snd snap1 emissions1 start_year1 end_year1 budget_label1
               self Hok).
    reflexivity.
  - intros k Hk. by apply render_cards_off_titles.
Qed.

Lemma render_overwrites_witness :
  render sample_snapshot sample_emissions 2020 2021 (u "no such budget")
    (render sample_snapshot [] 1990 2000 [] new_App).2
  = render sample_snapshot sample_emissions 2020 2021 (u "no such budget") new_App.
Proof.
  apply (render_overwrites sample_snapshot [] 1990 2000 []
           sample_snapshot sample_emissions 2020 2021 (u "no such budget")
           new_App cards_ok_new_App).
Defined.

(** ** The running application *)

Section AppFacts.
Variable format_exc : exn -> str.

Lemma refresh_async_start nowy1 nowy2 self start_year :
  _refresh_in_flight self = false →
  _parse_start_year_main_thread nowy1 self = (Return start_year, self) →
  refresh_async nowy1 nowy2 self
  = (Return tt,
     set_threads (threads self ++ [(start_year, nowy2, budget_choice self)])
       (set_status_text [Text (u "Refreshing…")]
          (set_refresh_btn disabled (set_refresh_in_flight true self)))).
Proof.
  intros Hf Hp. unfold refresh_async. rewrite Hf.
  unfold _parse_start_year_main_thread in Hp. injection Hp as Hp.
  subst start_year. reflexivity.
Qed.

Lemma controls_inv_init nowy1 nowy2 : controls_inv (__init__ nowy1 nowy2).
Proof. split; [reflexivity|]. cbn. split; reflexivity. Qed.

Lemma controls_inv_step self ev :
  cards_ok self → controls_inv self → controls_inv (step format_exc self ev).
Proof.
  intros Hok [Ha Hc]. destruct ev as [nowy1 nowy2|now|i net|s|s]; cbn [step].
  - unfold refresh_async. destruct (_refresh_in_flight self) eqn:Hf.
    + split; [exact Ha|]. cbn [snd]. rewrite Hf. exact Hc.
    + split; [exact Ha|]. cbn. split; reflexivity.
  - rewrite Ha.
    destruct (_q self) as [|[snap emissions start_year end_year budget_label|tb] q]
      eqn:Hq.
    + rewrite poll_empty by exact Hq. split; [reflexivity|]. exact Hc.
    + rewrite (poll_ok _ _ snap emissions start_year end_year budget_label q)
        by exact Hq.
      rewrite (render_ok snap emissions start_year end_year budget_label)
        by exact Hok.
      split; [reflexivity|]. cbn. split; [reflexivity|]. right. by exists now.
    + rewrite (poll_err _ _ tb q) by exact Hq.
      split; [reflexivity|]. cbn. split; [reflexivity|]. by left.
  - destruct (threads self !! i) as [[[start_year end_year] budget_label]|];
      (split; [exact Ha|exact Hc]).
  - split; [exact Ha|exact Hc].
  - split; [exact Ha|exact Hc].
Qed.

Lemma reachable_controls self : reachable format_exc self → controls_inv self.
Proof.
  induction 1 as [|self ev Hr IH]; [apply controls_inv_init|].
  apply controls_inv_step; [|exact IH]. by apply (reachable_inv format_exc).
Qed.

Lemma worker_message_fetched net start_year end_year budget_label :
  message_fetched (worker_message format_exc net start_year end_year budget_label).
Proof.
  unfold worker_message.
  destruct (fetch_latest_noaa_daily_ppm net) as [snap|e] eqn:H1; [|exact I].
  destruct (fetch_world_emissions_owid net start_year end_year) as [emissions|e]
    eqn:H2; [|exact I].
  exists net. by split.
Qed.

Lemma display_inv_init nowy1 nowy2 : display_inv (__init__ nowy1 nowy2).
Proof. split; [apply Forall_nil_2|reflexivity]. Qed.

Lemma display_inv_step self ev :
  cards_ok self → display_inv self → display_inv (step format_exc self ev).
Proof.
  intros Hok [Hq Hd]. destruct ev as [nowy1 nowy2|now|i net|s|s]; cbn [step].
  - unfold refresh_async. destruct (_refresh_in_flight self); by split.
  - destruct (after_poll_queue self) as [|n]; [by split|].
    destruct (_q self) as [|[snap emissions start_year end_year budget_label|tb] q]
      eqn:Hq'.
    + rewrite poll_empty by exact Hq'. split; [|exact Hd]. cbn. by rewrite Hq'.
    + apply Forall_cons in Hq as [Hm Hq].
      rewrite (poll_ok _ _ snap emissions start_year end_year budget_label q)
        by exact Hq'.
      rewrite (render_snd snap emissions start_year end_year budget_label)
        by exact Hok.
      split; [exact Hq|]. cbn [snd last_snapshot set_after_poll_queue
        set_refresh_btn set_refresh_in_flight set_status_text set_cards
        set_last_snapshot cards].
      exists emissions, start_year, end_year, budget_label. split; [|exact Hm].
      apply render_cards_agree; [exact Hok|apply cards_ok_new_App|].
      intros k Hk. cbn [cards set_last_snapshot set_q set_after_poll_queue].
      destruct (last_snapshot self) as [snap'|]; [|by rewrite Hd].
      destruct Hd as (emissions' & start_year' & end_year' & budget_label' & -> & _).
      apply render_cards_off_titles; [apply cards_ok_new_App|exact Hk].
    + apply Forall_cons in Hq as [_ Hq].
      rewrite (poll_err _ _ tb q) by exact Hq'. by split.
  - destruct (threads self !! i) as [[[start_year end_year] budget_label]|];
      [|by split].
    split; [|exact Hd]. cbn [_q set_q]. rewrite refresh_worker_put.
    apply Forall_app. split; [exact Hq|].
    apply Forall_singleton, worker_message_fetched.
  - by split.
  - by split.
Qed.

Lemma reachable_display self : reachable format_exc self → display_inv self.
Proof.
  induction 1 as [|self ev Hr IH]; [apply display_inv_init|].
  apply display_inv_step; [|exact IH]. by apply (reachable_inv format_exc).
Qed.

(** In every state the application can reach, the cards are as
    [__init__] made them as long as no snapshot is kept, and from then
    on they are what [render] makes of the kept snapshot and an
    emissions series that the two fetchers returned together, on one
    behaviour of the network, for the years shown. *)
Theorem display_shows_fetched_data :
  ∀ self,
    reachable format_exc self →
    match last_snapshot self with
    | None => cards self = cards new_App
    | Some snap =>
      ∃ emissions start_year end_year budget_label net,
        cards self
        = cards (render snap emissions start_year end_year budget_label new_App).2
        ∧ fetch_latest_noaa_daily_ppm net = Return snap
        ∧ fetch_world_emissions_owid net start_year end_year = Return emissions
    end.
Proof.
  intros self Hr. destruct (reachable_display self Hr) as [_ Hd].
  destruct (last_snapshot self) as [snap|]; [|exact Hd].
  destruct Hd as (emissions & start_year & end_year & budget_label & Hc & net & H1 & H2).
  exists emissions, start_year, end_year, budget_label, net.
  split; [exact Hc|]. split; [exact H1|exact H2].
Qed.

(** A whole refresh that succeeds, from a state with no refresh in
    flight: the click starts one worker with the start year read from
    the box, the current year and the budget selected at that moment;
    the worker puts one result; the poll that drains it keeps the
    snapshot, renders the result with the budget label of the click
    even when the selection was changed in between, reports the
    update, and enables the button again. *)
Theorem refresh_cycle_success :
  ∀ self nowy1 nowy2 start_year choice box net now snap emissions,
    reachable format_exc self →
    _refresh_in_flight self = false →
    _parse_start_year_main_thread nowy1 self = (Return start_year, self) →
    fetch_latest_noaa_daily_ppm net = Return snap →
    fetch_world_emissions_owid net start_year nowy2 = Return emissions →
    let self1 := step format_exc self (Refresh nowy1 nowy2) in
    let self2 :=
      step format_exc (step format_exc self1 (SetBudgetChoice choice))
        (SetBudgetStartYear box) in
    let self3 := step format_exc self2 (WorkerDone 0 net) in
    let self4 := step format_exc self3 (Poll now) in
    threads self1 = [(start_year, nowy2, budget_choice self)]
    ∧ _q self3 = [ok snap emissions start_year nowy2 (budget_choice self)]
    ∧ threads self3 = []
    ∧ last_snapshot self4 = Some snap
    ∧ cards self4
      = cards (render snap emissions start_year nowy2 (budget_choice self) self).2
    ∧ status self4 = [Text (u "Updated "); Text now]
    ∧ _refresh_in_flight self4 = false
    ∧ refresh_btn self4 = normal
    ∧ _q self4 = []
    ∧ threads self4 = []
    ∧ budget_choice self4 = choice
    ∧ budget_start_year self4 = box
    ∧ dialogs self4 = dialogs self
    ∧ after_poll_queue self4 = 1%nat.
Proof.
  intros self nowy1 nowy2 start_year choice box net now snap emissions
    Hr Hf Hp H1 H2 self1 self2 self3 self4.
  pose proof (reachable_inv format_exc self Hr) as [Hok Hn].
  pose proof (reachable_controls self Hr) as [Ha _].
  rewrite Hf in Hn.
  assert (Ht : threads self = []) by (destruct (threads self); [done|cbn in Hn; lia]).
  assert (Hq : _q self = []).
  { rewrite Ht in Hn. by destruct (_q self). }
  assert (E1 : self1
    = set_threads [(start_year, nowy2, budget_choice self)]
        (set_status_text [Text (u "Refreshing…")]
           (set_refresh_btn disabled (set_refresh_in_flight true self)))).
  { unfold self1. cbn [step].
    rewrite (refresh_async_start nowy1 nowy2 self start_year Hf Hp).
    cbn [snd]. by rewrite Ht. }
  assert (E3 : self3
    = set_q [ok snap emissions start_year nowy2 (budget_choice self)]
        (set_threads []
           (set_budget_start_year box (set_budget_choice choice self1)))).
  { unfold self3, self2. rewrite E1. cbn [step threads set_threads
      set_budget_start_year set_budget_choice lookup list_lookup].
    rewrite refresh_worker_put. unfold worker_message. rewrite H1, H2.
    cbn. by rewrite Hq. }
  assert (E4 : self4
    = set_after_poll_queue 1
        (set_refresh_btn normal
           (set_refresh_in_flight false
              (set_status_text [Text (u "Updated "); Text now]
                 (set_cards
                    (cards (render snap emissions start_year nowy2
                              (budget_choice self) self).2)
                    (set_last_snapshot (Some snap) (set_q [] self3))))))).
  { set (C := cards (render snap emissions start_year nowy2
                       (budget_choice self) self).2).
    unfold self4. rewrite E3, E1. cbn [step after_poll_queue set_q set_threads
      set_budget_start_year set_budget_choice set_status_text set_refresh_btn
      set_refresh_in_flight]. rewrite Ha.
    rewrite (poll_ok _ _ snap emissions start_year nowy2 (budget_choice self) [])
      by reflexivity.
    rewrite (render_snd snap emissions start_year nowy2 (budget_choice self))
      by exact Hok.
    erewrite (render_cards_agree snap emissions start_year nowy2
                (budget_choice self) _ self);
      [fold C; reflexivity|exact Hok|exact Hok|intros k _; reflexivity]. }
  rewrite E4, E3, E1. repeat split.
Qed.

End AppFacts.

Lemma reachable_sample_App : reachable sample_format_exc sample_App.
Proof. unfold sample_App. apply reachable_step, reachable_step, reachable_init. Qed.

Lemma display_shows_fetched_data_witness :
  match last_snapshot sample_App with
  | None => cards sample_App = cards new_App
  | Some snap =>
    ∃ emissions start_year end_year budget_label net,
      cards sample_App
      = cards (render snap emissions start_year end_year budget_label new_App).2
      ∧ fetch_latest_noaa_daily_ppm net = Return snap
      ∧ fetch_world_emissions_owid net start_year end_year = Return emissions
  end.
Proof.
  exact (display_shows_fetched_data sample_format_exc sample_App
           reachable_sample_App).
Defined.

Lemma refresh_cycle_success_witness :
  let self := sample_App in
  let choice := u "1.5°C budget (66% chance) ~420 GtCO₂" in
  let now := u "2024-01-06 12:05:00" in
  let self1 := step sample_format_exc self (Refresh 2024 2024) in
  let self2 :=
    step sample_format_exc (step sample_format_exc self1 (SetBudgetChoice choice))
      (SetBudgetStartYear (u "1995")) in
  let self3 := step sample_format_exc self2 (WorkerDone 0 sample_network) in
  let self4 := step sample_format_exc self3 (Poll now) in
  threads self1 = [(2020, 2024, budget_choice self)]
  ∧ _q self3 = [ok sample_snapshot sample_series 2020 2024 (budget_choice self)]
  ∧ threads self3 = []
  ∧ last_snapshot self4 = Some sample_snapshot
  ∧ cards self4
    = cards (render sample_snapshot sample_series 2020 2024 (budget_choice self)
               self).2
  ∧ status self4 = [Text (u "Updated "); Text now]
  ∧ _refresh_in_flight self4 = false
  ∧ refresh_btn self4 = normal
  ∧ _q self4 = []
  ∧ threads self4 = []
  ∧ budget_choice self4 = choice
  ∧ budget_start_year self4 = u "1995"
  ∧ dialogs self4 = dialogs self
  ∧ after_poll_queue self4 = 1%nat.
Proof.
  apply (refresh_cycle_success sample_format_exc sample_App 2024 2024 2020
           (u "1.5°C budget (66% chance) ~420 GtCO₂") (u "1995") sample_network
           (u "2024-01-06 12:05:00") sample_snapshot sample_series
           reachable_sample_App);
    vm_compute; reflexivity.
Defined.

(** ** [render] and the cards it needs *)

Lemma render_cases snap emissions start_year end_year budget_label self :
  match render snap emissions start_year end_year budget_label self with
  | (Return _, _) => cards_ok self
  | (Raise e, _) =>
    ∃ title, title ∈ titles ∧ e = KeyError title ∧ cards self !! title = None
  end.
Proof.
  assert (Ht : ∀ i t, titles !! i = Some t → t ∈ titles)
    by (intros i t; apply list_elem_of_lookup_2).
  unfold render.
  change (index0 (dict_values BUDGETS_GTCO2)) with (Return (float_lit "580.0")).
  unfold bindM at 1; unfold lift at 1. cbv beta iota.
  unfold bindM at 1. unfold _set_card at 1.
  destruct (cards self !! u "Latest CO₂ (ppm)") eqn:E0; cbv beta iota;
    [|eexists; split; [apply (Ht 0%nat); reflexivity|split; [reflexivity|exact E0]]].
  unfold bindM at 1. unfold _set_card at 1. cbn [cards set_cards].
  do 1 (rewrite lookup_insert_ne by str_ne).
  destruct (cards self !! u "CO₂ in atmosphere (GtCO₂)") eqn:E1; cbv beta iota;
    [|eexists; split; [apply (Ht 1%nat); reflexivity|split; [reflexivity|exact E1]]].
  unfold bindM at 1. unfold _set_card at 1. cbn [cards set_cards].
  do 2 (rewrite lookup_insert_ne by str_ne).
  destruct (cards self !! u "Above pre-industrial (ppm)") eqn:E2; cbv beta iota;
    [|eexists; split; [apply (Ht 2%nat); reflexivity|split; [reflexivity|exact E2]]].
  unfold bindM at 1. unfold _set_card at 1. cbn [cards set_cards].
  do 3 (rewrite lookup_insert_ne by str_ne).
  destruct (cards self !! u "Estimated budget used (GtCO₂)") eqn:E3; cbv beta iota;
    [|eexists; split; [apply (Ht 3%nat); reflexivity|split; [reflexivity|exact E3]]].
  unfold _set_card at 1. cbn [cards set_cards].
  do 4 (rewrite lookup_insert_ne by str_ne).
  destruct (cards self !! u "Estimated budget remaining (GtCO₂)") eqn:E4;
    cbv beta iota;
    [|eexists; split; [apply (Ht 4%nat); reflexivity|split; [reflexivity|exact E4]]].
  intros t Hin. unfold titles in Hin.
  repeat (apply elem_of_cons in Hin as [->|Hin];
          [first [rewrite E0|rewrite E1|rewrite E2|rewrite E3|rewrite E4];
           eexists; reflexivity|]).
  by apply elem_of_nil in Hin.
Qed.

(** [render] returns normally exactly when the five cards exist; when
    it raises, it raises [KeyError] for a title that has no card. *)
Theorem render_needs_cards :
  ∀ snap emissions start_year end_year budget_label self,
    (cards_ok self
     ↔ ∃ self',
         render snap emissions start_year end_year budget_label self
         = (Return tt, self'))
    ∧ (∀ e self',
         render snap emissions start_year end_year budget_label self
         = (Raise e, self') →
         ∃ title,
           title ∈ titles ∧ e = KeyError title ∧ cards self !! title = None).
Proof.
  intros snap emissions start_year end_year budget_label self.
  pose proof (render_cases snap emissions start_year end_year budget_label self)
    as Hc.
  split; [split|].
  - intros Hok. eexists.
    apply (render_ok snap emissions start_year end_year budget_label self Hok).
  - intros [self' H]. rewrite H in Hc. exact Hc.
  - intros e self' H. rewrite H in Hc. exact Hc.
Qed.

(** ** Missing columns *)

Lemma make_row_lookup_None fieldnames row k :
  k ∉ fieldnames → Csv.make_row fieldnames row !! k = None.
Proof.
  intros Hk. unfold Csv.make_row.
  assert (H1 : ∀ (l : list (str * str)) (d : gmap (list N) (option (list N))),
             k ∉ l.*1 → d !! k = None →
             foldl (λ d kv, <[kv.1 := Some kv.2]> d) d l !! k = None).
  { induction l as [|kv l IH]; intros d Hl Hd; [exact Hd|].
    cbn in Hl |- *. apply not_elem_of_cons in Hl as [Hne Hl].
    apply IH; [exact Hl|]. rewrite lookup_insert_ne by congruence. exact Hd. }
  assert (H2 : ∀ (l : list str) (d : gmap (list N) (option (list N))),
             k ∉ l → d !! k = None →
             foldl (λ d key, <[key := None]> d) d l !! k = None).
  { induction l as [|key l IH]; intros d Hl Hd; [exact Hd|].
    cbn. apply not_elem_of_cons in Hl as [Hne Hl].
    apply IH; [exact Hl|]. rewrite lookup_insert_ne by congruence. exact Hd. }
  apply H2.
  - intros Hin. apply Hk. exact (subseteq_drop _ _ _ Hin).
  - apply H1; [|apply lookup_empty].
    intros Hin. apply Hk. apply list_elem_of_fmap in Hin as ([a b] & -> & Hin).
    by apply elem_of_zip_l in Hin.
Qed.

Lemma owid_row_missing start_year end_year row :
  row !! u "country" = None ∨ row !! u "year" = None ∨ row !! u "co2" = None →
  owid_row start_year end_year row = None.
Proof.
  intros H. unfold owid_row.
  destruct (bool_decide (row !! u "country" = Some (Some (u "World")))) eqn:Hc;
    [|reflexivity].
  apply bool_decide_eq_true in Hc. cbn [negb].
  destruct H as [H|[H|H]]; [congruence| |].
  - rewrite H. reflexivity.
  - rewrite H. destruct (row !! u "year") as [[y|]|]; try reflexivity.
    destruct (int y) as [year|]; [|reflexivity].
    destruct ((year <? start_year) || (end_year <? year)); reflexivity.
Qed.

(** A response body with no record at all, or whose header record
    lacks one of the columns [country], [year] and [co2], gives the
    empty series when the csv reader reads all of it: the [KeyError] of
    a missing [year] is caught as every row's is.  When the csv reader
    cannot read the body, the fetcher raises [csv.Error] whatever the
    header; a bare carriage return inside a row does that. *)
Theorem emissions_missing_column :
  (∀ net start_year end_year text,
     _http_get_text net OWID_CO2_CSV = Return text →
     match Csv.reader (Csv.StringIO text) with
     | Raise e =>
       e = csv_Error
       ∧ fetch_world_emissions_owid net start_year end_year = Raise csv_Error
     | Return [] =>
       fetch_world_emissions_owid net start_year end_year = Return []
     | Return (fieldnames :: _) =>
       u "country" ∉ fieldnames ∨ u "year" ∉ fieldnames ∨ u "co2" ∉ fieldnames →
       fetch_world_emissions_owid net start_year end_year = Return []
     end)
  ∧ fetch_world_emissions_owid (serving sample_owid_bare_cr) 2020 2024
    = Raise csv_Error.
Proof.
  split; [|by vm_compute].
  intros net start_year end_year text Hget.
  unfold fetch_world_emissions_owid. rewrite Hget. cbn [mbind result_bind].
  unfold Csv.DictReader.
  destruct (Csv.reader (Csv.StringIO text)) as [[|fieldnames rest]|e] eqn:Hr;
    cbn [mbind result_bind].
  - reflexivity.
  - intros H. rewrite owid_loop_omap. cbn [app].
    replace (omap (owid_row start_year end_year)
               (Csv.make_row fieldnames <$> filter (λ row, row ≠ []) rest))
      with (@nil (Z * float)); [reflexivity|].
    symmetry. induction (filter (λ row, row ≠ []) rest) as [|row rows IH];
      [reflexivity|].
    cbn [fmap list_fmap omap list_omap]. rewrite owid_row_missing; [exact IH|].
    destruct H as [H|[H|H]]; [left|right; left|right; right];
      by apply make_row_lookup_None.
  - apply reader_go_raise in Hr as ->. by split.
Qed.

Lemma emissions_missing_column_witness :
  fetch_world_emissions_owid (serving sample_owid_no_year) 2020 2024 = Return [].
Proof.
  pose proof (proj1 emissions_missing_column (serving sample_owid_no_year)
                2020 2024 sample_owid_no_year eq_refl) as H.
  assert (R : Csv.reader (Csv.StringIO sample_owid_no_year)
              = Return [[u "country"; u "co2"]; [u "World"; u "37000.5"]])
    by (vm_compute; reflexivity).
  rewrite R in H. apply H.
  right. left. apply (bool_decide_unpack _). vm_compute. exact I.
Defined.

(** ** A refresh that fails *)

Section FailureFacts.
Variable format_exc : exn -> str.

(** A whole refresh that fails, from a state with no refresh in flight,
    whichever fetcher raises: the worker puts one [err] message with
    the traceback of that exception; the poll that drains it shows the
    error dialog with it, sets the status to the error notice, leaves
    cards, snapshot and settings as they were, and enables the button
    again, so that the next click starts a new worker. *)
Theorem refresh_cycle_failure :
  ∀ self nowy1 nowy2 start_year net now e,
    reachable format_exc self →
    _refresh_in_flight self = false →
    _parse_start_year_main_thread nowy1 self = (Return start_year, self) →
    fetch_latest_noaa_daily_ppm net = Raise e
    ∨ ((∃ snap, fetch_latest_noaa_daily_ppm net = Return snap)
       ∧ fetch_world_emissions_owid net start_year nowy2 = Raise e) →
    let self1 := step format_exc self (Refresh nowy1 nowy2) in
    let self2 := step format_exc self1 (WorkerDone 0 net) in
    let self3 := step format_exc self2 (Poll now) in
    _q self2 = [err (format_exc e)]
    ∧ dialogs self3 = dialogs self ++ [(u "Refresh failed", format_exc e)]
    ∧ status self3 = [Text (u "Error")]
    ∧ cards self3 = cards self
    ∧ last_snapshot self3 = last_snapshot self
    ∧ budget_choice self3 = budget_choice self
    ∧ budget_start_year self3 = budget_start_year self
    ∧ _refresh_in_flight self3 = false
    ∧ refresh_btn self3 = normal
    ∧ _q self3 = []
    ∧ threads self3 = []
    ∧ after_poll_queue self3 = 1%nat
    ∧ (∀ nowy3 nowy4,
         length (threads (step format_exc self3 (Refresh nowy3 nowy4))) = 1%nat).
Proof.
  intros self nowy1 nowy2 start_year net now e Hr Hf Hp He self1 self2 self3.
  pose proof (reachable_inv format_exc self Hr) as [Hok Hn].
  pose proof (reachable_controls format_exc self Hr) as [Ha _].
  rewrite Hf in Hn.
  assert (Ht : threads self = []) by (destruct (threads self); [done|cbn in Hn; lia]).
  assert (Hq : _q self = []).
  { rewrite Ht in Hn. by destruct (_q self). }
  assert (Hm : worker_message format_exc net start_year nowy2 (budget_choice self)
               = err (format_exc e)).
  { unfold worker_message. destruct He as [->|[[snap ->] ->]]; reflexivity. }
  assert (E1 : self1
    = set_threads [(start_year, nowy2, budget_choice self)]
        (set_status_text [Text (u "Refreshing…")]
           (set_refresh_btn disabled (set_refresh_in_flight true self)))).
  { unfold self1. cbn [step].
    rewrite (refresh_async_start nowy1 nowy2 self start_year Hf Hp).
    cbn [snd]. by rewrite Ht. }
  assert (E2 : self2
    = set_q [err (format_exc e)] (set_threads [] self1)).
  { unfold self2. rewrite E1. cbn [step threads set_threads lookup list_lookup].
    rewrite refresh_worker_put, Hm. cbn. by rewrite Hq. }
  assert (E3 : self3
    = set_after_poll_queue 1
        (set_refresh_btn normal
           (set_refresh_in_flight false
              (set_dialogs (dialogs self ++ [(u "Refresh failed", format_exc e)])
                 (set_status_text [Text (u "Error")] (set_q [] self2)))))).
  { unfold self3. rewrite E2, E1. cbn [step after_poll_queue set_q set_threads
      set_status_text set_refresh_btn set_refresh_in_flight]. rewrite Ha.
    rewrite (poll_err _ _ (format_exc e) []) by reflexivity. reflexivity. }
  rewrite E3, E2, E1. repeat split.
Qed.

End FailureFacts.

Lemma refresh_cycle_failure_witness :
  let self := sample_App in
  let e := RequestException Timeout in
  let self1 := step sample_format_exc self (Refresh 2024 2024) in
  let self2 := step sample_format_exc self1 (WorkerDone 0 sample_network_down) in
  let self3 := step sample_format_exc self2 (Poll (u "2024-01-06 12:05:00")) in
  _q self2 = [err (sample_format_exc e)]
  ∧ dialogs self3 = dialogs self ++ [(u "Refresh failed", sample_format_exc e)]
  ∧ status self3 = [Text (u "Error")]
  ∧ cards self3 = cards self
  ∧ last_snapshot self3 = last_snapshot self
  ∧ budget_choice self3 = budget_choice self
  ∧ budget_start_year self3 = budget_start_year self
  ∧ _refresh_in_flight self3 = false
  ∧ refresh_btn self3 = normal
  ∧ _q self3 = []
  ∧ threads self3 = []
  ∧ after_poll_queue self3 = 1%nat
  ∧ (∀ nowy3 nowy4,
       length (threads (step sample_format_exc self3 (Refresh nowy3 nowy4)))
       = 1%nat).
Proof.
  apply (refresh_cycle_failure sample_format_exc sample_App 2024 2024 2020
           sample_network_down (u "2024-01-06 12:05:00")
           (RequestException Timeout) reachable_sample_App);
    [vm_compute; reflexivity|vm_compute; reflexivity|].
  left. vm_compute. reflexivity.
Defined.

(** ** Independence of the order of the file *)

Lemma datetime_ltb_total a b :
  datetime_ltb a b = false → datetime_ltb b a = false → a = b.
Proof.
  intros H1 H2.
  assert (N1 : ¬ datetime_ltb a b = true) by congruence.
  assert (N2 : ¬ datetime_ltb b a = true) by congruence.
  rewrite datetime_ltb_lt in N1, N2. destruct a, b. cbn in *.
  f_equal; lia.
Qed.

Lemma datetime_ltb_asym a b :
  datetime_ltb a b = true → datetime_ltb b a = false.
Proof.
  intros H. destruct (datetime_ltb b a) eqn:H'; [|reflexivity].
  rewrite datetime_ltb_lt in H, H'. lia.
Qed.

Lemma NoDup_fst_functional {A B} (l : list (A * B)) a b1 b2 :
  NoDup l.*1 → (a, b1) ∈ l → (a, b2) ∈ l → b1 = b2.
Proof.
  induction l as [|[a' b'] l IH]; intros Hnd H1 H2; [by apply elem_of_nil in H1|].
  cbn in Hnd. apply NoDup_cons in Hnd as [Hn Hnd].
  assert (Hin : ∀ b, (a', b) ∈ l → False).
  { intros b Hb. apply Hn. apply list_elem_of_fmap. by exists (a', b). }
  apply elem_of_cons in H1 as [[= -> ->]|H1], H2 as [[= <-]|H2].
  - reflexivity.
  - destruct (Hin _ H2).
  - subst. destruct (Hin _ H1).
  - by apply IH.
Qed.

(** With no two rows of one date, the latest row is the same in
    whatever order the rows come. *)
Lemma max_date_perm (rows1 rows2 : list (datetime * float)) :
  rows1 ≡ₚ rows2 → NoDup rows1.*1 →
  max fst datetime_ltb rows1 = max fst datetime_ltb rows2.
Proof.
  intros Hp Hnd. destruct rows1 as [|r1 rs1].
  - apply Permutation_nil in Hp. by subst.
  - destruct rows2 as [|r2 rs2]; [by apply Permutation_sym, Permutation_nil in Hp|].
    cbn [max]. f_equal.
    destruct (max_go_first fst datetime_ltb datetime_ltb_trans datetime_ltb_cotrans
                r1 rs1) as (a1 & b1 & E1 & Hb1 & Ha1).
    destruct (max_go_first fst datetime_ltb datetime_ltb_trans datetime_ltb_cotrans
                r2 rs2) as (a2 & b2 & E2 & Hb2 & Ha2).
    set (m1 := max_go fst datetime_ltb r1 rs1) in *.
    set (m2 := max_go fst datetime_ltb r2 rs2) in *.
    assert (Hm1 : m1 ∈ r2 :: rs2).
    { rewrite <- Hp. apply max_go_elem. }
    assert (Hm2 : m2 ∈ r1 :: rs1).
    { rewrite Hp. apply max_go_elem. }
    assert (Hm1' : m1 ∈ r1 :: rs1) by apply max_go_elem.
    destruct (datetime_ltb m1.1 m2.1) eqn:L12.
    + exfalso. rewrite E1 in Hm2.
      apply elem_of_app in Hm2 as [Hm2|Hm2].
      * apply Hb1 in Hm2. apply datetime_ltb_asym in Hm2. congruence.
      * apply elem_of_cons in Hm2 as [Hm2|Hm2].
        -- rewrite Hm2 in L12. pose proof (datetime_ltb_asym _ _ L12). congruence.
        -- apply Ha1 in Hm2. congruence.
    + destruct (datetime_ltb m2.1 m1.1) eqn:L21.
      * exfalso. rewrite E2 in Hm1.
        apply elem_of_app in Hm1 as [Hm1|Hm1].
        -- apply Hb2 in Hm1. apply datetime_ltb_asym in Hm1. congruence.
        -- apply elem_of_cons in Hm1 as [Hm1|Hm1].
           ++ rewrite Hm1 in L21. pose proof (datetime_ltb_asym _ _ L21). congruence.
           ++ apply Ha2 in Hm1. congruence.
      * pose proof (datetime_ltb_total _ _ L12 L21) as Hd.
        destruct m1 as [d1 p1], m2 as [d2 p2]. cbn in Hd. subst d2.
        f_equal. by eapply NoDup_fst_functional.
Qed.

(** The order of the records in the concentration file does not
    matter when no two records have the same date: two files with the
    same records, all of existing dates, in any order, give the same
    result. *)
Theorem noaa_order_independent :
  ∀ net1 net2 text1 text2,
    _http_get_text net1 NOAA_DAILY_CSV = Return text1 →
    _http_get_text net2 NOAA_DAILY_CSV = Return text2 →
    (∀ line year month day avg,
       line ∈ splitlines text1 → noaa_record line year month day avg →
       ∃ dt, new_datetime year month day = Return dt) →
    (∀ line year month day avg,
       line ∈ splitlines text2 → noaa_record line year month day avg →
       ∃ dt, new_datetime year month day = Return dt) →
    omap noaa_dated (splitlines text1) ≡ₚ omap noaa_dated (splitlines text2) →
    NoDup (omap noaa_dated (splitlines text1)).*1 →
    fetch_latest_noaa_daily_ppm net1 = fetch_latest_noaa_daily_ppm net2.
Proof.
  intros net1 net2 text1 text2 H1 H2 D1 D2 Hp Hnd.
  unfold fetch_latest_noaa_daily_ppm. rewrite H1, H2. cbn [mbind result_bind].
  rewrite !noaa_loop_dated.
  2:{ intros line y m d a Hin Hl. apply (D2 line y m d a Hin).
      by apply noaa_line_record. }
  2:{ intros line y m d a Hin Hl. apply (D1 line y m d a Hin).
      by apply noaa_line_record. }
  cbn [mbind result_bind app].
  rewrite (max_date_perm _ _ Hp Hnd).
  destruct (omap noaa_dated (splitlines text1)) as [|r1 rs1].
  - apply Permutation_nil in Hp. by rewrite Hp.
  - destruct (omap noaa_dated (splitlines text2)) as [|r2 rs2];
      [by apply Permutation_sym, Permutation_nil in Hp|].
    by rewrite !bool_decide_eq_false_2 by done.
Qed.

Lemma noaa_order_independent_witness :
  fetch_latest_noaa_daily_ppm (serving sample_noaa)
  = fetch_latest_noaa_daily_ppm (serving sample_noaa_reordered).
Proof.
  apply (noaa_order_independent (serving sample_noaa)
           (serving sample_noaa_reordered) sample_noaa sample_noaa_reordered
           eq_refl eq_refl).
  - intros line year month day avg Hin Hr. apply noaa_line_record in Hr.
    vm_compute in Hin.
    repeat (apply elem_of_cons in Hin as [->|Hin];
            [vm_compute in Hr; try discriminate Hr;
             injection Hr as <- <- <- _; vm_compute; eauto|]).
    by apply elem_of_nil in Hin.
  - intros line year month day avg Hin Hr. apply noaa_line_record in Hr.
    vm_compute in Hin.
    repeat (apply elem_of_cons in Hin as [->|Hin];
            [vm_compute in Hr; try discriminate Hr;
             injection Hr as <- <- <- _; vm_compute; eauto|]).
    by apply elem_of_nil in Hin.
  - vm_compute. apply perm_swap.
  - vm_compute. apply NoDup_cons. split; [|apply NoDup_singleton].
    intros H. apply list_elem_of_singleton in H. discriminate H.
Defined.

Lemma strict_sorted_perm_eq {A} (key : A -> Z) (l1 l2 : list A) :
  StronglySorted (λ a b, key a < key b) l1 →
  StronglySorted (λ a b, key a < key b) l2 →
  l1 ≡ₚ l2 → l1 = l2.
Proof.
  revert l2. induction l1 as [|a l1 IH]; intros l2 S1 S2 Hp.
  - apply Permutation_nil in Hp. by subst.
  - destruct l2 as [|b l2]; [by apply Permutation_sym, Permutation_nil in Hp|].
    apply StronglySorted_inv in S1 as [S1 F1].
    apply StronglySorted_inv in S2 as [S2 F2].
    rewrite Forall_forall in F1, F2.
    assert (Hab : a = b).
    { assert (Ha : a ∈ b :: l2) by (rewrite <- Hp; apply list_elem_of_here).
      assert (Hb : b ∈ a :: l1) by (rewrite Hp; apply list_elem_of_here).
      apply elem_of_cons in Ha as [Ha|Ha]; [exact Ha|].
      apply elem_of_cons in Hb as [Hb|Hb]; [by symmetry|].
      apply F2 in Ha. apply F1 in Hb. lia. }
    subst b. f_equal. apply IH; [exact S1|exact S2|].
    by apply Permutation_cons_inv in Hp.
Qed.

Lemma sort_perm_eq {A} (key : A -> Z) (l1 l2 : list A) :
  l1 ≡ₚ l2 → NoDup (key <$> l1) → sort key l1 = sort key l2.
Proof.
  intros Hp Hnd. apply (strict_sorted_perm_eq key).
  - apply sorted_strict; [apply sort_sorted|]. by rewrite sort_perm.
  - apply sorted_strict; [apply sort_sorted|]. by rewrite sort_perm, <- Hp.
  - by rewrite !sort_perm.
Qed.

(** The order of the rows in the emissions file does not matter when
    no two kept rows are of the same year: two files whose kept rows
    give the same items in any order give the same series. *)
Theorem emissions_order_independent :
  ∀ net1 net2 start_year end_year text1 text2 rows1 rows2,
    _http_get_text net1 OWID_CO2_CSV = Return text1 →
    _http_get_text net2 OWID_CO2_CSV = Return text2 →
    Csv.DictReader (Csv.StringIO text1) = Return rows1 →
    Csv.DictReader (Csv.StringIO text2) = Return rows2 →
    omap (owid_row start_year end_year) rows1
      ≡ₚ omap (owid_row start_year end_year) rows2 →
    NoDup (omap (owid_row start_year end_year) rows1).*1 →
    fetch_world_emissions_owid net1 start_year end_year
    = fetch_world_emissions_owid net2 start_year end_year.
Proof.
  intros net1 net2 start_year end_year text1 text2 rows1 rows2
    H1 H2 R1 R2 Hp Hnd.
  unfold fetch_world_emissions_owid. rewrite H1, H2. cbn [mbind result_bind].
  rewrite R1, R2. cbn [mbind result_bind]. rewrite !owid_loop_omap. cbn [app].
  f_equal. by apply sort_perm_eq.
Qed.

Lemma emissions_order_independent_witness :
  fetch_world_emissions_owid (serving sample_owid) 2020 2024
  = fetch_world_emissions_owid (serving sample_owid_reordered) 2020 2024.
Proof.
  apply (emissions_order_independent (serving sample_owid)
           (serving sample_owid_reordered) 2020 2024 sample_owid
           sample_owid_reordered sample_owid_rows sample_owid_reordered_rows
           eq_refl eq_refl).
  - vm_compute. reflexivity.
  - vm_compute. reflexivity.
  - vm_compute. exact (Permutation_rev [_; _; _]).
  - vm_compute. apply (bool_decide_unpack _). vm_compute. exact I.
Defined.

(** ** Construction *)

(** [App()] starts the first refresh at once: when [__init__] returns
    one worker runs, for the years from 2020 (the current year if that
    is earlier) to the current year and for the first budget of the
    table; the refresh is in flight, the button disabled, the status
    the refreshing notice; one poll is pending; nothing is queued, kept
    or reported; and the cards are the five of the titles, each showing
    a dash and an empty line. *)
Theorem init_starts_first_refresh :
  ∀ nowy1 nowy2,
    let self := __init__ nowy1 nowy2 in
    threads self
    = [(Z.min 2020 nowy1, nowy2, u "1.5°C budget (50% chance) ~580 GtCO₂")]
    ∧ Some (budget_choice self) = head (dict_keys BUDGETS_GTCO2)
    ∧ budget_start_year self = u "2020"
    ∧ _refresh_in_flight self = true
    ∧ refresh_btn self = disabled
    ∧ status self = [Text (u "Refreshing…")]
    ∧ after_poll_queue self = 1%nat
    ∧ _q self = []
    ∧ last_snapshot self = None
    ∧ dialogs self = []
    ∧ (∀ title, title ∈ titles →
                cards self !! title = Some ([Text (u "—")], [Text []]))
    ∧ (∀ title, title ∉ titles → cards self !! title = None).
Proof.
  intros nowy1 nowy2 self.
  split.
  { unfold self, __init__. cbn [snd]. unfold bindM at 1.
    unfold after_100_poll_queue at 1, modify at 1.
    rewrite (refresh_async_start nowy1 nowy2
               (set_after_poll_queue (S (after_poll_queue new_App)) new_App)
               _ eq_refl eq_refl).
    cbn [snd threads set_threads].
    change (threads (set_after_poll_queue (S (after_poll_queue new_App)) new_App))
      with (@nil (Z * Z * str)).
    cbn [app].
    match goal with
    | |- [(?a, _, ?l)] = _ =>
      assert (Ha : a = Z.min 2020 nowy1);
        [|assert (Hl : l = u "1.5°C budget (50% chance) ~580 GtCO₂")
            by (vm_compute; reflexivity);
          rewrite Ha, Hl; reflexivity]
    end.
    change (int (strip (budget_start_year _))) with (int (strip (u "2020"))).
    replace (int (strip (u "2020"))) with (Some 2020) by (vm_compute; reflexivity).
    change (2020 <? 1990) with false. cbv iota.
    destruct (Z.ltb_spec nowy1 2020); lia. }
  repeat (split; [reflexivity|]).
  split.
  - intros title Ht. unfold titles in Ht.
    repeat (apply elem_of_cons in Ht as [->|Ht]; [vm_compute; reflexivity|]).
    by apply elem_of_nil in Ht.
  - intros title Ht. change (cards self) with (cards new_App). unfold new_App.
    cbn [cards]. apply not_elem_of_list_to_map_1.
    rewrite <- list_fmap_compose. intros Hin. apply Ht.
    apply list_elem_of_fmap in Hin as (t & -> & Hin). exact Hin.
Qed.

(** ** The sign of the budget on display *)



Section DisplayFacts.
Variable format_exc : exn -> str.


End DisplayFacts.


(** ** The budget, whatever the interpreter's [sum] *)

Section SumFacts.
(** The built-in [sum] of the interpreter, on a list of floats. *)
Variable builtin_sum : list float -> float.
(** It gives a float. *)
Hypothesis builtin_sum_valid :
  ∀ l, Forall valid l → valid (builtin_sum l).

(** The two budget cards [render_with] leaves. *)
Lemma render_with_budget snap emissions start_year end_year budget_label self :
  cards_ok self →
  let budget_gt := dict_get BUDGETS_GTCO2 budget_label (float_lit "580.0") in
  let used_gt :=
    if negb (bool_decide (emissions = [])) then builtin_sum emissions.*2
    else float_lit "0.0" in
  ∃ self',
    render_with builtin_sum snap emissions start_year end_year budget_label self
    = (Return tt, self')
    ∧ card_value self' (u "Estimated budget used (GtCO₂)")
      = Some [FormatFloat used_gt (u ",.1f"); Text (u " GtCO₂")]
    ∧ card_value self' (u "Estimated budget remaining (GtCO₂)")
      = Some [FormatFloat (fsub budget_gt used_gt) (u ",.1f"); Text (u " GtCO₂")].
Proof.
  intros Hok budget_gt used_gt.
  assert (Ht : ∀ i t, titles !! i = Some t → t ∈ titles)
    by (intros i t; apply list_elem_of_lookup_2).
  unfold render_with.
  change (index0 (dict_values BUDGETS_GTCO2)) with (Return (float_lit "580.0")).
  unfold bindM at 1; unfold lift at 1.
  unfold bindM at 1. rewrite set_card_ok by side 0%nat.
  unfold bindM at 1. rewrite set_card_ok by side 1%nat.
  unfold bindM at 1. rewrite set_card_ok by side 2%nat.
  unfold bindM at 1. rewrite set_card_ok by side 3%nat.
  rewrite set_card_ok by side 4%nat.
  eexists. split; [reflexivity|]. split; card_lookup.
Qed.

(** C7: the budget used that [render] shows is 0.0 for the empty
    series and otherwise what the built-in [sum] gives for the
    emissions values of the series, in the order of the series; the
    budget remaining that it shows is the budget total minus the budget
    used; and, the emissions values being binary64 values, the budget
    remaining is less than zero exactly when the budget used is greater
    than the budget total.  This holds for every [sum] that gives a
    float, that of CPython up to 3.11 and that of later versions;
    [render] is [render_with] at the former. *)
Theorem C7_budget_used_and_remaining :
  (∀ snap emissions start_year end_year budget_label self,
     cards_ok self →
     ∃ first self',
       head (dict_values BUDGETS_GTCO2) = Some first
       ∧ render_with builtin_sum snap emissions start_year end_year budget_label
           self
         = (Return tt, self')
       ∧ let budget_gt := dict_get BUDGETS_GTCO2 budget_label first in
         let used_gt :=
           if bool_decide (emissions = []) then float_lit "0.0"
           else builtin_sum emissions.*2 in
         card_value self' (u "Estimated budget used (GtCO₂)")
         = Some [FormatFloat used_gt (u ",.1f"); Text (u " GtCO₂")]
         ∧ card_value self' (u "Estimated budget remaining (GtCO₂)")
           = Some [FormatFloat (fsub budget_gt used_gt) (u ",.1f");
                   Text (u " GtCO₂")]
         ∧ (Forall (λ item, valid item.2) emissions →
            valid used_gt
            ∧ fltb (fsub budget_gt used_gt) (float_lit "0.0")
              = fltb budget_gt used_gt))
  ∧ (∀ snap emissions start_year end_year budget_label,
       render snap emissions start_year end_year budget_label
       = render_with sum snap emissions start_year end_year budget_label).
Proof.
  split; [|reflexivity].
  intros snap emissions start_year end_year budget_label self Hok.
  destruct (render_with_budget snap emissions start_year end_year budget_label
              self Hok) as (self' & Hr & Hu & Hm).
  exists (float_lit "580.0"), self'. split; [reflexivity|]. split; [exact Hr|].
  cbv zeta.
  assert (E : (if bool_decide (emissions = []) then float_lit "0.0"
               else builtin_sum emissions.*2)
              = (if negb (bool_decide (emissions = []))
                 then builtin_sum emissions.*2 else float_lit "0.0"))
    by (by destruct (bool_decide (emissions = []))).
  rewrite E. split; [exact Hu|]. split; [exact Hm|].
  intros Hv.
  assert (Hused : valid (if negb (bool_decide (emissions = []))
                         then builtin_sum emissions.*2 else float_lit "0.0")).
  { destruct (bool_decide (emissions = [])); cbn [negb]; [reflexivity|].
    apply builtin_sum_valid. by apply Forall_fmap. }
  split; [exact Hused|].
  apply SFsub_ltb; [by apply budget_valid|exact Hused].
Qed.

End SumFacts.

Lemma C7_budget_used_and_remaining_witness :
  ∃ first self',
    head (dict_values BUDGETS_GTCO2) = Some first
    ∧ render_with sum sample_snapshot sample_emissions 2020 2021
        (u "no such budget") new_App
      = (Return tt, self')
    ∧ let budget_gt := dict_get BUDGETS_GTCO2 (u "no such budget") first in
      let used_gt :=
        if bool_decide (sample_emissions = []) then float_lit "0.0"
        else sum sample_emissions.*2 in
      card_value self' (u "Estimated budget used (GtCO₂)")
      = Some [FormatFloat used_gt (u ",.1f"); Text (u " GtCO₂")]
      ∧ card_value self' (u "Estimated budget remaining (GtCO₂)")
        = Some [FormatFloat (fsub budget_gt used_gt) (u ",.1f");
                Text (u " GtCO₂")]
      ∧ (Forall (λ item, valid item.2) sample_emissions →
         valid used_gt
         ∧ fltb (fsub budget_gt used_gt) (float_lit "0.0")
           = fltb budget_gt used_gt).
Proof.
  exact (proj1 (C7_budget_used_and_remaining sum sum_valid)
           sample_snapshot sample_emissions 2020 2021 (u "no such budget")
           new_App cards_ok_new_App).
Defined.

(** ** The application with its error dialog *)

(** The two parts make [_poll_queue]. *)
Lemma poll_queue_split now self :
  _poll_queue now self
  = match _poll_queue_to_showerror now self with
    | (Return true, self') => _poll_queue_from_showerror self'
    | (Return false, self') => (Return tt, self')
    | (Raise e, self') => (Raise e, self')
    end.
Proof.
  unfold _poll_queue, _poll_queue_to_showerror.
  destruct (_q self) as [|[snap emissions start_year end_year budget_label|tb] q];
    [reflexivity| |reflexivity].
  unfold bindM at 1 3. unfold modify at 1 6.
  unfold bindM at 1 5. unfold bindM at 1 4. unfold modify at 1 4.
  unfold bindM at 1 3.
  destruct (render _ _ _ _ _ _) as [[[]|e] self']; reflexivity.
Qed.

Lemma to_showerror_empty now self :
  _q self = [] →
  _poll_queue_to_showerror now self
  = (Return false, set_after_poll_queue (S (after_poll_queue self)) self).
Proof. intros H. unfold _poll_queue_to_showerror. by rewrite H. Qed.

Lemma to_showerror_err now self tb q :
  _q self = err tb :: q →
  _poll_queue_to_showerror now self
  = (Return true,
     set_dialogs (dialogs self ++ [(u "Refresh failed", tb)])
       (set_status_text [Text (u "Error")] (set_q q self))).
Proof. intros H. unfold _poll_queue_to_showerror. by rewrite H. Qed.

Lemma to_showerror_ok now self snap emissions start_year end_year budget_label q :
  cards_ok self →
  _q self = ok snap emissions start_year end_year budget_label :: q →
  _poll_queue_to_showerror now self
  = (Return false,
     set_after_poll_queue (S (after_poll_queue self))
       (set_refresh_btn normal
          (set_refresh_in_flight false
             (set_status_text [Text (u "Updated "); Text now]
                (set_cards
                   (cards (render snap emissions start_year end_year budget_label
                             self).2)
                   (set_last_snapshot (Some snap) (set_q q self))))))).
Proof.
  intros Hok H. unfold _poll_queue_to_showerror. rewrite H.
  unfold bindM at 1. unfold modify at 1.
  unfold bindM at 1. unfold bindM at 1. unfold modify at 1.
  unfold bindM at 1.
  rewrite (render_snd snap emissions start_year end_year budget_label) by exact Hok.
  erewrite (render_cards_agree snap emissions start_year end_year budget_label
              _ self);
    [reflexivity|exact Hok|exact Hok|intros k _; reflexivity].
Qed.

Section SessionFacts.
Variable format_exc : exn -> str.

Lemma session_inv_init nowy1 nowy2 :
  session_inv {| app_state := __init__ nowy1 nowy2; open_dialogs := 0 |}.
Proof. split; [apply coordinator_inv_init|apply controls_inv_init]. Qed.

Lemma session_inv_step s ev :
  session_inv s → session_inv (session_step format_exc s ev).
Proof.
  destruct s as [self [|[|n]]]; unfold session_inv; cbn [open_dialogs app_state];
    [| |intros []].
  - (* no dialog open *)
    intros [Hc Hu]. pose proof Hc as [Hok Hn]. pose proof Hu as [Ha Hb].
    destruct ev as [[nowy1 nowy2|now|i net|s'|s']|]; cbn [session_step app_state open_dialogs];
      try (split; [by apply coordinator_inv_step|by apply controls_inv_step]).
    + (* a poll *)
      rewrite Ha.
      destruct (_q self) as [|[snap emissions start_year end_year budget_label|tb] q]
        eqn:Hq.
      * rewrite to_showerror_empty by exact Hq. cbn [app_state open_dialogs].
        split; [split; [exact Hok|]|split; [reflexivity|exact Hb]].
        cbn. by rewrite Hq.
      * rewrite (to_showerror_ok now _ snap emissions start_year end_year
                   budget_label q) by (exact Hok || exact Hq).
        cbn [app_state open_dialogs]. cbn in Hn.
        destruct (_refresh_in_flight self); [|lia].
        split; [split|split].
        -- intros t Ht. cbn [cards set_after_poll_queue set_refresh_btn
             set_refresh_in_flight set_status_text set_cards].
           apply (cards_ok_render snap emissions start_year end_year budget_label
                    (set_after_poll_queue 0 self) Hok t Ht).
        -- cbn. lia.
        -- reflexivity.
        -- cbn. split; [reflexivity|]. right. by exists now.
      * rewrite (to_showerror_err now _ tb q) by exact Hq.
        cbn [app_state open_dialogs]. cbn in Hn.
        destruct (_refresh_in_flight self) eqn:Hf; [|lia].
        destruct Hb as [Hb1 Hb2]. cbn.
        destruct (threads self); [|cbn in Hn; lia].
        destruct q; [|cbn in Hn; lia].
        by repeat split.
    + (* no dialog to close *)
      by split.
  - (* the dialog open *)
    intros (Hok & Ha & Hf & Hb & Hs & Ht & Hq).
    destruct ev as [[nowy1 nowy2|now|i net|s'|s']|];
      cbn [session_step app_state open_dialogs step].
    + rewrite (refresh_async_in_flight nowy1 nowy2 self Hf). by repeat split.
    + rewrite Ha. by repeat split.
    + rewrite Ht. cbn. by repeat split.
    + by repeat split.
    + by repeat split.
    + cbn. split; [split; [exact Hok|]|split; [by rewrite Ha|]].
      * cbn. by rewrite Ht, Hq.
      * cbn. split; [reflexivity|]. by left.
Qed.

Lemma session_reachable_inv s :
  session_reachable format_exc s → session_inv s.
Proof.
  induction 1; [apply session_inv_init|by apply session_inv_step].
Qed.

End SessionFacts.

Section SessionTheorems.
Variable format_exc : exn -> str.

(** In every state a running application can be in, exactly one poll
    is pending or exactly one [_poll_queue] call stands at
    [messagebox.showerror], its error dialog open, and not both.  The
    pending poll never raises: it returns with one poll scheduled, or
    it opens the dialog with none scheduled; and it changes nothing
    when it finds the queue empty.  Closing the dialog schedules the
    next poll.  So the poll loop neither stops nor multiplies.  The
    two parts of [_poll_queue], before and after the dialog, make the
    whole when the dialog is closed at once. *)
Theorem poll_loop_alive :
  ∀ s,
    session_reachable format_exc s →
    (after_poll_queue (app_state s) + open_dialogs s = 1)%nat
    ∧ (∀ now,
         after_poll_queue (app_state s) = 1%nat →
         ∃ (b : bool) self',
           _poll_queue_to_showerror now (set_after_poll_queue 0 (app_state s))
           = (Return b, self')
           ∧ session_step format_exc s (AppEvent (Poll now))
             = {| app_state := self'; open_dialogs := if b then 1 else 0 |}
           ∧ (after_poll_queue self' + (if b then 1 else 0) = 1)%nat)
    ∧ (∀ now,
         _q (app_state s) = [] → session_step format_exc s (AppEvent (Poll now)) = s)
    ∧ (open_dialogs s = 1%nat →
       open_dialogs (session_step format_exc s CloseDialog) = 0%nat
       ∧ after_poll_queue (app_state (session_step format_exc s CloseDialog)) = 1%nat)
    ∧ (∀ now self,
         _poll_queue now self
         = match _poll_queue_to_showerror now self with
           | (Return true, self') => _poll_queue_from_showerror self'
           | (Return false, self') => (Return tt, self')
           | (Raise e, self') => (Raise e, self')
           end).
Proof.
  intros s Hr. pose proof (session_reachable_inv format_exc s Hr) as Hi.
  destruct s as [self [|[|n]]]; unfold session_inv in Hi; cbn [open_dialogs app_state] in *;
    [| |destruct Hi].
  - destruct Hi as [[Hok Hn] [Ha Hb]].
    split; [rewrite Ha; reflexivity|]. split; [|split; [|split]].
    + intros now _. cbn [session_step app_state open_dialogs]. rewrite Ha.
      destruct (_q self) as [|[snap emissions start_year end_year budget_label|tb] q]
        eqn:Hq.
      * rewrite to_showerror_empty by exact Hq. by exists false; eexists.
      * rewrite (to_showerror_ok now _ snap emissions start_year end_year
                   budget_label q) by (exact Hok || exact Hq).
        by exists false; eexists.
      * rewrite (to_showerror_err now _ tb q) by exact Hq.
        exists true. eexists. split; [reflexivity|]. split; [reflexivity|].
        reflexivity.
    + intros now Hq. cbn [session_step app_state open_dialogs]. rewrite Ha.
      rewrite to_showerror_empty by exact Hq. f_equal.
      destruct self. cbn in *. by subst.
    + intros [=].
    + intros now self'. apply poll_queue_split.
  - destruct Hi as (Hok & Ha & Hf & Hb & Hs & Ht & Hq).
    split; [rewrite Ha; reflexivity|]. split; [|split; [|split]].
    + intros now Ha'. rewrite Ha in Ha'. discriminate Ha'.
    + intros now _. cbn [session_step app_state open_dialogs]. by rewrite Ha.
    + intros _. cbn. by rewrite Ha.
    + intros now self'. apply poll_queue_split.
Qed.

(** In every state a running application can be in, the button and
    the status line tell where the refresh stands.  With no dialog
    open: while a refresh is in flight the button is disabled and the
    status is the refreshing notice; while none is, the button is
    enabled and the status is that of the last result, an error or an
    update.  While the error dialog is open the status is the error
    notice already, and the refresh is still in flight and the button
    still disabled. *)
Theorem controls_track_refresh :
  ∀ s,
    session_reachable format_exc s →
    match open_dialogs s with
    | O =>
      if _refresh_in_flight (app_state s)
      then refresh_btn (app_state s) = disabled
           ∧ status (app_state s) = [Text (u "Refreshing…")]
      else refresh_btn (app_state s) = normal
           ∧ (status (app_state s) = [Text (u "Error")]
              ∨ ∃ now, status (app_state s) = [Text (u "Updated "); Text now])
    | S _ =>
      _refresh_in_flight (app_state s) = true
      ∧ refresh_btn (app_state s) = disabled
      ∧ status (app_state s) = [Text (u "Error")]
    end.
Proof.
  intros s Hr. pose proof (session_reachable_inv format_exc s Hr) as Hi.
  destruct s as [self [|[|n]]]; unfold session_inv in Hi; cbn [open_dialogs app_state] in *;
    [| |destruct Hi].
  - exact (proj2 (proj2 Hi)).
  - destruct Hi as (Hok & Ha & Hf & Hb & Hs & Ht & Hq). by repeat split.
Qed.

(** A refresh in flight is never stuck.  In every state a running
    application can be in with a refresh in flight, its worker still
    runs, or its result waits in the queue, or its error dialog is
    open: one of the three and only one.  Once the worker, if it still
    runs, has finished, the next poll, and the closing of the dialog
    if the poll opens one or one is open, end the refresh: the flag is
    cleared, the button is enabled, no worker, no result and no dialog
    is left, one poll is pending, and the status is that of the
    result. *)
Theorem refresh_in_flight_completes :
  ∀ s net now,
    session_reachable format_exc s →
    _refresh_in_flight (app_state s) = true →
    (length (threads (app_state s)) + length (_q (app_state s)) + open_dialogs s)%nat = 1%nat
    ∧ let s' :=
        session_step format_exc
          (session_step format_exc
             (session_step format_exc s (AppEvent (WorkerDone 0 net)))
             (AppEvent (Poll now)))
          CloseDialog in
      _refresh_in_flight (app_state s') = false
      ∧ refresh_btn (app_state s') = normal
      ∧ threads (app_state s') = []
      ∧ _q (app_state s') = []
      ∧ open_dialogs s' = 0%nat
      ∧ after_poll_queue (app_state s') = 1%nat
      ∧ (status (app_state s') = [Text (u "Error")]
         ∨ status (app_state s') = [Text (u "Updated "); Text now]).
Proof.
  intros s net now Hr Hf.
  pose proof (session_reachable_inv format_exc s Hr) as Hi.
  destruct s as [self [|[|n]]]; unfold session_inv in Hi; cbn [open_dialogs app_state] in *;
    [| |destruct Hi].
  - destruct Hi as [[Hok Hn] [Ha Hb]]. rewrite Hf in Hn.
    split; [lia|].
    assert (Hdrain : ∀ self1 m,
      cards_ok self1 → after_poll_queue self1 = 1%nat →
      _q self1 = [m] → threads self1 = [] →
      let s' :=
        session_step format_exc
          (session_step format_exc {| app_state := self1; open_dialogs := 0 |}
             (AppEvent (Poll now)))
          CloseDialog in
      _refresh_in_flight (app_state s') = false
      ∧ refresh_btn (app_state s') = normal
      ∧ threads (app_state s') = []
      ∧ _q (app_state s') = []
      ∧ open_dialogs s' = 0%nat
      ∧ after_poll_queue (app_state s') = 1%nat
      ∧ (status (app_state s') = [Text (u "Error")]
         ∨ status (app_state s') = [Text (u "Updated "); Text now])).
    { intros self1 m Hok1 Ha1 Hq1 Ht1 s'. unfold s'.
      cbn [session_step app_state open_dialogs]. rewrite Ha1.
      destruct m as [snap emissions start_year end_year budget_label|tb].
      - rewrite (to_showerror_ok now _ snap emissions start_year end_year
                   budget_label []) by (exact Hok1 || exact Hq1).
        cbn. rewrite Ht1. repeat split. by right.
      - rewrite (to_showerror_err now _ tb []) by exact Hq1.
        cbn. rewrite Ht1. repeat split. by left. }
    destruct (threads self) as [|[[start_year end_year] budget_label] ts] eqn:Ht.
    + destruct (_q self) as [|m [|m' q]] eqn:Hq; cbn in Hn; try lia.
      assert (E : session_step format_exc {| app_state := self; open_dialogs := 0 |}
                    (AppEvent (WorkerDone 0 net))
                  = {| app_state := self; open_dialogs := 0 |}).
      { cbn [session_step app_state open_dialogs step]. by rewrite Ht. }
      rewrite E. by apply (Hdrain self m).
    + destruct ts; [|cbn in Hn; lia].
      destruct (_q self) as [|m q] eqn:Hq; [|cbn in Hn; lia].
      assert (E : session_step format_exc {| app_state := self; open_dialogs := 0 |}
                    (AppEvent (WorkerDone 0 net))
                  = {| app_state :=
                         set_q [worker_message format_exc net start_year end_year
                                  budget_label] (set_threads [] self);
                       open_dialogs := 0 |}).
      { cbn [session_step app_state open_dialogs step]. rewrite Ht.
        cbn [lookup list_lookup]. rewrite refresh_worker_put, Hq. reflexivity. }
      rewrite E. by eapply Hdrain.
  - destruct Hi as (Hok & Ha & _ & Hb & Hs & Ht & Hq).
    rewrite Ht, Hq. split; [reflexivity|].
    cbn [session_step app_state open_dialogs step]. rewrite Ht.
    cbn [lookup list_lookup app_state open_dialogs]. rewrite Ha. cbn.
    rewrite Ht, Hq, Hs, Ha. repeat (split; [reflexivity|]). by left.
Qed.

End SessionTheorems.

Lemma reachable_sample_Session_dialog :
  session_reachable sample_format_exc sample_Session_dialog.
Proof.
  unfold sample_Session_dialog. apply session_next, session_next, session_init.
Qed.

Lemma controls_track_refresh_witness :
  open_dialogs sample_Session_dialog = 1%nat
  ∧ match open_dialogs sample_Session_dialog with
    | O =>
      if _refresh_in_flight (app_state sample_Session_dialog)
      then refresh_btn (app_state sample_Session_dialog) = disabled
           ∧ status (app_state sample_Session_dialog) = [Text (u "Refreshing…")]
      else refresh_btn (app_state sample_Session_dialog) = normal
           ∧ (status (app_state sample_Session_dialog) = [Text (u "Error")]
              ∨ ∃ now,
                  status (app_state sample_Session_dialog)
                  = [Text (u "Updated "); Text now])
    | S _ =>
      _refresh_in_flight (app_state sample_Session_dialog) = true
      ∧ refresh_btn (app_state sample_Session_dialog) = disabled
      ∧ status (app_state sample_Session_dialog) = [Text (u "Error")]
    end.
Proof.
  split; [vm_compute; reflexivity|].
  exact (controls_track_refresh sample_format_exc sample_Session_dialog
           reachable_sample_Session_dialog).
Defined.

Lemma poll_loop_alive_witness :
  (after_poll_queue (app_state sample_Session_dialog)
   + open_dialogs sample_Session_dialog = 1)%nat
  ∧ open_dialogs sample_Session_dialog = 1%nat
  ∧ open_dialogs (session_step sample_format_exc sample_Session_dialog CloseDialog)
    = 0%nat
  ∧ after_poll_queue
      (app_state (session_step sample_format_exc sample_Session_dialog CloseDialog))
    = 1%nat.
Proof.
  pose proof (poll_loop_alive sample_format_exc sample_Session_dialog
                reachable_sample_Session_dialog) as (H1 & _ & _ & H4 & _).
  assert (Hd : open_dialogs sample_Session_dialog = 1%nat)
    by (vm_compute; reflexivity).
  split; [exact H1|]. split; [exact Hd|]. exact (H4 Hd).
Defined.

Lemma refresh_in_flight_completes_witness :
  let s := {| app_state := __init__ 2024 2024; open_dialogs := 0 |} in
  (length (threads (app_state s)) + length (_q (app_state s)) + open_dialogs s)%nat = 1%nat
  ∧ let s' :=
      session_step sample_format_exc
        (session_step sample_format_exc
           (session_step sample_format_exc s
              (AppEvent (WorkerDone 0 sample_network_down)))
           (AppEvent (Poll (u "2024-01-06 12:00:00"))))
        CloseDialog in
    _refresh_in_flight (app_state s') = false
    ∧ refresh_btn (app_state s') = normal
    ∧ threads (app_state s') = []
    ∧ _q (app_state s') = []
    ∧ open_dialogs s' = 0%nat
    ∧ after_poll_queue (app_state s') = 1%nat
    ∧ (status (app_state s') = [Text (u "Error")]
       ∨ status (app_state s') = [Text (u "Updated "); Text (u "2024-01-06 12:00:00")]).
Proof.
  apply (refresh_in_flight_completes sample_format_exc
           {| app_state := __init__ 2024 2024; open_dialogs := 0 |}
           sample_network_down (u "2024-01-06 12:00:00")
           (session_init sample_format_exc 2024 2024)).
  reflexivity.
Defined.

End Theory.
